(** * Persona inference engine: a shallow embedding of [persona_analyzer.py]

    The development follows the Python module top to bottom.

    Libraries the module calls:
    - [PyStr]   : the [str] methods used, as they are on ASCII text. On a
                  character above 127 the definitions leave the case alone
                  and see no letter, digit or white space, which is not what
                  Python does there ([capitalize] turns U+00DF into "Ss");
                  the statements that depend on the case mappings are made
                  for an ASCII corpus ([ascii_corpus]);
    - [Re]      : the fragment of [re] that the analyzer's patterns use (a
                  backtracking matcher with greedy repetition, ordered
                  alternation, word boundaries, groups and IGNORECASE), with
                  [search], [finditer], [findall] and [split]; IGNORECASE is
                  the folding of the ASCII letters, which is all that it
                  does on an ASCII subject (on others Python also lets "I"
                  match U+0131 and "s" match U+017F);
    - [PyFloat] : binary64 arithmetic on [spec_float], for the two places
                  where the analyzer divides counters and truncates;
    - [Runtime] : what comes from NLTK and [datetime], taken as given.

    The analyzer:
    - the input and output dictionaries as records; the input dictionaries
      and the text records built from them live in an object store, and a
      citation is a reference into it;
    - one definition per method of [PersonaAnalyzer], under the method's
      name, with [analyze] in a monad that reads the store, allocates in it
      and may raise;
    - [Sample], a small runtime and corpus on which the definitions are
      evaluated.

    The properties follow the definitions. *)

From Stdlib Require Import ZArith QArith Lia List Bool Ascii String DecimalString SpecFloat.
From stdpp Require Import gmap strings list.

Local Open Scope string_scope.
Local Open Scope nat_scope.

(** ** Python [str] on the ASCII fragment *)
Module PyStr.

Definition code (c : ascii) : nat := nat_of_ascii c.

Definition is_upper (c : ascii) : bool := (65 <=? code c) && (code c <=? 90).
Definition is_lower (c : ascii) : bool := (97 <=? code c) && (code c <=? 122).
Definition is_digit (c : ascii) : bool := (48 <=? code c) && (code c <=? 57).
Definition is_alpha (c : ascii) : bool := is_upper c || is_lower c.

(** [\w] *)
Definition is_word (c : ascii) : bool :=
  is_alpha c || is_digit c || (code c =? 95).

(** [\s] and [str.isspace]: TAB, LF, VT, FF, CR, FS, GS, RS, US, SPACE *)
Definition is_space (c : ascii) : bool :=
  ((9 <=? code c) && (code c <=? 13))
  || ((28 <=? code c) && (code c <=? 31))
  || (code c =? 32).

Definition to_lower (c : ascii) : ascii :=
  if is_upper c then ascii_of_nat (code c + 32) else c.
Definition to_upper (c : ascii) : ascii :=
  if is_lower c then ascii_of_nat (code c - 32) else c.

Definition chars (s : string) : list ascii := list_ascii_of_string s.
Definition str (l : list ascii) : string := string_of_list_ascii l.

(** [s.lower()] *)
Fixpoint lower (s : string) : string :=
  match s with
  | EmptyString => EmptyString
  | String c s' => String (to_lower c) (lower s')
  end.

(** [s.capitalize()]: first character upper-cased, the rest lower-cased *)
Definition capitalize (s : string) : string :=
  match s with
  | EmptyString => EmptyString
  | String c s' => String (to_upper c) (lower s')
  end.

Fixpoint lstrip_chars (l : list ascii) : list ascii :=
  match l with
  | c :: l' => if is_space c then lstrip_chars l' else l
  | [] => []
  end.

(** [s.strip()] *)
Definition strip (s : string) : string :=
  str (rev (lstrip_chars (rev (lstrip_chars (chars s))))).

(** [len(s)] *)
Definition len (s : string) : nat := String.length s.

Fixpoint starts_with (p l : list ascii) : bool :=
  match p, l with
  | [], _ => true
  | a :: p', b :: l' => Ascii.eqb a b && starts_with p' l'
  | _ :: _, [] => false
  end.

Fixpoint contains_chars (p l : list ascii) : bool :=
  starts_with p l ||
  match l with
  | [] => false
  | _ :: l' => contains_chars p l'
  end.

(** [p in s] for strings *)
Definition contains (p s : string) : bool := contains_chars (chars p) (chars s).

(** [s[i:j]] for [0 <= i <= j] *)
Definition slice (i j : nat) (s : string) : string :=
  str (firstn (j - i) (skipn i (chars s))).

(** [sep.join(l)] *)
Fixpoint join (sep : string) (l : list string) : string :=
  match l with
  | [] => ""
  | [s] => s
  | s :: l' => s +:+ sep +:+ join sep l'
  end.

(** [str(n)] for an integer *)
Definition of_Z (n : Z) : string := NilEmpty.string_of_int (Z.to_int n).

(** [int(s)] on a run of ASCII digits *)
Definition digits_value (s : string) : nat :=
  fold_left (fun acc c => 10 * acc + (code c - 48)) (chars s) 0.

(** [s in l] for a list of strings *)
Definition mem (s : string) (l : list string) : bool :=
  existsb (String.eqb s) l.

(** [s.isascii()] *)
Definition is_ascii (s : string) : bool := forallb (fun c => code c <? 128) (chars s).

End PyStr.

(** ** The fragment of Python's [re] that the analyzer uses *)
Module Re.
Import PyStr.

Inductive regex : Type :=
| Eps                                      (* empty pattern *)
| Chr (c : ascii)                          (* a literal character *)
| Set_ (negated : bool) (ranges : list (ascii * ascii))  (* [a-z], [^.,!?;] *)
| Space                                    (* \s *)
| Digit                                    (* \d *)
| Bound                                    (* \b *)
| Seq (r1 r2 : regex)
| Alt (r1 r2 : regex)                      (* r1|r2, r1 tried first *)
| Rep (r : regex) (lo : nat) (hi : option nat)  (* greedy r{lo,hi} *)
| Group (name : string) (r : regex).       (* (?P<name>r) or (r) *)

Definition star r := Rep r 0 None.
Definition plus r := Rep r 1 None.
Definition opt r := Rep r 0 (Some 1).

Fixpoint seq (rs : list regex) : regex :=
  match rs with
  | [] => Eps
  | [r] => r
  | r :: rs' => Seq r (seq rs')
  end.

Fixpoint alt (rs : list regex) : regex :=
  match rs with
  | [] => Set_ false []
  | [r] => r
  | r :: rs' => Alt r (alt rs')
  end.

(** a literal string, as produced by [re.escape] *)
Definition lit (s : string) : regex := seq (map Chr (chars s)).

(** a cursor into the subject: the consumed prefix, reversed, and the rest *)
Record cursor := Cursor { before : list ascii; after : list ascii }.

Definition pos (c : cursor) : nat := length (before c).

Record mstate := MState { cur : cursor; groups : list (string * string) }.

Definition in_ranges (ranges : list (ascii * ascii)) (x : ascii) : bool :=
  existsb (fun '(a, b) => (code a <=? code x) && (code x <=? code b)) ranges.

Definition set_matches (icase negated : bool) ranges (x : ascii) : bool :=
  let hit := if icase
             then in_ranges ranges x || in_ranges ranges (to_lower x)
                  || in_ranges ranges (to_upper x)
             else in_ranges ranges x in
  xorb negated hit.

(** a literal character; under IGNORECASE, the same ASCII letter in either
    case *)
Definition chr_matches (icase : bool) (c x : ascii) : bool :=
  if icase then Ascii.eqb (to_lower c) (to_lower x) else Ascii.eqb c x.

Definition at_boundary (c : cursor) : bool :=
  let prev := match before c with x :: _ => is_word x | [] => false end in
  let next := match after c with x :: _ => is_word x | [] => false end in
  xorb prev next.

Definition step1 (p : ascii -> bool) (st : mstate) : option mstate :=
  match after (cur st) with
  | x :: rest =>
      if p x then Some (MState (Cursor (x :: before (cur st)) rest) (groups st))
      else None
  | [] => None
  end.

Section Matcher.
Context {A : Type}.
Variable icase : bool.

(** one greedy repetition loop: another iteration is tried first, and
    stopping here is the fallback once [lo] iterations are done *)
Fixpoint rep_loop (body : mstate -> (mstate -> option A) -> option A)
    (lo : nat) (hi : option nat) (fuel cnt : nat)
    (st : mstate) (k : mstate -> option A) : option A :=
  let stop := if lo <=? cnt then k st else None in
  match fuel with
  | 0 => stop
  | S fuel' =>
      if match hi with Some h => cnt <? h | None => true end then
        match body st (fun st' =>
                if pos (cur st) <? pos (cur st')
                then rep_loop body lo hi fuel' (S cnt) st' k
                else None) with
        | Some a => Some a
        | None => stop
        end
      else stop
  end.

Fixpoint run (r : regex) (st : mstate) (k : mstate -> option A) : option A :=
  match r with
  | Eps => k st
  | Chr c => match step1 (chr_matches icase c) st with Some st' => k st' | None => None end
  | Set_ negated ranges =>
      match step1 (set_matches icase negated ranges) st with Some st' => k st' | None => None end
  | Space => match step1 is_space st with Some st' => k st' | None => None end
  | Digit => match step1 is_digit st with Some st' => k st' | None => None end
  | Bound => if at_boundary (cur st) then k st else None
  | Seq r1 r2 => run r1 st (fun st' => run r2 st' k)
  | Alt r1 r2 =>
      match run r1 st k with
      | Some a => Some a
      | None => run r2 st k
      end
  | Rep r' lo hi =>
      rep_loop (run r') lo hi (S (length (after (cur st)))) 0 st k
  | Group name r' =>
      run r' st (fun st' =>
        let taken := pos (cur st') - pos (cur st) in
        let text := str (rev (firstn taken (before (cur st')))) in
        k (MState (cur st') ((name, text) :: groups st')))
  end.
End Matcher.

(** a match object: its span and its groups ([group_0] is [m.group(0)]) *)
Record match_ := Match { m_start : nat; m_end : nat; group_0 : string;
                         m_groups : list (string * string) }.

Definition group (name : string) (m : match_) : option string :=
  snd <$> List.find (fun '(n, _) => String.eqb n name) (m_groups m).

(** [pattern.match] anchored at a cursor *)
Definition match_at (icase : bool) (r : regex) (c : cursor) : option match_ :=
  run icase r (MState c [])
    (fun st' =>
       let n := pos (cur st') - pos c in
       Some (Match (pos c) (pos (cur st'))
                   (str (rev (firstn n (before (cur st'))))) (groups st'))).

Definition advance (c : cursor) : option cursor :=
  match after c with
  | x :: rest => Some (Cursor (x :: before c) rest)
  | [] => None
  end.

(** the leftmost match at or after a cursor *)
Fixpoint search_from (icase : bool) (r : regex) (fuel : nat) (c : cursor) : option match_ :=
  match match_at icase r c with
  | Some m => Some m
  | None =>
      match fuel, advance c with
      | S fuel', Some c' => search_from icase r fuel' c'
      | _, _ => None
      end
  end.

Definition start_of (s : string) : cursor := Cursor [] (chars s).

(** [re.search(r, s)]; [icase] is the [re.IGNORECASE] flag *)
Definition search (icase : bool) (r : regex) (s : string) : option match_ :=
  search_from icase r (len s) (start_of s).

Fixpoint cursor_at (n : nat) (c : cursor) : cursor :=
  match n with
  | 0 => c
  | S n' => match advance c with Some c' => cursor_at n' c' | None => c end
  end.

(** [re.finditer(r, s)]: successive non-overlapping matches, left to right *)
Fixpoint finditer_from (icase : bool) (r : regex) (fuel : nat) (c : cursor) : list match_ :=
  match fuel with
  | 0 => []
  | S fuel' =>
      match search_from icase r (length (after c)) c with
      | None => []
      | Some m =>
          let c_end := cursor_at (m_end m - pos c) c in
          if m_start m <? m_end m
          then m :: finditer_from icase r fuel' c_end
          else match advance c_end with
               | Some c' => m :: finditer_from icase r fuel' c'
               | None => [m]
               end
      end
  end.

Definition finditer (icase : bool) (r : regex) (s : string) : list match_ :=
  finditer_from icase r (S (len s)) (start_of s).

(** [len(re.findall(r, s))] *)
Definition count (icase : bool) (r : regex) (s : string) : nat :=
  length (finditer icase r s).

Fixpoint split_at (s : string) (from : nat) (ms : list match_) : list string :=
  match ms with
  | [] => [slice from (len s) s]
  | m :: ms' => slice from (m_start m) s :: split_at s (m_end m) ms'
  end.

(** [re.split(r, s)] for a pattern without groups *)
Definition split (r : regex) (s : string) : list string :=
  split_at s 0 (finditer false r s).

(** [r'\b' + re.escape(word) + r'\b'] *)
Definition word_pattern (word : string) : regex := seq [Bound; lit word; Bound].

End Re.

(** ** Python [float] (IEEE 754 binary64) *)
Module PyFloat.

Definition prec : Z := 53.
Definition emax : Z := 1024.

(** [float(n)] for an integer: the pair (mantissa, exponent 0) denotes [n]
    exactly, and [SFdiv] and [SFmul] round the exact result once, which is
    what Python's int/int true division and float*int do. *)
Definition of_int (n : Z) : spec_float :=
  match n with
  | Z0 => S754_zero false
  | Zpos p => S754_finite false p 0
  | Zneg p => S754_finite true p 0
  end.

(** [a / b] on two integers, [b <> 0] *)
Definition truediv (a b : Z) : spec_float :=
  SFdiv prec emax (of_int a) (of_int b).

(** [x * n] for a float and an integer *)
Definition mul_int (x : spec_float) (n : Z) : spec_float :=
  SFmul prec emax x (of_int n).

(** [int(x)]: truncation toward zero; [None] where Python raises
    (OverflowError on an infinity, ValueError on a NaN) *)
Definition to_int (x : spec_float) : option Z :=
  match x with
  | S754_zero _ => Some 0%Z
  | S754_finite s m e =>
      let mag := match e with
                 | Zneg k => Z.shiftr (Zpos m) (Zpos k)
                 | _ => Z.shiftl (Zpos m) e
                 end in
      Some (if s then Z.opp mag else mag)
  | _ => None
  end.

(** [int((a / b) * n)] *)
Definition scaled (a b n : Z) : option Z := to_int (mul_int (truediv a b) n).

End PyFloat.

Import PyStr.

(** ** What the analyzer imports from outside the repository *)

(** the dictionary [SentimentIntensityAnalyzer.polarity_scores] returns; VADER
    rounds each proportion to three decimals, so a rational holds it exactly *)
Record sentiment := Sentiment { neg : Q; neu : Q; pos : Q; compound : Q }.

(** what the analyzer observes of a [datetime]: its place on the time line in
    microseconds (the key of [<] and of subtraction), whether it carries a UTC
    offset, [strftime('%A')] and [.hour] *)
Record datetime := DateTime {
  dt_ticks : Z;
  dt_aware : bool;
  dt_weekday : string;
  dt_hour : Z
}.

Class Runtime := {
  (** [nltk.tokenize.word_tokenize] *)
  word_tokenize : string -> list string;
  (** [stopwords.words('english')] *)
  stopwords_english : list string;
  (** [SentimentIntensityAnalyzer().polarity_scores] *)
  polarity_scores : string -> sentiment;
  (** [datetime.fromisoformat]; [None] where it raises [ValueError] *)
  fromisoformat : string -> option datetime
}.

(** ** Exceptions and results *)
Inductive exn := AttributeError | TypeError | KeyError | OverflowError.

Inductive result (A : Type) :=
| Ok (a : A)
| Raise (e : exn).
Arguments Ok {A} a.
Arguments Raise {A} e.

Definition rbind {A B} (r : result A) (f : A -> result B) : result B :=
  match r with
  | Ok a => f a
  | Raise e => Raise e
  end.

(** ** Data model *)

(** addresses of objects in the store *)
Abbreviation loc := nat (only parsing).

(** a normalized text record, the dictionary [analyze] builds per post and
    per comment *)
Record text_item := TextItem {
  text : string;
  source : string;
  url : string;
  subreddit : string;
  created_utc : string;
  score : Z
}.

#[global] Instance text_item_eq_dec : EqDecision text_item.
Proof. solve_decision. Defined.

(** a text record together with the address of the dictionary object that
    holds it; a citation is such a reference *)
Record item := Item { item_loc : loc; item_data : text_item }.

(** [item in items]: list membership compares dictionaries by value *)
Definition item_in (it : item) (l : list item) : bool :=
  existsb (fun x => bool_decide (item_data x = item_data it)) l.

(** a post or comment dictionary of the input, as [RedditScraper] builds
    them in [_process_submission] and [_process_comment]: texts, addresses
    and timestamps are strings and the score is an integer; every key is
    optional. A dictionary that holds a value of another type under one of
    these keys ([None] as the body, say) is not an [entry]. *)
Record entry := Entry {
  e_title : option string;
  e_text : option string;
  e_body : option string;
  e_url : option string;
  e_subreddit : option string;
  e_created_utc : option string;
  e_score : option Z
}.

(** the [user_info] dictionary, as [get_user_data] builds it: strings,
    integers and booleans; every key is optional *)
Record user_info := UserInfo {
  u_name : option string;
  u_created_utc : option string;
  u_comment_karma : option Z;
  u_link_karma : option Z;
  u_is_gold : option bool;
  u_is_mod : option bool
}.

(** the top-level input dictionary: each collection is a reference, if present *)
Record user_data := UserData {
  ud_user_info : option loc;
  ud_posts : option loc;
  ud_comments : option loc
}.

Record field (V : Type) := Field {
  value : option V;
  confidence : Q;
  citation : option item
}.
Arguments Field {V} value confidence citation.
Arguments value {V} f.
Arguments confidence {V} f.
Arguments citation {V} f.

Record demographics := Demographics {
  age : field nat;
  location : field string;
  occupation : field string;
  status : field string
}.

Record fact := Fact { description : string; fact_citation : item }.

Record scored := Scored { sc_score : Z; sc_citations : list item }.

(** the personality dictionary, with its four fixed keys *)
Record personality_scores := Personality {
  introvert_extrovert : scored;
  intuition_sensing : scored;
  feeling_thinking : scored;
  perceiving_judging : scored
}.

Record posting_frequency := PostingFrequency {
  activity_level : string;
  most_active_days : list (string * nat);
  most_active_hours : list (Z * nat)
}.

Record basic_info := BasicInfo {
  username : string;
  account_age : string;
  karma : Z;
  is_gold : bool;
  is_mod : bool;
  detected_demographics : demographics
}.

Record activity := Activity {
  total_posts : nat;
  total_comments : nat;
  active_subreddits : list (string * nat);
  posting_freq : posting_frequency
}.

Record persona := Persona {
  p_basic_info : basic_info;
  p_activity : activity;
  behavior_and_habits : list fact;
  frustrations : list fact;
  motivations : list (string * scored);
  goals_and_needs : list fact;
  personality : personality_scores;
  archetype : string
}.

(** ** The engine object: what [__init__] stores on [self] *)
Record PersonaAnalyzer := {
  sia : string -> sentiment;
  stop_words : gset string;
  age_pattern : Re.regex;
  location_pattern : Re.regex;
  occupation_pattern : Re.regex;
  frustration_keywords : list string;
  motivation_keywords : list string;
  goal_keywords : list string;
  habit_keywords : list string;
  personality_dimensions : list (string * ((string * list string) * (string * list string)))
}.

(** ** The object store *)
Inductive obj :=
| OUserData (d : user_data)
| OUserInfo (u : user_info)
| OList (elems : list loc)
| OEntry (e : entry)
| OTextItem (t : text_item)
| OAnalyzer (a : PersonaAnalyzer)
| OOther.                     (* a value with neither keys nor a length: None, a number *)

Abbreviation heap := (gmap nat obj) (only parsing).

(** computations that read the store, allocate in it, and may raise *)
Definition M (A : Type) : Type := heap -> result A * heap.

Definition ret {A} (a : A) : M A := fun h => (Ok a, h).
Definition raise {A} (e : exn) : M A := fun h => (Raise e, h).
Definition bind {A B} (m : M A) (f : A -> M B) : M B :=
  fun h => match m h with
           | (Ok a, h') => f a h'
           | (Raise e, h') => (Raise e, h')
           end.
Definition lift {A} (r : result A) : M A := fun h => (r, h).

Notation "'let!' x ':=' m 'in' k" := (bind m (fun x => k))
  (at level 10, x name, m at level 100, k at level 200).

Definition load (l : loc) : M obj :=
  fun h => match h !! l with
           | Some o => (Ok o, h)
           | None => (Raise AttributeError, h)
           end.

(** a dictionary literal: a new object at an unused address *)
Definition alloc (o : obj) : M loc :=
  fun h => let l := fresh (dom h) in (Ok l, <[l := o]> h).

Fixpoint mapM {A B} (f : A -> M B) (l : list A) : M (list B) :=
  match l with
  | [] => ret []
  | a :: l' => let! b := f a in let! bs := mapM f l' in ret (b :: bs)
  end.

(** ** Python containers the analyzer relies on *)

(** truthiness of the optional values the analyzer tests *)
Definition truthy_str (s : option string) : bool :=
  match s with Some s' => negb (String.eqb s' "") | None => false end.
Definition truthy_nat (n : option nat) : bool :=
  match n with Some n' => negb (n' =? 0) | None => false end.

(** [collections.Counter]: keys in first-insertion order *)
Section Counter.
Context {K : Type} `{EqDecision K}.

(** [c[k] += 1] *)
Fixpoint incr (k : K) (c : list (K * nat)) : list (K * nat) :=
  match c with
  | [] => [(k, 1)]
  | (k', n) :: c' => if bool_decide (k' = k) then (k', S n) :: c' else (k', n) :: incr k c'
  end.

(** insertion into a list sorted by decreasing count, after its equals *)
Fixpoint insert_desc (x : K * nat) (l : list (K * nat)) : list (K * nat) :=
  match l with
  | [] => [x]
  | y :: l' => if snd y <? snd x then x :: l else y :: insert_desc x l'
  end.

(** [sorted(c.items(), key=count, reverse=True)], which is stable *)
Definition sort_desc (c : list (K * nat)) : list (K * nat) :=
  fold_left (fun acc x => insert_desc x acc) c [].

(** [c.most_common(n)] *)
Definition most_common (n : nat) (c : list (K * nat)) : list (K * nat) :=
  take n (sort_desc c).
End Counter.

(** ** [PersonaAnalyzer.__init__] *)

Definition range (a b : ascii) : list (ascii * ascii) := [(a, b)].
Definition upper_class : Re.regex := Re.Set_ false (range "A" "Z")%char.
Definition lower_class : Re.regex := Re.Set_ false (range "a" "z")%char.

Definition new_analyzer `{Runtime} : PersonaAnalyzer := {|
  sia := polarity_scores;
  stop_words := list_to_set stopwords_english;
  (* \b(?:I am|I\'m)\s+(?P<age>\d{1,2})\s*(?:years?\s+old|yo|y\.o\.)\b *)
  age_pattern :=
    Re.seq [Re.Bound; Re.alt [Re.lit "I am"; Re.lit "I'm"]; Re.plus Re.Space;
            Re.Group "age" (Re.Rep Re.Digit 1 (Some 2)); Re.star Re.Space;
            Re.alt [Re.seq [Re.lit "year"; Re.opt (Re.Chr "s"); Re.plus Re.Space; Re.lit "old"];
                    Re.lit "yo"; Re.lit "y.o."];
            Re.Bound];
  (* \b(?:I (?:am from|live in|reside in|currently in))\s+(?P<location>[A-Z][a-z]+(?: [A-Z][a-z]+)* )\b *)
  location_pattern :=
    Re.seq [Re.Bound; Re.lit "I ";
            Re.alt [Re.lit "am from"; Re.lit "live in"; Re.lit "reside in"; Re.lit "currently in"];
            Re.plus Re.Space;
            Re.Group "location"
              (Re.seq [upper_class; Re.plus lower_class;
                       Re.star (Re.seq [Re.Chr " "; upper_class; Re.plus lower_class])]);
            Re.Bound];
  (* \b(?:I (?:am|work as|am employed as))\s+(?:an?|the)\s+(?P<occupation>[a-z]+(?:\s+[a-z]+){0,2})\b *)
  occupation_pattern :=
    Re.seq [Re.Bound; Re.lit "I ";
            Re.alt [Re.lit "am"; Re.lit "work as"; Re.lit "am employed as"];
            Re.plus Re.Space;
            Re.alt [Re.seq [Re.Chr "a"; Re.opt (Re.Chr "n")]; Re.lit "the"];
            Re.plus Re.Space;
            Re.Group "occupation"
              (Re.seq [Re.plus lower_class;
                       Re.Rep (Re.seq [Re.plus Re.Space; Re.plus lower_class]) 0 (Some 2)]);
            Re.Bound];
  frustration_keywords :=
    ["annoying"; "frustrating"; "hate"; "tired of"; "sick of"; "annoyed";
     "difficult"; "problem"; "issue"; "struggle"; "challenging"; "impossible";
     "irritating"; "bothers"; "fed up"; "upset"; "angry"; "disappointed"];
  motivation_keywords :=
    ["love"; "enjoy"; "passionate"; "excited"; "interested"; "hobby";
     "favorite"; "like"; "appreciate"; "value"; "important"; "care about";
     "goal"; "dream"; "aspire"; "hope"; "wish"; "want"; "desire"];
  goal_keywords :=
    ["goal"; "plan"; "aim"; "objective"; "target"; "aspiration"; "ambition";
     "dream"; "hope"; "want to"; "would like to"; "trying to"; "working on";
     "looking to"; "intend to"; "need to"; "must"; "should"];
  habit_keywords :=
    ["always"; "usually"; "often"; "regularly"; "routine"; "habit"; "daily";
     "weekly"; "monthly"; "every day"; "every week"; "every month"; "constantly";
     "frequently"; "rarely"; "never"; "sometimes"; "occasionally"];
  personality_dimensions :=
    [("introvert_extrovert",
       (("introvert", ["quiet"; "shy"; "reserved"; "private"; "alone"; "introvert"; "solitude"; "independent"]),
        ("extrovert", ["outgoing"; "social"; "talkative"; "energetic"; "extrovert"; "people person"; "party"; "group"])));
     ("intuition_sensing",
       (("intuition", ["abstract"; "theoretical"; "imagine"; "possibility"; "future"; "innovative"; "creative"]),
        ("sensing", ["practical"; "detail"; "fact"; "reality"; "present"; "concrete"; "specific"; "literal"])));
     ("feeling_thinking",
       (("feeling", ["emotion"; "feel"; "empathy"; "compassion"; "harmony"; "value"; "personal"]),
        ("thinking", ["logic"; "rational"; "objective"; "analyze"; "principle"; "fair"; "reasonable"])));
     ("perceiving_judging",
       (("perceiving", ["flexible"; "adaptable"; "spontaneous"; "open-ended"; "casual"; "improvise"]),
        ("judging", ["organized"; "plan"; "structure"; "decisive"; "systematic"; "orderly"; "schedule"])))]
|}.

(** ** [_calculate_account_age] *)

Definition plural (n : Z) : string := if (n =? 1)%Z then "" else "s".

(** [now] is the reading of [datetime.now()], which carries no UTC offset;
    subtracting a datetime that carries one raises [TypeError], which the
    method's [except Exception] turns into ["Unknown"] *)
Definition _calculate_account_age `{Runtime} (now : datetime) (created : option string) : string :=
  if negb (truthy_str created) then "Unknown" else
  match fromisoformat (default "" created) with
  | None => "Unknown"
  | Some created_date =>
      if negb (Bool.eqb (dt_aware now) (dt_aware created_date)) then "Unknown" else
      let days := ((dt_ticks now - dt_ticks created_date) / 86400000000)%Z in
      let years := (days / 365)%Z in
      let months := ((days mod 365) / 30)%Z in
      if (0 <? years)%Z
      then of_Z years +:+ " year" +:+ plural years +:+ " " +:+ of_Z months +:+ " month" +:+ plural months
      else of_Z months +:+ " month" +:+ plural months
  end.

(** ** [_get_active_subreddits] *)

Definition count_subreddits (entries : list entry) (c : list (string * nat)) : list (string * nat) :=
  fold_left (fun c e => if truthy_str (e_subreddit e) then incr (default "" (e_subreddit e)) c else c)
            entries c.

Definition _get_active_subreddits (posts comments : list entry) : list (string * nat) :=
  most_common 10 (count_subreddits comments (count_subreddits posts [])).

(** ** [_analyze_posting_frequency] *)

(** the timestamps that [fromisoformat] parses; empty and missing ones are
    skipped by the truthiness test, unparsable ones by [except ValueError] *)
Definition parsed_timestamps `{Runtime} (entries : list entry) : list datetime :=
  flat_map (fun e => if truthy_str (e_created_utc e)
                     then match fromisoformat (default "" (e_created_utc e)) with
                          | Some ts => [ts]
                          | None => []
                          end
                     else []) entries.

Fixpoint insert_asc (x : datetime) (l : list datetime) : list datetime :=
  match l with
  | [] => [x]
  | y :: l' => if (dt_ticks x <? dt_ticks y)%Z then x :: l else y :: insert_asc x l'
  end.

(** [timestamps.sort()]: a stable sort; comparing a datetime that carries a
    UTC offset with one that does not raises [TypeError] *)
Definition sort_timestamps (l : list datetime) : result (list datetime) :=
  match l with
  | [] => Ok []
  | t0 :: _ =>
      if forallb (fun t => Bool.eqb (dt_aware t) (dt_aware t0)) l
      then Ok (fold_left (fun acc x => insert_asc x acc) l [])
      else Raise TypeError
  end.

Definition tier (n : nat) : string :=
  if n <? 10 then "Low" else if n <? 50 then "Moderate" else "High".

Definition _analyze_posting_frequency `{Runtime} (posts comments : list entry)
  : result posting_frequency :=
  let timestamps := (parsed_timestamps posts ++ parsed_timestamps comments)%list in
  match timestamps with
  | [] => Ok (PostingFrequency "Unknown" [] [])
  | _ =>
      rbind (sort_timestamps timestamps) (fun sorted =>
        let day_counter := fold_left (fun c ts => incr (dt_weekday ts) c) sorted [] in
        let hour_counter := fold_left (fun c ts => incr (dt_hour ts) c) sorted [] in
        Ok (PostingFrequency (tier (length timestamps))
                             (most_common 3 day_counter)
                             (most_common 3 hour_counter)))
  end.

(** ** [_extract_demographics] *)

(** [a < b] on the float literals and scores the analyzer compares; each is a
    short decimal, so the comparison of the rationals is that of the doubles *)
Definition Qltb (a b : Q) : bool := negb (Qle_bool b a).

Definition status_indicators : list (string * list string) :=
  [("single", ["single"; "bachelor"; "bachelorette"; "unmarried"; "not married"]);
   ("married", ["married"; "wife"; "husband"; "spouse"]);
   ("in a relationship", ["girlfriend"; "boyfriend"; "partner"; "in a relationship"]);
   ("divorced", ["divorced"; "ex-wife"; "ex-husband"; "ex spouse"]);
   ("widowed", ["widowed"; "widow"; "widower"])].

(** [r'\b(?:I am|I\'m|my)\s+' + re.escape(indicator) + r'\b'] *)
Definition status_pattern (indicator : string) : Re.regex :=
  Re.seq [Re.Bound; Re.alt [Re.lit "I am"; Re.lit "I'm"; Re.lit "my"];
          Re.plus Re.Space; Re.lit indicator; Re.Bound].

Definition occupation_stoplist : list string :=
  ["a"; "the"; "just"; "really"; "very"; "quite"; "actually"].

Definition initial_demographics : demographics :=
  Demographics (Field None 0 None) (Field None 0 None) (Field None 0 None) (Field None 0 None).

Definition age_step (self : PersonaAnalyzer) (it : item) (d : field nat) : field nat :=
  match Re.search true (age_pattern self) (text (item_data it)) with
  | Some age_match =>
      if negb (truthy_nat (value d)) then
        let age := digits_value (default "" (Re.group "age" age_match)) in
        if (13 <=? age) && (age <=? 90)
        then Field (Some age) 0.9 (Some it)
        else d
      else d
  | None => d
  end.

Definition location_step (self : PersonaAnalyzer) (it : item) (d : field string) : field string :=
  match Re.search false (location_pattern self) (text (item_data it)) with
  | Some location_match =>
      if negb (truthy_str (value d)) || Qltb (confidence d) 0.8
      then Field (Some (default "" (Re.group "location" location_match))) 0.8 (Some it)
      else d
  | None => d
  end.

Definition occupation_step (self : PersonaAnalyzer) (it : item) (d : field string) : field string :=
  match Re.search true (occupation_pattern self) (text (item_data it)) with
  | Some occupation_match =>
      if negb (truthy_str (value d)) || Qltb (confidence d) 0.7 then
        let occupation := default "" (Re.group "occupation" occupation_match) in
        if negb (mem (lower occupation) occupation_stoplist)
        then Field (Some occupation) 0.7 (Some it)
        else d
      else d
  | None => d
  end.

Definition indicator_step (it : item) (status_name : string) (d : field string)
    (indicator : string) : field string :=
  match Re.search true (status_pattern indicator) (text (item_data it)) with
  | Some _ =>
      if negb (truthy_str (value d)) || Qltb (confidence d) 0.75
      then Field (Some status_name) 0.75 (Some it)
      else d
  | None => d
  end.

Definition status_step (it : item) (d : field string) : field string :=
  fold_left (fun d '(status_name, indicators) =>
               fold_left (indicator_step it status_name) indicators d)
            status_indicators d.

(** the body of the loop over [text_items] *)
Definition demographics_step (self : PersonaAnalyzer) (d : demographics) (it : item) : demographics :=
  Demographics (age_step self it (age d))
               (location_step self it (location d))
               (occupation_step self it (occupation d))
               (status_step it (status d)).

Definition _extract_demographics (self : PersonaAnalyzer) (text_items : list item) : demographics :=
  fold_left (demographics_step self) text_items initial_demographics.

(** ** [_text_similarity] *)

(** [set(word_tokenize(t.lower())).difference(self.stop_words)] *)
Definition word_set `{Runtime} (self : PersonaAnalyzer) (t : string) : gset string :=
  list_to_set (word_tokenize (lower t)) ∖ stop_words self.

(** the quotient of two set sizes; the callers compare it with the literal
    [0.7], and for sizes below 2^26 the comparison of the doubles is that of
    the rationals *)
Definition _text_similarity `{Runtime} (self : PersonaAnalyzer) (text1 text2 : string) : Q :=
  let words1 := word_set self text1 in
  let words2 := word_set self text2 in
  if bool_decide (words1 = ∅) || bool_decide (words2 = ∅) then 0
  else
    let intersection := size (words1 ∩ words2) in
    let union := size (words1 ∪ words2) in
    if 0 <? union then Z.of_nat intersection # Pos.of_nat union else 0.

(** ** The three miners: behaviors, frustrations, goals *)

(** which branch of a miner's loop body proposed a candidate *)
Inductive strategy := KeywordSentence | Template.

Definition delimiters : list (ascii * ascii) :=
  [("."%char, "."%char); (","%char, ","%char); ("!"%char, "!"%char);
   ("?"%char, "?"%char); (";"%char, ";"%char)].

(** [r'[.!?]\s+'] *)
Definition sentence_end : Re.regex :=
  Re.seq [Re.Set_ false [("."%char, "."%char); ("!"%char, "!"%char); ("?"%char, "?"%char)];
          Re.plus Re.Space].

(** [r'\b' + phrase + r'\s+([^.,!?;]+)'] *)
Definition template (phrase : string) : Re.regex :=
  Re.seq [Re.Bound; Re.lit phrase; Re.plus Re.Space;
          Re.Group "1" (Re.plus (Re.Set_ true delimiters))].

(** the sentences a keyword loop proposes: for each keyword found in the
    text, the sentences that contain it and are longer than [min_len] *)
Definition keyword_sentences (keywords : list string) (min_len : nat) (txt : string) : list string :=
  flat_map (fun keyword =>
              if contains keyword txt
              then List.filter (fun sentence => contains keyword sentence && (min_len <? len sentence))
                               (Re.split sentence_end txt)
              else [])
           keywords.

(** [match.group(0)] of every match of every template, in order *)
Definition template_matches (phrases : list string) (txt : string) : list string :=
  flat_map (fun phrase => map Re.group_0 (Re.finditer true (template phrase) txt)) phrases.

(** the accepted texts (the [set] of the loop) and the facts appended so far,
    each labelled with the branch that appended it *)
Record miner_state := MinerState { seen : gset string; traced : list (strategy * fact) }.

Definition similarity_threshold : Q := 0.7.

(** [any(self._text_similarity(candidate, b) > 0.7 for b in seen)] *)
Definition is_near_duplicate `{Runtime} (self : PersonaAnalyzer) (candidate : string)
    (texts : gset string) : bool :=
  existsb (fun b => Qltb similarity_threshold (_text_similarity self candidate b)) (elements texts).

Definition accept `{Runtime} (self : PersonaAnalyzer) (it : item) (st : miner_state)
    (c : strategy * string) : miner_state :=
  if is_near_duplicate self (snd c) (seen st) then st
  else MinerState ({[snd c]} ∪ seen st)
                  (traced st ++ [(fst c, Fact (capitalize (strip (snd c))) it)]).

Definition mine `{Runtime} (self : PersonaAnalyzer)
    (candidates : item -> list (strategy * string)) (text_items : list item) : miner_state :=
  fold_left (fun st it => fold_left (accept self it) (candidates it) st)
            text_items (MinerState ∅ []).

Definition longer_than (n : nat) (l : list string) : list string :=
  List.filter (fun s => n <? len s) l.

Definition habit_phrases : list string :=
  ["I always"; "I usually"; "I often"; "I never"; "I regularly"; "I tend to"; "I like to"].

Definition behavior_candidates (self : PersonaAnalyzer) (it : item) : list (strategy * string) :=
  let txt := lower (text (item_data it)) in
  (map (pair KeywordSentence) (keyword_sentences (habit_keywords self) 20 txt)
   ++ map (pair Template)
          (longer_than 10 (map (fun m => "I " +:+ m) (template_matches habit_phrases txt))))%list.

Definition behaviors_traced `{Runtime} (self : PersonaAnalyzer) (text_items : list item) :=
  take 10 (traced (mine self (behavior_candidates self) text_items)).

Definition _extract_behaviors_and_habits `{Runtime} (self : PersonaAnalyzer)
    (text_items : list item) : list fact :=
  map snd (behaviors_traced self text_items).

Definition frustration_phrases : list string :=
  ["I hate"; "I can't stand"; "I'm tired of"; "I'm sick of"; "It's frustrating"; "It annoys me"].

Definition negativity_threshold : Q := 0.2.

(** the negative-affect score of an item's lower-cased text *)
Definition negativity (self : PersonaAnalyzer) (it : item) : Q :=
  neg (sia self (lower (text (item_data it)))).

Definition frustration_candidates (self : PersonaAnalyzer) (it : item) : list (strategy * string) :=
  let txt := lower (text (item_data it)) in
  ((if Qltb negativity_threshold (negativity self it)
    then map (pair KeywordSentence) (keyword_sentences (frustration_keywords self) 15 txt)
    else [])
   ++ map (pair Template) (longer_than 10 (template_matches frustration_phrases txt)))%list.

Definition frustrations_traced `{Runtime} (self : PersonaAnalyzer) (text_items : list item) :=
  take 10 (traced (mine self (frustration_candidates self) text_items)).

Definition _extract_frustrations `{Runtime} (self : PersonaAnalyzer)
    (text_items : list item) : list fact :=
  map snd (frustrations_traced self text_items).

Definition goal_phrases : list string :=
  ["I want to"; "I need to"; "My goal is"; "I'm trying to"; "I hope to"; "I wish I could"].

Definition goal_candidates (self : PersonaAnalyzer) (it : item) : list (strategy * string) :=
  let txt := lower (text (item_data it)) in
  (map (pair KeywordSentence) (keyword_sentences (goal_keywords self) 15 txt)
   ++ map (pair Template) (longer_than 10 (template_matches goal_phrases txt)))%list.

Definition goals_traced `{Runtime} (self : PersonaAnalyzer) (text_items : list item) :=
  take 10 (traced (mine self (goal_candidates self) text_items)).

Definition _extract_goals_and_needs `{Runtime} (self : PersonaAnalyzer)
    (text_items : list item) : list fact :=
  map snd (goals_traced self text_items).

(** ** [_extract_motivations] *)

Definition category_keywords : list (string * list string) :=
  [("convenience", ["convenient"; "easy"; "simple"; "quick"; "efficient"; "hassle-free"; "straightforward"]);
   ("wellness", ["healthy"; "nutrition"; "fitness"; "wellbeing"; "exercise"; "diet"; "organic"; "natural"]);
   ("speed", ["fast"; "quick"; "rapid"; "instant"; "immediate"; "promptly"; "speedily"; "swift"]);
   ("preferences", ["prefer"; "like"; "enjoy"; "favorite"; "choice"; "rather"; "option"; "selection"]);
   ("comfort", ["comfortable"; "cozy"; "relaxing"; "pleasant"; "soothing"; "satisfying"; "content"]);
   ("dietary_needs", ["vegetarian"; "vegan"; "gluten-free"; "dairy-free"; "allergy"; "intolerance"; "diet"])].

(** a category's raw evidence counter and the items cited for it *)
Record evidence := Evidence { raw : nat; cited : list item }.

Definition positivity_threshold : Q := 0.1.

(** the sentences of [txt] that count for a category: one per keyword found
    in the text and sentence containing it whose positive score exceeds 0.1 *)
Definition positive_hits (self : PersonaAnalyzer) (keywords : list string) (txt : string) : list string :=
  flat_map (fun keyword =>
              if contains keyword txt
              then List.filter (fun sentence =>
                                  contains keyword sentence
                                  && Qltb positivity_threshold (pos (sia self sentence)))
                               (Re.split sentence_end txt)
              else [])
           keywords.

(** [score += 1] and the citation appended unless already present *)
Definition bump (it : item) (ev : evidence) : evidence :=
  Evidence (S (raw ev)) (if item_in it (cited ev) then cited ev else cited ev ++ [it])%list.

(** one item's contribution to one category *)
Definition category_step (self : PersonaAnalyzer) (it : item) (keywords : list string)
    (ev : evidence) : evidence :=
  fold_left (fun ev _ => bump it ev)
            (positive_hits self keywords (lower (text (item_data it)))) ev.

(** [motivation_categories]: the six categories, each with score 0 and no
    citation *)
Definition initial_motivations : list (string * evidence) :=
  map (fun category => (category, Evidence 0 []))
      ["convenience"; "wellness"; "speed"; "preferences"; "comfort"; "dietary_needs"].

(** [d[key] = f(d[key])] on a dictionary kept in insertion order *)
Fixpoint update {V : Type} (key : string) (f : V -> V) (d : list (string * V)) : list (string * V) :=
  match d with
  | [] => []
  | (k, v) :: d' => if String.eqb k key then (k, f v) :: d' else (k, v) :: update key f d'
  end.

(** the corpus pass: for each item, for each category, its keyword loop *)
Definition motivation_evidence (self : PersonaAnalyzer) (text_items : list item)
  : list (string * evidence) :=
  fold_left (fun st it =>
               fold_left (fun st '(category, keywords) =>
                            update category (category_step self it keywords) st)
                         category_keywords st)
            text_items initial_motivations.

(** [max(scores) if any(score > 0) else 1] *)
Definition max_score (evs : list (string * evidence)) : nat :=
  if existsb (fun '(_, ev) => 0 <? raw ev) evs
  then fold_right Nat.max 0 (map (fun '(_, ev) => raw ev) evs)
  else 1.

(** [min(10, int((raw_score / max_score) * 10)) if max_score > 0 else 0] *)
Definition normalized_score (raw_score max_score : nat) : result Z :=
  if 0 <? max_score then
    match PyFloat.scaled (Z.of_nat raw_score) (Z.of_nat max_score) 10 with
    | Some n => Ok (Z.min 10 n)
    | None => Raise OverflowError
    end
  else Ok 0%Z.

Fixpoint normalize (mx : nat) (evs : list (string * evidence)) : result (list (string * scored)) :=
  match evs with
  | [] => Ok []
  | (category, ev) :: evs' =>
      rbind (normalized_score (raw ev) mx) (fun n =>
      rbind (normalize mx evs') (fun rest =>
      Ok ((category, Scored n (take 3 (cited ev))) :: rest)))
  end.

Definition _extract_motivations (self : PersonaAnalyzer) (text_items : list item)
  : result (list (string * scored)) :=
  let evs := motivation_evidence self text_items in
  normalize (max_score evs) evs.

(** ** [_analyze_personality] *)

Definition initial_personality : personality_scores :=
  Personality (Scored 50 []) (Scored 50 []) (Scored 50 []) (Scored 50 []).

Definition get_dimension (dimension : string) (p : personality_scores) : option scored :=
  if String.eqb dimension "introvert_extrovert" then Some (introvert_extrovert p)
  else if String.eqb dimension "intuition_sensing" then Some (intuition_sensing p)
  else if String.eqb dimension "feeling_thinking" then Some (feeling_thinking p)
  else if String.eqb dimension "perceiving_judging" then Some (perceiving_judging p)
  else None.

Definition set_dimension (dimension : string) (v : scored) (p : personality_scores)
  : personality_scores :=
  if String.eqb dimension "introvert_extrovert"
  then Personality v (intuition_sensing p) (feeling_thinking p) (perceiving_judging p)
  else if String.eqb dimension "intuition_sensing"
  then Personality (introvert_extrovert p) v (feeling_thinking p) (perceiving_judging p)
  else if String.eqb dimension "feeling_thinking"
  then Personality (introvert_extrovert p) (intuition_sensing p) v (perceiving_judging p)
  else if String.eqb dimension "perceiving_judging"
  then Personality (introvert_extrovert p) (intuition_sensing p) (feeling_thinking p) v
  else p.

(** [' '.join(item['text'].lower() for item in text_items)] *)
Definition corpus_text (text_items : list item) : string :=
  join " " (map (fun it => lower (text (item_data it))) text_items).

(** [len(re.findall(r'\b' + re.escape(keyword) + r'\b', all_text, re.IGNORECASE))] *)
Definition occurrences (keyword all_text : string) : nat :=
  Re.count true (Re.word_pattern keyword) all_text.

(** the occurrences of a trait's keywords, summed *)
Definition keyword_count (keywords : list string) (all_text : string) : nat :=
  fold_left (fun n keyword => n + occurrences keyword all_text) keywords 0.

(** the citation loop for one keyword *)
Definition cite_keyword (keyword : string) (text_items citations : list item) : list item :=
  fold_left (fun cs it =>
               match Re.search true (Re.word_pattern keyword) (lower (text (item_data it))) with
               | Some _ => if item_in it cs then cs else (cs ++ [it])%list
               | None => cs
               end)
            text_items citations.

Definition cite_keywords (keywords : list string) (text_items citations : list item) : list item :=
  fold_left (fun cs keyword => cite_keyword keyword text_items cs) keywords citations.

(** [int((right_count / total) * 100)] when [total > 0]; the score keeps its
    initial value otherwise *)
Definition dimension_score (left_count right_count : nat) (current : Z) : result Z :=
  let total := left_count + right_count in
  if 0 <? total then
    match PyFloat.scaled (Z.of_nat right_count) (Z.of_nat total) 100 with
    | Some n => Ok n
    | None => Raise OverflowError
    end
  else Ok current.

(** the body of the loop over [self.personality_dimensions] *)
Definition dimension_step (text_items : list item) (all_text : string)
    (acc : result personality_scores)
    (d : string * ((string * list string) * (string * list string)))
  : result personality_scores :=
  let '(dimension, ((_, left_keywords), (_, right_keywords))) := d in
  rbind acc (fun p =>
    match get_dimension dimension p with
    | None => Raise KeyError
    | Some entry =>
        let left_count := keyword_count left_keywords all_text in
        let right_count := keyword_count right_keywords all_text in
        let citations :=
          cite_keywords right_keywords text_items
            (cite_keywords left_keywords text_items (sc_citations entry)) in
        rbind (dimension_score left_count right_count (sc_score entry)) (fun n =>
          Ok (set_dimension dimension (Scored n (take 3 citations)) p))
    end).

Definition _analyze_personality (self : PersonaAnalyzer) (text_items : list item)
  : result personality_scores :=
  fold_left (dimension_step text_items (corpus_text text_items))
            (personality_dimensions self) (Ok initial_personality).

(** ** [_determine_archetype] *)

(** the archetype table: name, trait keywords, affinity subreddits *)
Definition archetypes : list (string * (list string * list string)) :=
  [("The Creator",
     (["creative"; "artistic"; "innovative"; "expressive"; "original"],
      ["art"; "design"; "writing"; "crafts"; "DIY"; "photography"]));
   ("The Caregiver",
     (["nurturing"; "supportive"; "helpful"; "compassionate"; "generous"],
      ["parenting"; "relationships"; "caregiving"; "nursing"; "teaching"]));
   ("The Explorer",
     (["adventurous"; "curious"; "independent"; "free-spirited"; "pioneering"],
      ["travel"; "hiking"; "outdoors"; "backpacking"; "camping"; "EarthPorn"]));
   ("The Sage",
     (["knowledgeable"; "wise"; "analytical"; "thoughtful"; "intellectual"],
      ["science"; "philosophy"; "history"; "askscience"; "explainlikeimfive"]));
   ("The Rebel",
     (["unconventional"; "revolutionary"; "disruptive"; "challenging"; "radical"],
      ["unpopularopinion"; "changemyview"; "politics"; "conspiracy"]));
   ("The Hero",
     (["brave"; "determined"; "resilient"; "protective"; "strong"],
      ["fitness"; "GetMotivated"; "MilitaryStories"; "HumansBeingBros"]));
   ("The Jester",
     (["humorous"; "playful"; "entertaining"; "light-hearted"; "witty"],
      ["funny"; "jokes"; "memes"; "humor"; "standupcomedy"]));
   ("The Everyman",
     (["relatable"; "authentic"; "grounded"; "practical"; "regular"],
      ["CasualConversation"; "AskReddit"; "NoStupidQuestions"; "TooAfraidToAsk"]));
   ("The Ruler",
     (["organized"; "controlling"; "responsible"; "authoritative"; "structured"],
      ["personalfinance"; "productivity"; "leadership"; "business"]));
   ("The Magician",
     (["transformative"; "visionary"; "insightful"; "inspiring"; "charismatic"],
      ["futurology"; "technology"; "programming"; "psychology"]));
   ("The Lover",
     (["passionate"; "romantic"; "sensual"; "appreciative"; "devoted"],
      ["relationship_advice"; "dating_advice"; "sex"; "love"]));
   ("The Innocent",
     (["optimistic"; "pure"; "trusting"; "hopeful"; "moral"],
      ["wholesomememes"; "UpliftingNews"; "aww"; "MadeMeSmile"]))].

Definition archetype_names : list string := map fst archetypes.

(** [archetype_scores[name] += n] *)
Definition add_score (name : string) (n : Z) (scores : list (string * Z)) : list (string * Z) :=
  update name (fun v => (v + n)%Z) scores.

(** two points per affinity subreddit among the user's active ones *)
Definition subreddit_pass (active : list string) (scores : list (string * Z)) : list (string * Z) :=
  fold_left (fun sc '(name, (_, subreddits)) =>
               fold_left (fun sc sub => if mem (lower sub) active then add_score name 2 sc else sc)
                         subreddits sc)
            archetypes scores.

(** the descriptions of the accepted facts, lower-cased, each followed by a space *)
Definition facts_text (p : persona) : string :=
  let add := fold_left (fun acc f => acc +:+ lower (description f) +:+ " ") in
  add (goals_and_needs p) (add (frustrations p) (add (behavior_and_habits p) "")).

(** one point per occurrence of a trait keyword *)
Definition trait_pass (all_text : string) (scores : list (string * Z)) : list (string * Z) :=
  fold_left (fun sc '(name, (traits, _)) =>
               fold_left (fun sc trait => add_score name (Z.of_nat (occurrences trait all_text)) sc)
                         traits sc)
            archetypes scores.

(** [if score < 40: low elif score > 60: high] *)
Definition threshold (s : Z) (low high : list (string * Z)) (scores : list (string * Z))
  : list (string * Z) :=
  let apply := fold_left (fun sc '(name, n) => add_score name n sc) in
  if (s <? 40)%Z then apply low scores
  else if (60 <? s)%Z then apply high scores
  else scores.

Definition personality_pass (pers : personality_scores) (scores : list (string * Z))
  : list (string * Z) :=
  let s1 := threshold (sc_score (introvert_extrovert pers))
              [("The Sage", 2); ("The Creator", 1)]%Z
              [("The Jester", 2); ("The Hero", 1); ("The Lover", 1)]%Z scores in
  let s2 := threshold (sc_score (intuition_sensing pers))
              [("The Magician", 2); ("The Creator", 1)]%Z
              [("The Everyman", 2); ("The Caregiver", 1)]%Z s1 in
  let s3 := threshold (sc_score (feeling_thinking pers))
              [("The Lover", 2); ("The Caregiver", 2); ("The Innocent", 1)]%Z
              [("The Ruler", 2); ("The Sage", 2)]%Z s2 in
  threshold (sc_score (perceiving_judging pers))
    [("The Explorer", 2); ("The Rebel", 1)]%Z
    [("The Ruler", 2); ("The Hero", 1)]%Z s3.

(** the final [archetype_scores] dictionary, in table order *)
Definition archetype_scores (p : persona) : list (string * Z) :=
  let active := map (fun s => lower (fst s)) (active_subreddits (p_activity p)) in
  personality_pass (personality p)
    (trait_pass (facts_text p)
       (subreddit_pass active (map (fun name => (name, 0%Z)) archetype_names))).

(** [max(items, key=lambda x: x[1])]: the first item of maximal key *)
Fixpoint max_by_score (best : string * Z) (rest : list (string * Z)) : string * Z :=
  match rest with
  | [] => best
  | x :: rest' => max_by_score (if (snd best <? snd x)%Z then x else best) rest'
  end.

Definition _determine_archetype (p : persona) : string :=
  match archetype_scores p with
  | [] => ""      (* unreachable: the table has twelve entries *)
  | first :: rest => fst (max_by_score first rest)
  end.

(** ** [analyze] *)

Definition load_analyzer (l : loc) : M PersonaAnalyzer :=
  let! o := load l in
  match o with OAnalyzer a => ret a | _ => raise AttributeError end.

(** The input is read with [.get(key, default)], which any dictionary
    answers: a dictionary of another kind is read under the keys it shares
    with the kind that is expected, and takes the default for the others.
    What is not a dictionary has no [.get]. *)

(** the keys ['user_info'], ['posts'] and ['comments'], which only the
    top-level dictionary has *)
Definition as_user_data (o : obj) : option user_data :=
  match o with
  | OUserData d => Some d
  | OUserInfo _ | OEntry _ | OTextItem _ => Some (UserData None None None)
  | OList _ | OAnalyzer _ | OOther => None
  end.

(** the keys of the user record; ['created_utc'] is also a key of the post,
    comment and text records *)
Definition as_user_info (o : obj) : option user_info :=
  match o with
  | OUserInfo u => Some u
  | OEntry e => Some (UserInfo None (e_created_utc e) None None None None)
  | OTextItem t => Some (UserInfo None (Some (created_utc t)) None None None None)
  | OUserData _ => Some (UserInfo None None None None None None)
  | OList _ | OAnalyzer _ | OOther => None
  end.

(** the keys of a post or comment; a text record has five of them, a user
    record ['created_utc'] *)
Definition as_entry (o : obj) : option entry :=
  match o with
  | OEntry e => Some e
  | OTextItem t =>
      Some (Entry None (Some (text t)) None (Some (url t)) (Some (subreddit t))
                  (Some (created_utc t)) (Some (score t)))
  | OUserInfo u => Some (Entry None None None None None (u_created_utc u) None)
  | OUserData _ => Some (Entry None None None None None None None)
  | OList _ | OAnalyzer _ | OOther => None
  end.

(** [user_data.get(...)] needs a dictionary *)
Definition load_user_data (l : loc) : M user_data :=
  let! o := load l in
  match as_user_data o with Some d => ret d | None => raise AttributeError end.

(** [user_data.get(key, [])] followed by [len] and the iteration over the
    list *)
Definition load_list (l : option loc) : M (list loc) :=
  match l with
  | None => ret []
  | Some l' =>
      let! o := load l' in
      match o with OList elems => ret elems | _ => raise TypeError end
  end.

(** [post.get(...)], [comment.get(...)] *)
Definition load_entry (l : loc) : M entry :=
  let! o := load l in
  match as_entry o with Some e => ret e | None => raise AttributeError end.

Definition no_user_info : user_info := UserInfo None None None None None None.

(** [user_data.get('user_info', {})] followed by [user_info.get(...)] *)
Definition load_user_info (l : option loc) : M user_info :=
  match l with
  | None => ret no_user_info
  | Some l' =>
      let! o := load l' in
      match as_user_info o with Some u => ret u | None => raise AttributeError end
  end.

(** the dictionary built for a post: title and text joined by a space *)
Definition post_item (post : entry) : text_item :=
  TextItem (default "" (e_title post) +:+ " " +:+ default "" (e_text post))
           "post"
           (default "" (e_url post))
           (default "" (e_subreddit post))
           (default "" (e_created_utc post))
           (default 0%Z (e_score post)).

(** the dictionary built for a comment *)
Definition comment_item (comment : entry) : text_item :=
  TextItem (default "" (e_body comment))
           "comment"
           (default "" (e_url comment))
           (default "" (e_subreddit comment))
           (default "" (e_created_utc comment))
           (default 0%Z (e_score comment)).

(** [all_text_items.append({...})]: the record is a new object *)
Definition new_item (t : text_item) : M item :=
  let! l := alloc (OTextItem t) in ret (Item l t).

(** the two loops that build [all_text_items]: posts first, then comments *)
Definition normalize_items (posts comments : list entry) : M (list item) :=
  let! post_items := mapM (fun post => new_item (post_item post)) posts in
  let! comment_items := mapM (fun comment => new_item (comment_item comment)) comments in
  ret (post_items ++ comment_items)%list.

(** the extraction steps, from the demographics to the archetype *)
Definition infer `{Runtime} (self : PersonaAnalyzer) (basic : demographics -> basic_info)
    (act : activity) (all_text_items : list item) : result persona :=
  let demo := _extract_demographics self all_text_items in
  let behaviors := _extract_behaviors_and_habits self all_text_items in
  let frustrations := _extract_frustrations self all_text_items in
  rbind (_extract_motivations self all_text_items) (fun motivations =>
  let goals := _extract_goals_and_needs self all_text_items in
  rbind (_analyze_personality self all_text_items) (fun personality =>
  let p := Persona (basic demo) act behaviors frustrations motivations goals personality "" in
  Ok (Persona (basic demo) act behaviors frustrations motivations goals personality
              (_determine_archetype p)))).

(** what [analyze] reads: the engine, the user record, the posts and the
    comments, in the order in which the method first uses them: the user
    record for [basic_info], the two lists for their lengths, and then their
    elements *)
Definition read_input (self_loc ud_loc : loc)
  : M (PersonaAnalyzer * user_info * list entry * list entry) :=
  let! self := load_analyzer self_loc in
  let! ud := load_user_data ud_loc in
  let! info := load_user_info (ud_user_info ud) in
  let! post_locs := load_list (ud_posts ud) in
  let! comment_locs := load_list (ud_comments ud) in
  let! posts := mapM load_entry post_locs in
  let! comments := mapM load_entry comment_locs in
  ret (self, info, posts, comments).

(** the [basic_info] block, still waiting for the demographics *)
Definition basic_info_of `{Runtime} (now : datetime) (info : user_info)
    (demo : demographics) : basic_info :=
  BasicInfo (default "" (u_name info))
            (_calculate_account_age now (u_created_utc info))
            (default 0 (u_comment_karma info) + default 0 (u_link_karma info))%Z
            (default false (u_is_gold info))
            (default false (u_is_mod info))
            demo.

(** [analyze(self, user_data)]. The method has no clock parameter: each
    call reads [datetime.now()] once, in [_calculate_account_age]. [now] is
    the reading of that one call; another call has a reading of its own. *)
Definition analyze `{Runtime} (self_loc ud_loc : loc) (now : datetime) : M persona :=
  let! input := read_input self_loc ud_loc in
  let '(self, info, posts, comments) := input in
  let! frequency := lift (_analyze_posting_frequency posts comments) in
  let act :=
    Activity (length posts) (length comments)
             (_get_active_subreddits posts comments) frequency in
  let! all_text_items := normalize_items posts comments in
  lift (infer self (basic_info_of now info) act all_text_items).

(** the activity block of a user with no post and no comment *)
Definition empty_corpus_activity (frequency : posting_frequency) : activity :=
  Activity 0 0 (_get_active_subreddits [] []) frequency.

Definition raws (evs : list (string * evidence)) : list nat := map (fun '(_, ev) => raw ev) evs.

(** what normalization gives one category *)
Definition normalized (mx : nat) (e : string * evidence) (m : string * scored) : Prop :=
  fst m = fst e
  /\ sc_citations (snd m) = take 3 (cited (snd e))
  /\ exists n, PyFloat.scaled (Z.of_nat (raw (snd e))) (Z.of_nat mx) 10 = Some n
               /\ sc_score (snd m) = Z.min 10 n
               /\ (0 <= sc_score (snd m) <= 10)%Z.

(** ** A small runtime and corpus for the examples

    Stand-ins for the external libraries, used only to evaluate the analyzer
    on concrete inputs: a white-space tokenizer, a short stop list, a
    two-word sentiment lexicon, and a parser that reads a run of digits as a
    number of hours since a Monday midnight, with a UTC offset when a [Z]
    follows. *)
Module Sample.

Fixpoint split_ws (acc l : list ascii) : list string :=
match l with
| [] => match acc with [] => [] | _ => [str (rev acc)] end
| c :: l' =>
    if is_space c
    then match acc with [] => split_ws [] l' | _ => str (rev acc) :: split_ws [] l' end
    else split_ws (c :: acc) l'
end.

Definition tokenize (s : string) : list string := split_ws [] (chars s).

Definition scores (s : string) : sentiment :=
let negative := (if contains "hate" s then 0.5 else 0)%Q in
let positive := (if contains "love" s then 0.5 else 0)%Q in
Sentiment negative (1 - negative - positive)%Q positive (positive - negative)%Q.

Definition weekdays : list string :=
["Monday"; "Tuesday"; "Wednesday"; "Thursday"; "Friday"; "Saturday"; "Sunday"].

(** a run of digits is a time without UTC offset; followed by [Z], one with *)
Definition parse (s : string) : option datetime :=
let cs := chars s in
let aware := match rev cs with c :: _ => Ascii.eqb c "Z" | [] => false end in
let ds := if aware then removelast cs else cs in
if negb (length ds =? 0) && forallb is_digit ds then
  let hours := digits_value (str ds) in
  Some (DateTime (Z.of_nat hours * 3600000000) aware
                 (nth ((hours / 24) mod 7) weekdays "") (Z.of_nat (hours mod 24)))
else None.

Definition runtime : Runtime := {|
word_tokenize := tokenize;
stopwords_english := ["i"; "a"; "the"; "to"; "and"; "you"; "should"; "not"; "do"; "that"; "me"];
polarity_scores := scores;
fromisoformat := parse
|}.

Definition analyzer : PersonaAnalyzer := @new_analyzer runtime.

Definition now : datetime := DateTime 0 false "Monday" 0.

(** a comment dictionary with only a body *)
Definition comment (body : string) : entry :=
Entry None None (Some body) None None None None.

(** a comment dictionary with a body and a timestamp *)
Definition stamped (body created : string) : entry :=
Entry None None (Some body) None None (Some created) None.

(** the text record [analyze] builds for a comment, at address [l] *)
Definition comment_at (l : loc) (body : string) : item :=
Item l (comment_item (comment body)).

End Sample.

(** the personality formula in the words of the specification (section 4.6):
    [round(100 * right / (left + right))], halves rounded to the even
    neighbour as Python's [round] does, and 50 when the denominator is 0 *)
Definition rounded_score (left_count right_count : nat) : Z :=
  let total := Z.of_nat (left_count + right_count) in
  let scaled := (100 * Z.of_nat right_count)%Z in
  if (total =? 0)%Z then 50%Z
  else
    let q := (scaled / total)%Z in
    let r := (scaled mod total)%Z in
    match (2 * r ?= total)%Z with
    | Lt => q
    | Gt => (q + 1)%Z
    | Eq => if Z.even q then q else (q + 1)%Z
    end.

(** what the analyzer computes for an axis whose keyword lists are
    [left_keywords] and [right_keywords] *)
Definition truncated_score (left_keywords right_keywords : list string) (all_text : string)
    (score : Z) : Prop :=
  let left_count := keyword_count left_keywords all_text in
  let right_count := keyword_count right_keywords all_text in
  if left_count + right_count =? 0 then score = 50%Z
  else PyFloat.scaled (Z.of_nat right_count) (Z.of_nat (left_count + right_count)) 100 = Some score
       /\ (0 <= score)%Z.

(** [int(age_match.group('age'))] *)
Definition age_of_match (m : Re.match_) : nat :=
  digits_value (default "" (Re.group "age" m)).

(** [13 <= age <= 90] *)
Definition qualifies (a : nat) : bool := (13 <=? a) && (a <=? 90).

(** "first qualifying match wins" in the words of the specification: over
    all the matches of the age pattern, in corpus order and, inside an item,
    from left to right *)
Definition first_qualifying_match (self : PersonaAnalyzer) (text_items : list item)
  : option (nat * item) :=
  List.find (fun '(a, _) => qualifies a)
    (flat_map (fun it => map (fun m => (age_of_match m, it))
                             (Re.finditer true (age_pattern self) (text (item_data it))))
              text_items).

(** what the loop does: in each item only the leftmost match is looked at *)
Definition leading_age (self : PersonaAnalyzer) (it : item) : option nat :=
  age_of_match <$> Re.search true (age_pattern self) (text (item_data it)).

Definition first_qualifying_item (self : PersonaAnalyzer) (text_items : list item)
  : option (nat * item) :=
  head (flat_map (fun it => match leading_age self it with
                            | Some a => if qualifies a then [(a, it)] else []
                            | None => []
                            end)
                 text_items).

(** every text of the corpus is ASCII *)
Definition ascii_corpus (text_items : list item) : Prop :=
  Forall (fun it => is_ascii (text (item_data it)) = true) text_items.



(** the similarity as a function of the two word sets *)
Definition jaccard (w1 w2 : gset string) : Q :=
  if bool_decide (w1 = ∅) || bool_decide (w2 = ∅) then 0
  else if 0 <? size (w1 ∪ w2)
       then Z.of_nat (size (w1 ∩ w2)) # Pos.of_nat (size (w1 ∪ w2))
       else 0.



(** ** Vocabulary of the statements about [analyze] *)

(** the timestamps can be sorted: all carry a UTC offset or none does *)
Definition comparable (ts : list datetime) : Prop :=
  forall a b, In a ts -> In b ts -> dt_aware a = dt_aware b.

(** the activity tier as the analyzer computes it from the number of parsed
    timestamps *)
Definition tier_of_count (n : nat) : string :=
  if n =? 0 then "Unknown" else tier n.

(** the store holds, behind an optional reference, a list of post or comment
    dictionaries; a missing reference stands for the empty list *)
Definition holds_entries (h : heap) (l : option loc) (es : list entry) : Prop :=
  match l with
  | None => es = []
  | Some l' => exists locs, h !! l' = Some (OList locs)
                            /\ Forall2 (fun x e => h !! x = Some (OEntry e)) locs es
  end.

Definition holds_user_info (h : heap) (l : option loc) (info : user_info) : Prop :=
  match l with
  | None => info = no_user_info
  | Some l' => h !! l' = Some (OUserInfo info)
  end.

Definition is_record (o : obj) : bool :=
  match as_user_data o with Some _ => true | None => false end.

Definition field_citation {V} (f : field V) : list item :=
  match citation f with Some it => [it] | None => [] end.

(** every text record a persona cites *)
Definition citations (p : persona) : list item :=
  let d := detected_demographics (p_basic_info p) in
  let pers := personality p in
  (field_citation (age d) ++ field_citation (location d)
   ++ field_citation (occupation d) ++ field_citation (status d)
   ++ map fact_citation (behavior_and_habits p)
   ++ map fact_citation (frustrations p)
   ++ flat_map (fun m => sc_citations (snd m)) (motivations p)
   ++ map fact_citation (goals_and_needs p)
   ++ sc_citations (introvert_extrovert pers) ++ sc_citations (intuition_sensing pers)
   ++ sc_citations (feeling_thinking pers) ++ sc_citations (perceiving_judging pers))%list.

(** a text record is new in [h'] with respect to [h] *)
Definition fresh_in (h h' : heap) (it : item) : Prop :=
  h !! item_loc it = None /\ h' !! item_loc it = Some (OTextItem (item_data it)).

(** *** Outputs up to the addresses of the text records *)

Definition relabel (f : loc -> loc) (it : item) : item :=
  Item (f (item_loc it)) (item_data it).

Definition relabel_field {V} (f : loc -> loc) (d : field V) : field V :=
  Field (value d) (confidence d) (relabel f <$> citation d).

Definition relabel_demographics (f : loc -> loc) (d : demographics) : demographics :=
  Demographics (relabel_field f (age d)) (relabel_field f (location d))
               (relabel_field f (occupation d)) (relabel_field f (status d)).

Definition relabel_fact (f : loc -> loc) (x : fact) : fact :=
  Fact (description x) (relabel f (fact_citation x)).

Definition relabel_scored (f : loc -> loc) (x : scored) : scored :=
  Scored (sc_score x) (map (relabel f) (sc_citations x)).

Definition relabel_personality (f : loc -> loc) (x : personality_scores) : personality_scores :=
  Personality (relabel_scored f (introvert_extrovert x)) (relabel_scored f (intuition_sensing x))
              (relabel_scored f (feeling_thinking x)) (relabel_scored f (perceiving_judging x)).

Definition relabel_basic_info (f : loc -> loc) (b : basic_info) : basic_info :=
  BasicInfo (username b) (account_age b) (karma b) (is_gold b) (is_mod b)
            (relabel_demographics f (detected_demographics b)).

Definition relabel_persona (f : loc -> loc) (p : persona) : persona :=
  Persona (relabel_basic_info f (p_basic_info p))
          (p_activity p)
          (map (relabel_fact f) (behavior_and_habits p))
          (map (relabel_fact f) (frustrations p))
          (map (fun m => (fst m, relabel_scored f (snd m))) (motivations p))
          (map (relabel_fact f) (goals_and_needs p))
          (relabel_personality f (personality p))
          (archetype p).

(** a function applied to the value of a result *)
Definition rmap {A B} (g : A -> B) (r : result A) : result B :=
  match r with Ok a => Ok (g a) | Raise e => Raise e end.

(** the content of an output: the persona with every address forgotten, or
    the exception *)
Definition content (r : result persona) : result persona :=
  rmap (relabel_persona (fun _ => 0)) r.

(** the persona with another account age *)
Definition with_account_age (age : string) (p : persona) : persona :=
  let b := p_basic_info p in
  Persona (BasicInfo (username b) age (karma b) (is_gold b) (is_mod b) (detected_demographics b))
          (p_activity p) (behavior_and_habits p) (frustrations p) (motivations p)
          (goals_and_needs p) (personality p) (archetype p).

Definition relabel_traced (f : loc -> loc) (x : strategy * fact) : strategy * fact :=
  (fst x, relabel_fact f (snd x)).

Definition relabel_state (f : loc -> loc) (st : miner_state) : miner_state :=
  MinerState (seen st) (map (relabel_traced f) (traced st)).

Definition relabel_evidence (f : loc -> loc) (ev : evidence) : evidence :=
  Evidence (raw ev) (map (relabel f) (cited ev)).

(** a function applied to the values of a dictionary *)
Definition on_values {V V'} (g : V -> V') (kv : string * V) : string * V' :=
  (fst kv, g (snd kv)).

(** a field cites nothing outside [items] *)
Definition cites_within {V} (items : list item) (d : field V) : Prop :=
  match citation d with Some it => In it items | None => True end.

Definition personality_citations (p : personality_scores) : list item :=
  (sc_citations (introvert_extrovert p) ++ sc_citations (intuition_sensing p)
   ++ sc_citations (feeling_thinking p) ++ sc_citations (perceiving_judging p))%list.

(** a computation that leaves the store as it is *)
Definition read_only {A} (m : M A) : Prop := forall h : heap, snd (m h) = h.

(** a computation that only reads: it leaves the store as it is, and a
    larger store gives it the same answer *)
Definition reads {A} (m : M A) : Prop :=
  forall (h h1 h' : heap) a, h ⊆ h1 -> m h = (Ok a, h') -> h' = h /\ m h1 = (Ok a, h1).

(** the pairs [(r, t)], [0 <= r <= t < bound], at which [int((r / t) * n)]
    differs from the floor of the exact quotient [n * r / t] *)
Definition truncation_deviations (n : Z) (bound : nat) : list (Z * Z) :=
  flat_map (fun t =>
              flat_map (fun r =>
                          if bool_decide (PyFloat.scaled r t n = Some (n * r / t)%Z)
                          then [] else [(r, t)])
                       (map Z.of_nat (List.seq 0 (S (Z.to_nat t)))))
           (map Z.of_nat (List.seq 1 (bound - 1))).

(** * The rest of the analyzer, and its callers

    What follows extends the development to the code around the analyzer's
    entry point: the vocabulary for further properties of its methods, the
    URL functions of [main.py] and the document builders of
    [persona_generator.py]. *)

(** ** Vocabulary for the counters *)

(** the number of times [k] occurs in a list of keys *)
Definition times {K} `{EqDecision K} (k : K) (l : list K) : nat :=
  length (List.filter (fun x => bool_decide (x = k)) l).

(** a list of pairs is ranked when the counts never increase along it *)
Definition ranked {K} (l : list (K * nat)) : Prop :=
  ForallOrdPairs (fun a b => snd b <= snd a) l.

(** what a counter filled from the keys [l] holds: one entry per distinct
    key, with the number of its occurrences *)
Definition counts_of {K} `{EqDecision K} (l : list K) (c : list (K * nat)) : Prop :=
  NoDup (map fst c)
  /\ forall k n, In (k, n) c <-> (n = times k l /\ 0 < n).

(** the number of posts and comments whose [subreddit] is [name] *)
Definition mentions (name : string) (entries : list entry) : nat :=
  length (List.filter (fun e => bool_decide (e_subreddit e = Some name)) entries).

(** the subreddit names that [_get_active_subreddits] counts, in order *)
Definition counted_subreddits (entries : list entry) : list string :=
  flat_map (fun e => if truthy_str (e_subreddit e) then [default "" (e_subreddit e)] else [])
           entries.

(** the timestamps [_analyze_posting_frequency] collects: those of the posts,
    then those of the comments *)
Definition collected_timestamps `{Runtime} (posts comments : list entry) : list datetime :=
  (parsed_timestamps posts ++ parsed_timestamps comments)%list.

(** ** Vocabulary for the account age *)

(** [delta.days] for a clock reading and a creation date *)
Definition elapsed_days (now created_date : datetime) : Z :=
  ((dt_ticks now - dt_ticks created_date) / 86400000000)%Z.

(** ["3 months"], ["1 month"] *)
Definition months_text (months : Z) : string := of_Z months +:+ " month" +:+ plural months.

(** ["2 years"], ["1 year"] *)
Definition years_text (years : Z) : string := of_Z years +:+ " year" +:+ plural years.

(** the creation timestamp cannot be read against the clock: it is missing,
    empty, not in ISO format, or differs from the clock in carrying a UTC
    offset *)
Definition unreadable `{Runtime} (now : datetime) (created : option string) : Prop :=
  match created with
  | None => True
  | Some s => s = "" \/ match fromisoformat s with
                        | None => True
                        | Some created_date => dt_aware now <> dt_aware created_date
                        end
  end.

(** the facts a miner would append if it kept every candidate *)
Definition proposed_facts (candidates : item -> list (strategy * string)) (text_items : list item)
  : list (strategy * fact) :=
  flat_map (fun it => map (fun c => (fst c, Fact (capitalize (strip (snd c))) it)) (candidates it))
           text_items.

(** ** What the matcher's answers mean

    [spans icase r st st']: the pattern [r] can take the matcher from state
    [st] to state [st'], consuming input and recording groups. Whatever
    [Re.run] hands to its continuation is such a state. *)
Inductive spans (icase : bool) : Re.regex -> Re.mstate -> Re.mstate -> Prop :=
| spans_eps st : spans icase Re.Eps st st
| spans_chr c st st' :
    Re.step1 (Re.chr_matches icase c) st = Some st' -> spans icase (Re.Chr c) st st'
| spans_set negated ranges st st' :
    Re.step1 (Re.set_matches icase negated ranges) st = Some st' ->
    spans icase (Re.Set_ negated ranges) st st'
| spans_space st st' : Re.step1 is_space st = Some st' -> spans icase Re.Space st st'
| spans_digit st st' : Re.step1 is_digit st = Some st' -> spans icase Re.Digit st st'
| spans_bound st : Re.at_boundary (Re.cur st) = true -> spans icase Re.Bound st st
| spans_seq r1 r2 st st1 st2 :
    spans icase r1 st st1 -> spans icase r2 st1 st2 -> spans icase (Re.Seq r1 r2) st st2
| spans_alt_l r1 r2 st st' : spans icase r1 st st' -> spans icase (Re.Alt r1 r2) st st'
| spans_alt_r r1 r2 st st' : spans icase r2 st st' -> spans icase (Re.Alt r1 r2) st st'
| spans_rep_stop r hi st : spans icase (Re.Rep r 0 hi) st st
| spans_rep_more r lo hi st st1 st2 :
    hi <> Some 0 ->
    spans icase r st st1 ->
    Re.pos (Re.cur st) < Re.pos (Re.cur st1) ->
    spans icase (Re.Rep r (pred lo) (pred <$> hi)) st1 st2 ->
    spans icase (Re.Rep r lo hi) st st2
| spans_group name r st st' :
    spans icase r st st' ->
    spans icase (Re.Group name r) st
      (Re.MState (Re.cur st')
         ((name, str (rev (firstn (Re.pos (Re.cur st') - Re.pos (Re.cur st))
                                  (Re.before (Re.cur st')))))
          :: Re.groups st')).

(** the input a state has consumed since an earlier state *)
Definition consumed (st st' : Re.mstate) (w : list ascii) : Prop :=
  Re.after (Re.cur st) = (w ++ Re.after (Re.cur st'))%list
  /\ Re.before (Re.cur st') = (rev w ++ Re.before (Re.cur st))%list.

(** a pattern without groups *)
Fixpoint group_free (r : Re.regex) : bool :=
  match r with
  | Re.Seq r1 r2 | Re.Alt r1 r2 => group_free r1 && group_free r2
  | Re.Rep r' _ _ => group_free r'
  | Re.Group _ _ => false
  | _ => true
  end.

(** a cursor at or after another one in the same subject *)
Definition later_cursor (c c' : Re.cursor) : Prop :=
  exists w, Re.after c = (w ++ Re.after c')%list /\ Re.before c' = (rev w ++ Re.before c)%list.

(** ** Vocabulary for the demographic fields *)

(** [location_match.group('location')] of the leftmost match in an item *)
Definition leading_location (self : PersonaAnalyzer) (it : item) : option string :=
  (fun m => default "" (Re.group "location" m))
    <$> Re.search false (location_pattern self) (text (item_data it)).

(** the first item, in corpus order, that states a location *)
Definition first_located_item (self : PersonaAnalyzer) (text_items : list item)
  : option (string * item) :=
  head (flat_map (fun it => match leading_location self it with
                            | Some v => [(v, it)]
                            | None => []
                            end)
                 text_items).

(** [occupation_match.group('occupation')] of the leftmost match in an item *)
Definition leading_occupation (self : PersonaAnalyzer) (it : item) : option string :=
  (fun m => default "" (Re.group "occupation" m))
    <$> Re.search true (occupation_pattern self) (text (item_data it)).

(** [occupation.lower() not in ['a', 'the', ...]] *)
Definition plausible_occupation (occupation : string) : bool :=
  negb (mem (lower occupation) occupation_stoplist).

(** the first item, in corpus order, whose leftmost occupation is plausible *)
Definition first_employed_item (self : PersonaAnalyzer) (text_items : list item)
  : option (string * item) :=
  head (flat_map (fun it => match leading_occupation self it with
                            | Some v => if plausible_occupation v then [(v, it)] else []
                            | None => []
                            end)
                 text_items).

(** the hits of the status loops on one item: one per matching indicator,
    in the order of the status table *)
Definition status_hits (it : item) : list (string * item) :=
  flat_map (fun '(status_name, indicators) =>
              flat_map (fun indicator =>
                          match Re.search true (status_pattern indicator) (text (item_data it)) with
                          | Some _ => [(status_name, it)]
                          | None => []
                          end)
                       indicators)
           status_indicators.

(** the first status hit of the corpus *)
Definition first_status_hit (text_items : list item) : option (string * item) :=
  head (flat_map status_hits text_items).

(** the state of the status field in the course of the loops: unset as long
    as nothing has matched, then fixed to the first hit *)
Definition status_after (hits : list (string * item)) : field string :=
  match head hits with
  | Some (status_name, it) => Field (Some status_name) 0.75 (Some it)
  | None => Field None 0 None
  end.

(** the names of the status table *)
Definition status_names : list string := map fst status_indicators.

(** every hit carries a name of the status table *)
Definition named_hits (hits : list (string * item)) : Prop :=
  Forall (fun h => In (fst h) status_names) hits.

(** ** Vocabulary for the mined facts *)

(** a description as the miners store it: nothing is left to strip, and, if
    it is ASCII, capitalizing it again changes nothing (a title-case letter
    outside ASCII need not be its own capital) *)
Definition normal_form (d : string) : Prop :=
  strip d = d /\ (is_ascii d = true -> capitalize d = d).

(** what every fact of a mined collection satisfies: it cites a text record
    of the corpus, and its description is the normal form of a candidate that
    the cited record proposed under the same label *)
Definition mined_from (candidates : item -> list (strategy * string)) (text_items : list item)
    (sf : strategy * fact) : Prop :=
  In (fact_citation (snd sf)) text_items
  /\ normal_form (description (snd sf))
  /\ exists c, In (fst sf, c) (candidates (fact_citation (snd sf)))
               /\ description (snd sf) = capitalize (strip c).

(** ** Vocabulary for the rounding of binary64 operations *)

(** the state of a mantissa [m] with location [l] after [k] right shifts:
    the shifted mantissa, and no rounding bit set as long as nothing was
    shifted out *)
Definition shifted (m : Z) (l : SpecFloat.location) (k : Z) (mrs : shr_record) : Prop :=
  (0 <= shr_m mrs
   /\ shr_m mrs = m / 2 ^ k
   /\ (l = loc_Exact -> m mod 2 ^ k = 0 -> shr_r mrs = false /\ shr_s mrs = false))%Z.

(** ** Vocabulary for the citation lists *)

(** no two records of the list are equal dictionaries *)
Definition distinct_records (l : list item) : Prop := NoDup (map item_data l).

(** a text record counts for a motivation category: one of its sentences
    holds a keyword of the category and has a positive score above 0.1 *)
Definition motivates (self : PersonaAnalyzer) (keywords : list string) (it : item) : Prop :=
  positive_hits self keywords (lower (text (item_data it))) <> [].

(** a text record holds one of the keywords as a word *)
Definition mentions_keyword (keywords : list string) (it : item) : Prop :=
  exists keyword,
    In keyword keywords
    /\ Re.search true (Re.word_pattern keyword) (lower (text (item_data it))) <> None.

(** the evidence gathered for a category in the course of the corpus pass *)
Definition sound_evidence (self : PersonaAnalyzer) (items : list item) (keywords : list string)
    (ev : evidence) : Prop :=
  Forall (fun c => In c items /\ motivates self keywords c) (cited ev)
  /\ distinct_records (cited ev)
  /\ (raw ev = 0 -> cited ev = [])
  /\ (cited ev = [] -> raw ev = 0).

(** the citations gathered for a personality axis *)
Definition sound_citations (items : list item) (keywords : list string) (cs : list item) : Prop :=
  Forall (fun c => In c items /\ mentions_keyword keywords c) cs /\ distinct_records cs.

(** ** [main.py]: the profile URL

    [validate_reddit_url] and [extract_username_from_url] apply [re.match]
    with the pattern
    [^https?://(?:www\.)?reddit\.com/(?:user|u)/([\w-]+)/?.*$].
    [re.match] anchors the pattern at the start of the URL, which is all that
    [^] asks for; [$] is the test that ends the match: the end of the URL, or
    the line feed that ends it. *)

Definition line_feed : ascii := ascii_of_nat 10.

(** [[\w-]] *)
Definition username_class : Re.regex :=
  Re.Set_ false [("a", "z"); ("A", "Z"); ("0", "9"); ("_", "_"); ("-", "-")]%char.

(** [.]: any character but the line feed *)
Definition any_char : Re.regex := Re.Set_ true [(line_feed, line_feed)].

Definition profile_url_pattern : Re.regex :=
  Re.seq [Re.lit "http"; Re.opt (Re.Chr "s"); Re.lit "://"; Re.opt (Re.lit "www.");
          Re.lit "reddit.com/"; Re.alt [Re.lit "user"; Re.lit "u"]; Re.Chr "/";
          Re.Group "1" (Re.plus username_class); Re.opt (Re.Chr "/"); Re.star any_char].

(** [$] *)
Definition at_line_end (c : Re.cursor) : bool :=
  match Re.after c with
  | [] => true
  | [x] => Ascii.eqb x line_feed
  | _ => false
  end.

(** [re.match(pattern, url)] for a pattern that ends in [$] *)
Definition match_line (r : Re.regex) (s : string) : option Re.match_ :=
  Re.run false r (Re.MState (Re.start_of s) [])
    (fun st' =>
       if at_line_end (Re.cur st')
       then Some (Re.Match 0 (Re.pos (Re.cur st')) (str (rev (Re.before (Re.cur st'))))
                           (Re.groups st'))
       else None).

(** [bool(re.match(pattern, url))] *)
Definition validate_reddit_url (url : string) : bool :=
  match match_line profile_url_pattern url with Some _ => true | None => false end.

(** [match.group(1)] if the pattern matches, [None] otherwise *)
Definition extract_username_from_url (url : string) : option string :=
  match match_line profile_url_pattern url with
  | Some m => Re.group "1" m
  | None => None
  end.

(** a character that [[\w-]] accepts *)
Definition username_char (x : ascii) : bool := is_word x || Ascii.eqb x "-".

(** a profile URL put together from its parts *)
Definition profile_url (scheme www kind username rest : string) : string :=
  scheme +:+ "://" +:+ www +:+ "reddit.com/" +:+ kind +:+ "/" +:+ username +:+ rest.

(** what may follow the user name: nothing, or something that starts with a
    character the user name cannot hold, and no line feed *)
Definition trailer (rest : string) : Prop :=
  match chars rest with
  | [] => True
  | x :: _ => username_char x = false
  end
  /\ Forall (fun x => x <> line_feed) (chars rest).

(** ** [persona_generator.py]: the persona document

    [generate_persona] is handed the dictionary that [analyze] returns, and
    is modelled on it: a key that [analyze] sets is found by [.get], a key
    that it does not set takes the default of the lookup, and a dictionary
    that [analyze] fills is not empty.

    The document is held as the UTF-8 bytes that [save_persona] writes; on
    the ASCII fragment these are the characters of the [str]. The two block
    characters of the bars are three bytes each, none of them white space:
    the generator concatenates the texts that hold them, strips them at
    their ends and compares them with ASCII headings, and the encoding
    preserves all three. *)

Definition nl : string := String line_feed "".

Definition quotation_mark : string := String (ascii_of_nat 34) "".

(** U+2588 FULL BLOCK *)
Definition full_block : string := str (map ascii_of_nat [226; 150; 136]).

(** U+2591 LIGHT SHADE *)
Definition light_shade : string := str (map ascii_of_nat [226; 150; 145]).

(** [n] copies of [s] in a row *)
Fixpoint copies (s : string) (n : nat) : string :=
  match n with
  | 0 => ""
  | S n' => s +:+ copies s n'
  end.

(** [s * n] for a count that a text can have: empty for [n <= 0] *)
Definition repeated (s : string) (n : Z) : string := copies s (Z.to_nat n).

(** texts put one after the other *)
Definition lines_of (rows : list string) : string := fold_right append "" rows.

(** [s.title()]: a letter is upper-cased after a character that is not a
    letter and lower-cased after a letter *)
Fixpoint title_chars (after_letter : bool) (l : list ascii) : list ascii :=
  match l with
  | [] => []
  | c :: l' => (if after_letter then to_lower c else to_upper c) :: title_chars (is_alpha c) l'
  end.

Definition title (s : string) : string := str (title_chars false (chars s)).

(** [s.replace(old, new)] for two single characters *)
Definition replace_char (old new : ascii) (s : string) : string :=
  str (map (fun c => if Ascii.eqb c old then new else c) (chars s)).

(** [s.split(' ')[-1]]: what follows the last space *)
Definition last_field (s : string) : string :=
  str (fold_left (fun field c => if Ascii.eqb c " " then [] else field ++ [c]) (chars s) [])%list.

(** [table.get(key)] on a dictionary literal *)
Definition table_get {V} (key : string) (table : list (string * V)) : option V :=
  snd <$> List.find (fun '(k, _) => String.eqb k key) table.

Definition placeholder : string := "Less info to analyze this".

(** [_format_citation]: a citation is one of the text records of [analyze],
    a dictionary of six keys, which is never empty *)
Definition _format_citation (citation : item) : string :=
  let source_type := source (item_data citation) in
  let subreddit := subreddit (item_data citation) in
  let url := url (item_data citation) in
  if truthy_str (Some source_type) && truthy_str (Some subreddit) && truthy_str (Some url)
  then " [Source: " +:+ source_type +:+ " in r/" +:+ subreddit +:+ "](" +:+ url +:+ ")"
  else if truthy_str (Some subreddit) && truthy_str (Some url)
  then " [Source: r/" +:+ subreddit +:+ "](" +:+ url +:+ ")"
  else if truthy_str (Some url)
  then " [Source](" +:+ url +:+ ")"
  else "".

(** the bullet of a fact: [f"* {description}{citation}\n"], where the
    citation of a fact is a text record and so never missing *)
Definition fact_bullet (f : fact) : string :=
  "* " +:+ description f +:+ _format_citation (fact_citation f) +:+ nl.

(** one turn of the loop that [_generate_behaviors_section],
    [_generate_frustrations_section] and [_generate_goals_section] share:
    a bullet for a fact with a description *)
Definition fact_line (section : string) (f : fact) : string :=
  if truthy_str (Some (description f)) then section +:+ fact_bullet f else section.

(** the body that the three functions share, under their own headings *)
Definition fact_section (heading : string) (facts : list fact) : string :=
  let section := heading +:+ nl +:+ nl in
  let section :=
    match facts with
    | [] => section +:+ placeholder +:+ nl +:+ nl
    | _ =>
        let section := fold_left fact_line (take 5 facts) section in
        if String.eqb (strip section) heading
        then section +:+ placeholder +:+ nl
        else section
    end in
  section +:+ nl.

(** the facts that get a bullet: those of the first five with a description *)
Definition shown_facts (facts : list fact) : list fact :=
  List.filter (fun f => truthy_str (Some (description f))) (take 5 facts).

Definition _generate_behaviors_section (behaviors : list fact) : string :=
  fact_section "### Behavior & Habits" behaviors.

Definition _generate_frustrations_section (frustrations : list fact) : string :=
  fact_section "### Frustrations" frustrations.

Definition _generate_goals_section (goals : list fact) : string :=
  fact_section "### Goals & Needs" goals.

(** [_format_citation(citations[0]) if citations else ''] *)
Definition first_citation (citations : list item) : string :=
  match citations with
  | c :: _ => _format_citation c
  | [] => ""
  end.

(** the bar of a motivation: [score] full cells, then light cells up to ten *)
Definition bar (score : Z) : string :=
  repeated full_block score +:+ repeated light_shade (10 - score).

(** [f"**{display_name}:** {bar} {citation_text}\n"] *)
Definition motivation_row (m : string * scored) : string :=
  let '(category, data) := m in
  let display_name := title (replace_char "_" " " category) in
  "**" +:+ display_name +:+ ":** " +:+ bar (sc_score data) +:+ " "
  +:+ first_citation (sc_citations data) +:+ nl.

Definition motivation_line (section : string) (m : string * scored) : string :=
  section +:+ motivation_row m.

Definition _generate_motivations_section (motivations : list (string * scored)) : string :=
  let section := "### Motivations" +:+ nl +:+ nl in
  let section :=
    match motivations with
    | [] => section +:+ placeholder +:+ nl +:+ nl
    | _ =>
        let section := fold_left motivation_line motivations section in
        if String.eqb (strip section) "### Motivations"
        then section +:+ placeholder +:+ nl
        else section
    end in
  section +:+ nl.

Definition dimension_names : list (string * (string * string)) :=
  [("introvert_extrovert", ("INTROVERT", "EXTROVERT"));
   ("intuition_sensing", ("INTUITION", "SENSING"));
   ("feeling_thinking", ("FEELING", "THINKING"));
   ("perceiving_judging", ("PERCEIVING", "JUDGING"))].

(** [personality.items()]: the four keys, in the order of the dictionary
    that [_analyze_personality] starts from *)
Definition personality_items (p : personality_scores) : list (string * scored) :=
  [("introvert_extrovert", introvert_extrovert p);
   ("intuition_sensing", intuition_sensing p);
   ("feeling_thinking", feeling_thinking p);
   ("perceiving_judging", perceiving_judging p)].

Definition scale_length : Z := 20.

(** the scale of an axis: [int((score / 100) * scale_length)] light cells,
    the marker, and light cells up to the length of the scale *)
Definition scale (score : Z) : result string :=
  match PyFloat.scaled score 100 scale_length with
  | Some position =>
      Ok (repeated light_shade position +:+ full_block
          +:+ repeated light_shade (scale_length - position - 1))
  | None => Raise OverflowError
  end.

(** [f"**{left_name}** {scale} **{right_name}** {citation_text}\n"] *)
Definition personality_row (d : string * scored) : result string :=
  let '(dimension, data) := d in
  let '(left_name, right_name) := default ("LEFT", "RIGHT") (table_get dimension dimension_names) in
  rbind (scale (sc_score data)) (fun scale =>
  Ok ("**" +:+ left_name +:+ "** " +:+ scale +:+ " **" +:+ right_name +:+ "** "
      +:+ first_citation (sc_citations data) +:+ nl)).

Definition personality_line (section : result string) (d : string * scored) : result string :=
  rbind section (fun section =>
  rbind (personality_row d) (fun row => Ok (section +:+ row))).

Definition _generate_personality_section (personality : personality_scores) : result string :=
  let section := "### Personality" +:+ nl +:+ nl in
  rbind (fold_left personality_line (personality_items personality) (Ok section)) (fun section =>
  let section :=
    if String.eqb (strip section) "### Personality"
    then section +:+ placeholder +:+ nl
    else section in
  Ok (section +:+ nl)).

(** [_generate_basic_info_section]. The activity level is looked up in the
    [activity] dictionary, whose keys are [total_posts], [total_comments],
    [active_subreddits] and [posting_frequency]: the lookup finds nothing. *)
Definition _generate_basic_info_section (basic : basic_info) (act : activity)
    (archetype : string) : string :=
  let section := "### Basic Information" +:+ nl +:+ nl in
  let demographics := detected_demographics basic in
  let age := value (age demographics) in
  let occupation := value (occupation demographics) in
  let status := value (status demographics) in
  let location := value (location demographics) in
  let tier : option string := None in
  if negb (truthy_nat age || truthy_str occupation || truthy_str status || truthy_str location
           || truthy_str tier || truthy_str (Some archetype))
  then section +:+ placeholder +:+ nl +:+ nl
  else
    section
    +:+ "**AGE:** "
    +:+ (if truthy_nat age then of_Z (Z.of_nat (default 0 age)) else placeholder) +:+ nl +:+ nl
    +:+ "**OCCUPATION:** "
    +:+ (if truthy_str occupation then title (default "" occupation) else placeholder) +:+ nl +:+ nl
    +:+ "**STATUS:** "
    +:+ (if truthy_str status then title (default "" status) else placeholder) +:+ nl +:+ nl
    +:+ "**LOCATION:** "
    +:+ (if truthy_str location then default "" location else placeholder) +:+ nl +:+ nl
    +:+ "**TIER:** "
    +:+ (if truthy_str tier then default "" tier else placeholder) +:+ nl +:+ nl
    +:+ "**USER TYPE:** "
    +:+ (if truthy_str (Some archetype) then archetype else placeholder) +:+ nl +:+ nl.

Definition _generate_traits_section (traits : list string) : string :=
  let section := "### Traits" +:+ nl +:+ nl in
  if match traits with [] => true | _ => negb (existsb (fun trait => truthy_str (Some trait)) traits) end
  then section +:+ placeholder +:+ nl +:+ nl
  else section +:+ join " " (map (fun trait => "`" +:+ trait +:+ "`") traits) +:+ nl +:+ nl.

Definition _generate_highlighted_quote_section (quote : string) : string :=
  let section := "### Highlighted Quote" +:+ nl +:+ nl in
  if negb (truthy_str (Some quote)) || negb (truthy_str (Some (strip quote)))
  then section +:+ placeholder +:+ nl +:+ nl
  else section +:+ "> **" +:+ quotation_mark +:+ quote +:+ quotation_mark +:+ "**" +:+ nl +:+ nl.

Definition names_of_the_creator : list string :=
  ["Alex"; "Jordan"; "Taylor"; "Morgan"; "Casey"; "Riley"; "Avery"; "Quinn"].
Definition names_of_the_caregiver : list string :=
  ["Sam"; "Jamie"; "Robin"; "Jessie"; "Charlie"; "Frankie"; "Finley"; "Emery"].
Definition names_of_the_explorer : list string :=
  ["Skyler"; "River"; "Phoenix"; "Dakota"; "Sage"; "Rowan"; "Aspen"; "Remy"].
Definition names_of_the_sage : list string :=
  ["Morgan"; "Jordan"; "Taylor"; "Casey"; "Riley"; "Avery"; "Quinn"; "Reese"].

(** the table [archetype_names] of [_generate_persona_name]; its twelve rows
    repeat four lists of names *)
Definition persona_names : list (string * list string) :=
  [("The Creator", names_of_the_creator);
   ("The Caregiver", names_of_the_caregiver);
   ("The Explorer", names_of_the_explorer);
   ("The Sage", names_of_the_sage);
   ("The Rebel", names_of_the_creator);
   ("The Hero", names_of_the_caregiver);
   ("The Jester", names_of_the_explorer);
   ("The Everyman", names_of_the_sage);
   ("The Ruler", names_of_the_creator);
   ("The Magician", names_of_the_caregiver);
   ("The Lover", names_of_the_explorer);
   ("The Innocent", names_of_the_sage)].

Definition default_names : list string := names_of_the_creator.

(** [_generate_persona_name]; [hash] is the interpreter's [hash] on strings,
    which is salted anew in every process *)
Definition _generate_persona_name (hash : string -> Z) (username archetype : string) : string :=
  let name_list := default default_names (table_get archetype persona_names) in
  let name_index := (hash username mod Z.of_nat (length name_list))%Z in
  nth (Z.to_nat name_index) name_list "".

Definition header_quote : string :=
  "I want to spend less time ordering a healthy takeaway and more time enjoying my meal.".

Definition _generate_header (hash : string -> Z) (username : string) (basic : basic_info)
    (archetype : string) : string :=
  let first_name := _generate_persona_name hash username archetype in
  "# " +:+ first_name +:+ " " +:+ last_field archetype +:+ nl +:+ nl
  +:+ "> " +:+ quotation_mark +:+ header_quote +:+ quotation_mark +:+ nl +:+ nl.

(** [_generate_footer]; [now] is the reading of
    [datetime.now().strftime('%Y-%m-%d %H:%M:%S')] *)
Definition _generate_footer (now : string) : string :=
  nl +:+ "---" +:+ nl +:+ nl +:+ "Generated on " +:+ now +:+ nl.

Definition archetype_traits : list (string * list string) :=
  [("The Creator", ["Practical"; "Adaptable"; "Spontaneous"; "Active"]);
   ("The Caregiver", ["Empathetic"; "Supportive"; "Reliable"; "Patient"]);
   ("The Explorer", ["Curious"; "Adventurous"; "Open-minded"; "Independent"]);
   ("The Sage", ["Wise"; "Analytical"; "Thoughtful"; "Objective"]);
   ("The Rebel", ["Bold"; "Nonconformist"; "Daring"; "Independent"]);
   ("The Hero", ["Courageous"; "Determined"; "Resilient"; "Confident"]);
   ("The Jester", ["Playful"; "Optimistic"; "Witty"; "Sociable"]);
   ("The Everyman", ["Practical"; "Grounded"; "Approachable"; "Adaptable"]);
   ("The Ruler", ["Organized"; "Responsible"; "Confident"; "Strategic"]);
   ("The Magician", ["Imaginative"; "Resourceful"; "Visionary"; "Curious"]);
   ("The Lover", ["Passionate"; "Appreciative"; "Warm"; "Expressive"]);
   ("The Innocent", ["Optimistic"; "Honest"; "Hopeful"; "Trusting"])].

Definition _default_traits_for_archetype (archetype : string) : list string :=
  default ["Practical"; "Adaptable"; "Spontaneous"; "Active"] (table_get archetype archetype_traits).

(** insertion into a list sorted by decreasing score, after its equals *)
Fixpoint insert_by_score (x : string * scored) (l : list (string * scored))
  : list (string * scored) :=
  match l with
  | [] => [x]
  | y :: l' =>
      if (sc_score (snd y) <? sc_score (snd x))%Z then x :: l else y :: insert_by_score x l'
  end.

(** [sorted(motivations.items(), key=score, reverse=True)], which is stable *)
Definition sorted_by_score (motivations : list (string * scored)) : list (string * scored) :=
  fold_left (fun sorted m => insert_by_score m sorted) motivations [].

(** [m] is the first entry of maximal score: the entries before it score
    less, the entries after it no more *)
Definition first_maximum (m : string * scored) (l : list (string * scored)) : Prop :=
  exists l1 l2,
    l = (l1 ++ m :: l2)%list
    /\ Forall (fun y => (sc_score (snd y) < sc_score (snd m))%Z) l1
    /\ Forall (fun y => (sc_score (snd y) <= sc_score (snd m))%Z) l2.

Definition fallback_quote : string := header_quote.

Definition _generate_highlighted_quote (motivations : list (string * scored))
    (goals : list fact) : string :=
  match List.find (fun goal => truthy_str (Some (description goal))) goals with
  | Some goal => description goal
  | None =>
      match sorted_by_score motivations with
      | (category, _) :: _ =>
          "I want to spend more time on " +:+ replace_char "_" " " category +:+ "."
      | [] => fallback_quote
      end
  end.

(** [generate_persona]. The dictionary has no key ['traits'] and no key
    ['highlighted_quote'], so both take their defaults; it has the key
    ['archetype']. An axis whose score cannot be scaled ends the call. *)
Definition generate_persona (hash : string -> Z) (now : string) (persona_data : persona)
    (username : string) : result string :=
  let basic := p_basic_info persona_data in
  let act := p_activity persona_data in
  let behaviors := behavior_and_habits persona_data in
  let frustrations := frustrations persona_data in
  let motivations := motivations persona_data in
  let goals := goals_and_needs persona_data in
  let personality := personality persona_data in
  let archetype := archetype persona_data in
  let traits := _default_traits_for_archetype archetype in
  let quote := _generate_highlighted_quote motivations goals in
  let document := _generate_header hash username basic archetype in
  let document := document +:+ _generate_traits_section traits in
  let document := document +:+ _generate_highlighted_quote_section quote in
  let document := document +:+ _generate_basic_info_section basic act archetype in
  let document := document +:+ _generate_behaviors_section behaviors in
  let document := document +:+ _generate_frustrations_section frustrations in
  let document := document +:+ _generate_motivations_section motivations in
  rbind (_generate_personality_section personality) (fun personality_section =>
  let document := document +:+ personality_section in
  let document := document +:+ _generate_goals_section goals in
  let document := document +:+ _generate_footer now in
  Ok document).

(** a text that starts with ink: its first character is not white space *)
Definition inked (k : string) : Prop :=
  exists x t, chars k = x :: t /\ is_space x = false.

(** * Properties *)

(** ** Binary64 facts used by the two scoring functions *)
Module PyFloatFacts.
Import PyFloat.
Local Open Scope Z_scope.

Lemma digits2_pos_size p : digits2_pos p = Pos.size p.
Proof. induction p; simpl; congruence. Qed.

Lemma Zdigits2_log2 p : Zdigits2 (Zpos p) = Z.log2 (Zpos p) + 1.
Proof.
  simpl. rewrite digits2_pos_size. destruct p; simpl; try rewrite Pos.add_1_r; try reflexivity.
  all: rewrite Pos2Z.inj_succ; lia.
Qed.

Lemma Zdigits2_nonneg m : 0 <= Zdigits2 m.
Proof. destruct m; simpl; lia. Qed.

Lemma Zdigits2_lt_pow2 m k : 0 <= m -> 0 <= k -> m < 2 ^ k -> Zdigits2 m <= k.
Proof.
  intros Hm Hk Hlt. destruct m as [|p|p]; [simpl; lia| |lia].
  rewrite Zdigits2_log2.
  assert (Z.log2 (Z.pos p) < k); [|lia].
  apply Z.log2_lt_pow2; lia.
Qed.

Lemma Zdigits2_pow2_gt m : 0 <= m -> m < 2 ^ Zdigits2 m.
Proof.
  intros Hm. destruct m as [|p|p]; [simpl; lia| |lia].
  rewrite Zdigits2_log2.
  pose proof (Z.log2_spec (Z.pos p) ltac:(lia)) as [_ H].
  replace (Z.log2 (Z.pos p) + 1) with (Z.succ (Z.log2 (Z.pos p))) by lia. exact H.
Qed.

Lemma shr_1_spec mrs :
  0 <= shr_m mrs ->
  0 <= shr_m (shr_1 mrs) /\ Zdigits2 (shr_m (shr_1 mrs)) <= Z.max 0 (Zdigits2 (shr_m mrs) - 1).
Proof.
  destruct mrs as [m r s]. simpl. intros Hm.
  destruct m as [|[p|p|]|p]; simpl; try lia.
Qed.

Lemma iter_shr_1_spec p : forall mrs,
  0 <= shr_m mrs ->
  0 <= shr_m (SpecFloat.iter_pos shr_1 p mrs)
  /\ Zdigits2 (shr_m (SpecFloat.iter_pos shr_1 p mrs)) <= Z.max 0 (Zdigits2 (shr_m mrs) - Z.pos p).
Proof.
  induction p as [p IH|p IH|]; intros mrs Hm; simpl SpecFloat.iter_pos.
  - destruct (shr_1_spec mrs Hm) as [H1 H2].
    destruct (IH _ H1) as [H3 H4].
    destruct (IH _ H3) as [H5 H6].
    split; [assumption|]. lia.
  - destruct (IH _ Hm) as [H3 H4].
    destruct (IH _ H3) as [H5 H6].
    split; [assumption|]. lia.
  - destruct (shr_1_spec mrs Hm) as [H1 H2]. split; [assumption|]. lia.
Qed.

Lemma shr_m_of_loc m l : shr_m (shr_record_of_loc m l) = m.
Proof. destruct l as [|[]]; reflexivity. Qed.

(** the mantissa stays non-negative and the magnitude [digits + exponent]
    does not grow when [shr_fexp] aligns a number to its format exponent *)
Lemma shr_fexp_spec m e l B :
  0 <= m -> emin prec emax <= B -> e <= B -> Zdigits2 m + e <= B ->
  0 <= shr_m (fst (shr_fexp prec emax m e l))
  /\ snd (shr_fexp prec emax m e l) <= B
  /\ Zdigits2 (shr_m (fst (shr_fexp prec emax m e l))) + snd (shr_fexp prec emax m e l) <= B.
Proof.
  intros Hm HB He Hd. unfold shr_fexp, shr.
  pose proof (Zdigits2_nonneg m) as Hd0.
  assert (Hf : fexp prec emax (Zdigits2 m + e) <= B)
    by (unfold fexp, emin, prec, emax in *; lia).
  destruct (fexp prec emax (Zdigits2 m + e) - e) as [|p|p] eqn:Hn; simpl.
  - rewrite shr_m_of_loc. lia.
  - destruct (iter_shr_1_spec p (shr_record_of_loc m l)) as [H1 H2].
    { rewrite shr_m_of_loc; lia. }
    rewrite shr_m_of_loc in H2.
    split; [assumption|]. split; [lia|].
    unfold fexp, emin, prec, emax in *. lia.
  - rewrite shr_m_of_loc. lia.
Qed.

Lemma Zdigits2_succ m : 0 <= m -> Zdigits2 (m + 1) <= Zdigits2 m + 1.
Proof.
  intros Hm. pose proof (Zdigits2_nonneg m).
  apply Zdigits2_lt_pow2; try lia.
  pose proof (Zdigits2_pow2_gt m Hm).
  rewrite Z.pow_add_r by lia. lia.
Qed.

Lemma round_nearest_even_spec m l :
  0 <= m -> 0 <= round_nearest_even m l
  /\ Zdigits2 (round_nearest_even m l) <= Zdigits2 m + 1.
Proof.
  intros Hm. pose proof (Zdigits2_succ m Hm). pose proof (Zdigits2_nonneg m).
  unfold round_nearest_even. destruct l as [|[]]; try destruct (Z.even m); split; lia.
Qed.

(** rounding a non-negative mantissa of bounded magnitude gives a zero or a
    finite float of the requested sign, never an infinity or a NaN *)
Lemma binary_round_aux_finite s m e l B :
  0 <= m -> emin prec emax <= B -> B + 1 <= emax - prec ->
  e <= B -> Zdigits2 m + e <= B ->
  match binary_round_aux prec emax s m e l with
  | S754_zero s' => s' = s
  | S754_finite s' m' e' => s' = s /\ e' <= B + 1 /\ Zdigits2 (Z.pos m') + e' <= B + 1
  | _ => False
  end.
Proof.
  intros Hm HB HB' He Hd. unfold binary_round_aux.
  destruct (shr_fexp_spec m e l B Hm HB He Hd) as (H1 & H2 & H3).
  destruct (shr_fexp prec emax m e l) as [mrs1 e1]. simpl in H1, H2, H3.
  destruct (round_nearest_even_spec (shr_m mrs1) (loc_of_shr_record mrs1) H1) as [H4 H5].
  set (m1 := round_nearest_even (shr_m mrs1) (loc_of_shr_record mrs1)) in *.
  destruct (shr_fexp_spec m1 e1 loc_Exact (B + 1) H4) as (H6 & H7 & H8); try lia.
  destruct (shr_fexp prec emax m1 e1 loc_Exact) as [mrs2 e2]. simpl in H6, H7, H8.
  destruct (shr_m mrs2) as [|p|p] eqn:Hp; [reflexivity| |lia].
  destruct (Z.leb_spec e2 (emax - prec)); [|lia].
  auto.
Qed.

Lemma Zdigits2_mono a b : 0 <= a <= b -> Zdigits2 a <= Zdigits2 b.
Proof.
  intros [Ha Hab]. apply Zdigits2_lt_pow2; [lia|apply Zdigits2_nonneg|].
  pose proof (Zdigits2_pow2_gt b ltac:(lia)). lia.
Qed.

Lemma Zdigits2_mul a b :
  0 <= a -> 0 <= b -> Zdigits2 (a * b) <= Zdigits2 a + Zdigits2 b.
Proof.
  intros Ha Hb. pose proof (Zdigits2_nonneg a). pose proof (Zdigits2_nonneg b).
  apply Zdigits2_lt_pow2; [lia|lia|].
  rewrite Z.pow_add_r by lia.
  pose proof (Zdigits2_pow2_gt a Ha). pose proof (Zdigits2_pow2_gt b Hb). nia.
Qed.

Lemma div_core_spec pa pb :
  Z.pos pa <= Z.pos pb ->
  let '(q, e', _) := SFdiv_core_binary prec emax (Z.pos pa) 0 (Z.pos pb) 0 in
  0 <= q /\ e' <= 1 /\ Zdigits2 q + e' <= 1.
Proof.
  intros Hab. unfold SFdiv_core_binary.
  pose proof (Zdigits2_mono (Z.pos pa) (Z.pos pb) ltac:(lia)) as Hd.
  set (d1 := Zdigits2 (Z.pos pa)) in *. set (d2 := Zdigits2 (Z.pos pb)) in *.
  set (e' := Z.min (fexp prec emax (d1 + 0 - (d2 + 0))) (0 - 0)).
  assert (He : -1074 <= e' <= -53) by (unfold e', fexp, emin, prec, emax; lia).
  destruct (0 - 0 - e') as [|s|s] eqn:Hs; try lia.
  rewrite Z.shiftl_mul_pow2 by lia.
  pose proof (Z.div_eucl_eq (Z.pos pa * 2 ^ Z.pos s) (Z.pos pb) ltac:(lia)) as Heq.
  pose proof (Z.mod_pos_bound (Z.pos pa * 2 ^ Z.pos s) (Z.pos pb) ltac:(lia)) as Hr.
  unfold Z.modulo in Hr.
  destruct (Z.div_eucl (Z.pos pa * 2 ^ Z.pos s) (Z.pos pb)) as [q r].
  assert (H2 : 0 < 2 ^ Z.pos s) by (apply Z.pow_pos_nonneg; lia).
  assert (Hq0 : 0 <= q) by nia.
  assert (Hq1 : q <= 2 ^ Z.pos s) by nia.
  split; [assumption|]. split; [lia|].
  assert (Zdigits2 q <= Z.pos s + 1); [|lia].
  apply Zdigits2_lt_pow2; try lia.
  rewrite Z.pow_add_r by lia. lia.
Qed.

Lemma truediv_finite a b :
  0 <= a <= b -> 0 < b ->
  match truediv a b with
  | S754_zero s => s = false
  | S754_finite s m e => s = false /\ e <= 2 /\ Zdigits2 (Z.pos m) + e <= 2
  | _ => False
  end.
Proof.
  intros [Ha Hab] Hb. unfold truediv.
  destruct b as [|pb|pb]; try lia. destruct a as [|pa|pa]; try lia; simpl of_int.
  - reflexivity.
  - unfold SFdiv. pose proof (div_core_spec pa pb Hab) as H.
    destruct (SFdiv_core_binary prec emax (Z.pos pa) 0 (Z.pos pb) 0) as [[q e'] l].
    destruct H as (H1 & H2 & H3).
    apply (binary_round_aux_finite (xorb false false) q e' l 1);
      unfold emin, prec, emax; lia.
Qed.

Lemma mul_int_finite x n :
  match x with
  | S754_zero s => s = false
  | S754_finite s m e => s = false /\ e <= 2 /\ Zdigits2 (Z.pos m) + e <= 2
  | _ => False
  end ->
  0 < n < 1024 ->
  match mul_int x n with
  | S754_zero s => s = false
  | S754_finite s _ _ => s = false
  | _ => False
  end.
Proof.
  intros Hx Hn. unfold mul_int. destruct n as [|pn|pn]; try lia. simpl of_int.
  destruct x as [s|s| |s m e]; try contradiction; simpl SFmul.
  - subst; reflexivity.
  - destruct Hx as (-> & He & Hd).
    assert (Hdn : Zdigits2 (Z.pos pn) <= 10) by (apply Zdigits2_lt_pow2; lia).
    pose proof (Zdigits2_mul (Z.pos m) (Z.pos pn) ltac:(lia) ltac:(lia)) as Hmul.
    pose proof (binary_round_aux_finite (xorb false false) (Z.pos (m * pn)) (e + 0) loc_Exact 12) as H.
    rewrite Pos2Z.inj_mul in H.
    specialize (H ltac:(lia) ltac:(unfold emin, prec, emax; lia)
                  ltac:(unfold prec, emax; lia) ltac:(lia) ltac:(lia)).
    rewrite <- Pos2Z.inj_mul in H.
    destruct (binary_round_aux prec emax (xorb false false) (Z.pos (m * pn)) (e + 0) loc_Exact);
      try contradiction; tauto.
Qed.

Lemma to_int_nonneg x :
  match x with
  | S754_zero s => s = false
  | S754_finite s _ _ => s = false
  | _ => False
  end ->
  exists z, to_int x = Some z /\ 0 <= z.
Proof.
  destruct x as [s|s| |s m e]; try contradiction; intros Hx; simpl.
  - exists 0. split; [reflexivity|lia].
  - subst. eexists. split; [reflexivity|].
    destruct e; [apply Z.shiftl_nonneg|apply Z.shiftl_nonneg|apply Z.shiftr_nonneg]; lia.
Qed.

(** [int((a / b) * n)] is defined and non-negative whenever [0 <= a <= b] *)
Lemma scaled_nonneg a b n :
  0 <= a <= b -> 0 < b -> 0 < n < 1024 ->
  exists z, scaled a b n = Some z /\ 0 <= z.
Proof.
  intros Hab Hb Hn. apply to_int_nonneg, mul_int_finite; [|assumption].
  apply truediv_finite; assumption.
Qed.

Lemma scaled_zero b n : 0 < b -> 0 < n -> scaled 0 b n = Some 0.
Proof.
  intros Hb Hn. destruct b; try lia. destruct n; try lia. reflexivity.
Qed.

(** [b / b] is exactly [1.0] *)
Lemma truediv_same b : 0 < b -> truediv b b = S754_finite false 4503599627370496 (-52).
Proof.
  intros Hb. destruct b as [|p|p]; try lia.
  unfold truediv, of_int, SFdiv, SFdiv_core_binary.
  replace (Zdigits2 (Z.pos p) + 0 - (Zdigits2 (Z.pos p) + 0)) with 0 by lia.
  change (Z.min (fexp prec emax 0) (0 - 0)) with (-53).
  change (0 - 0 - -53) with 53.
  cbv iota beta.
  rewrite Z.shiftl_mul_pow2 by lia.
  pose proof (Z.div_eucl_eq (Z.pos p * 2 ^ 53) (Z.pos p) ltac:(lia)) as Heq.
  pose proof (Z.mod_pos_bound (Z.pos p * 2 ^ 53) (Z.pos p) ltac:(lia)) as Hr.
  unfold Z.modulo in Hr.
  destruct (Z.div_eucl (Z.pos p * 2 ^ 53) (Z.pos p)) as [q r].
  assert (Hq : q = 2 ^ 53).
  { generalize dependent (2 ^ 53). intros K Heq. nia. }
  subst q. assert (r = 0) by lia. subst r.
  assert (Hl : new_location (Z.pos p) 0 = loc_Exact).
  { unfold new_location. destruct (Z.even (Z.pos p)); reflexivity. }
  rewrite Hl. reflexivity.
Qed.

Lemma scaled_same_10 b : 0 < b -> scaled b b 10 = Some 10.
Proof. intros Hb. unfold scaled. rewrite truediv_same by assumption. reflexivity. Qed.

(** the product is the double's, not the exact one: 29 of 50 gives 57.99... *)
Lemma scaled_29_of_50 : scaled 29 50 100 = Some 57.
Proof. reflexivity. Qed.

Lemma scaled_same_100 b : 0 < b -> scaled b b 100 = Some 100.
Proof. intros Hb. unfold scaled. rewrite truediv_same by assumption. reflexivity. Qed.

End PyFloatFacts.

(** ** Dictionaries kept in insertion order *)
Section Dict.
Context {V : Type}.

Lemma update_keys key (f : V -> V) d : map fst (update key f d) = map fst d.
Proof.
  induction d as [|[k v] d IH]; simpl; [reflexivity|].
  destruct (String.eqb k key); simpl; [reflexivity|]. now rewrite IH.
Qed.

(** a fold of key-preserving steps preserves the keys *)
Lemma fold_keys {A} (step : list (string * V) -> A -> list (string * V)) l :
  (forall d a, map fst (step d a) = map fst d) ->
  forall d, map fst (fold_left step l d) = map fst d.
Proof.
  intros Hstep. induction l as [|a l IH]; intros d; simpl; [reflexivity|].
  now rewrite IH, Hstep.
Qed.
End Dict.

Lemma add_score_keys name n sc : map fst (add_score name n sc) = map fst sc.
Proof. apply update_keys. Qed.

Lemma subreddit_pass_keys active sc : map fst (subreddit_pass active sc) = map fst sc.
Proof.
  unfold subreddit_pass. apply fold_keys. intros d [name [traits subs]].
  apply fold_keys. intros d' sub. destruct (mem (lower sub) active); [apply add_score_keys|reflexivity].
Qed.

Lemma trait_pass_keys all_text sc : map fst (trait_pass all_text sc) = map fst sc.
Proof.
  unfold trait_pass. apply fold_keys. intros d [name [traits subs]].
  apply fold_keys. intros d' trait. apply add_score_keys.
Qed.

Lemma threshold_keys s low high sc : map fst (threshold s low high sc) = map fst sc.
Proof.
  unfold threshold.
  destruct (s <? 40)%Z; [|destruct (60 <? s)%Z; [|reflexivity]];
    apply fold_keys; intros d [name n]; apply add_score_keys.
Qed.

Lemma personality_pass_keys pers sc : map fst (personality_pass pers sc) = map fst sc.
Proof. unfold personality_pass. now rewrite !threshold_keys. Qed.

Lemma archetype_scores_keys p : map fst (archetype_scores p) = archetype_names.
Proof.
  unfold archetype_scores.
  rewrite personality_pass_keys, trait_pass_keys, subreddit_pass_keys.
  rewrite map_map. reflexivity.
Qed.

(** Python's [max] with a key returns the first item of maximal key: every
    item before it is strictly smaller, every item after it is not larger *)
Lemma max_by_score_first rest : forall best,
  exists l1 l2,
    best :: rest = (l1 ++ max_by_score best rest :: l2)%list
    /\ Forall (fun x => (snd x < snd (max_by_score best rest))%Z) l1
    /\ Forall (fun x => (snd x <= snd (max_by_score best rest))%Z) l2.
Proof.
  induction rest as [|x rest IH]; intros best; simpl.
  - exists [], []. repeat split; constructor.
  - destruct (Z.ltb_spec (snd best) (snd x)) as [Hlt|Hge].
    + destruct (IH x) as (l1 & l2 & Heq & H1 & H2).
      exists (best :: l1), l2. split; [simpl; congruence|]. split; [|assumption].
      constructor; [|assumption].
      destruct l1 as [|y l1]; simpl in Heq; injection Heq as Hx _.
      * rewrite <- Hx. assumption.
      * subst y. apply Forall_inv in H1. cbv beta in H1. lia.
    + destruct (IH best) as (l1 & l2 & Heq & H1 & H2).
      destruct l1 as [|y l1]; simpl in Heq; injection Heq as Hb Hrest.
      * exists [], (x :: l2). split; [simpl; congruence|].
        split; [constructor|]. constructor; [|assumption]. rewrite <- Hb. assumption.
      * subst y. exists (best :: x :: l1), l2.
        split; [simpl; congruence|]. split; [|assumption].
        pose proof (Forall_inv H1) as Hbest. cbv beta in Hbest.
        constructor; [assumption|]. constructor; [lia|]. now apply Forall_inv_tail in H1.
Qed.

(** C1: the classifier returns one of the twelve archetype names, and it is
    the first entry of maximal score in the order of the archetype table:
    every entry before it scores strictly less, every entry after it scores
    no more. For a user with no post and no comment every archetype scores 0
    and the first entry of the table is returned. *)
Theorem archetype_is_first_maximum `{Runtime} :
  (forall p : persona,
     In (_determine_archetype p) archetype_names
     /\ map fst (archetype_scores p) = archetype_names
     /\ exists l1 s l2,
          archetype_scores p = (l1 ++ (_determine_archetype p, s) :: l2)%list
          /\ Forall (fun x => (snd x < s)%Z) l1
          /\ Forall (fun x => (snd x <= s)%Z) l2)
  /\ length archetype_names = 12
  /\ (forall basic frequency,
        exists p, infer new_analyzer basic (empty_corpus_activity frequency) [] = Ok p
                  /\ Forall (fun x => snd x = 0%Z) (archetype_scores p)
                  /\ Some (archetype p) = head archetype_names).
Proof.
  split; [|split; [reflexivity|]].
  - intros p. pose proof (archetype_scores_keys p) as Hkeys.
    unfold _determine_archetype.
    destruct (archetype_scores p) as [|first rest] eqn:Hsc; [discriminate|].
    destruct (max_by_score_first rest first) as (l1 & l2 & Heq & H1 & H2).
    destruct (max_by_score first rest) as [name s] eqn:Hmax.
    cbn [fst snd] in *.
    split; [|split; [assumption|]].
    + rewrite <- Hkeys, Heq, map_app. apply in_or_app. right. now left.
    + exists l1, s, l2. auto.
  - intros basic frequency. eexists. split; [vm_compute; reflexivity|].
    split; [|reflexivity]. vm_compute. repeat constructor.
Qed.

(** ** Motivation scores *)

Lemma motivation_evidence_keys self items :
  map fst (motivation_evidence self items) = map fst category_keywords.
Proof.
  unfold motivation_evidence.
  rewrite (fold_keys (fun st it =>
             fold_left (fun st '(category, keywords) =>
                          update category (category_step self it keywords) st)
                       category_keywords st)).
  - reflexivity.
  - intros d it. apply fold_keys. intros d' [category keywords]. apply update_keys.
Qed.

Lemma max_list_ge (l : list nat) x : In x l -> x <= fold_right Nat.max 0 l.
Proof.
  induction l as [|y l IH]; simpl; [tauto|]. intros [->|Hin]; [lia|].
  specialize (IH Hin). lia.
Qed.

Lemma max_list_attained (l : list nat) : l <> [] -> In (fold_right Nat.max 0 l) l.
Proof.
  induction l as [|y l IH]; [congruence|]. intros _. simpl.
  destruct l as [|z l]; [left; simpl; lia|].
  destruct (Nat.max_spec y (fold_right Nat.max 0 (z :: l))) as [[_ ->]|[_ ->]].
  - right. apply IH. congruence.
  - now left.
Qed.

Lemma max_score_positive evs : 0 < max_score evs.
Proof.
  unfold max_score. destruct (existsb _ evs) eqn:Hex; [|lia].
  apply existsb_exists in Hex as ([c ev] & Hin & Hpos).
  apply Nat.ltb_lt in Hpos.
  assert (raw ev <= fold_right Nat.max 0 (map (fun '(_, ev) => raw ev) evs)); [|lia].
  apply max_list_ge. apply in_map_iff. exists (c, ev). auto.
Qed.

Lemma max_score_bound evs c ev : In (c, ev) evs -> raw ev <= max_score evs.
Proof.
  intros Hin. unfold max_score. destruct (existsb _ evs) eqn:Hex.
  - apply max_list_ge. apply in_map_iff. exists (c, ev). auto.
  - destruct (raw ev) as [|n] eqn:Hraw; [lia|].
    assert (existsb (fun '(_, ev) => 0 <? raw ev) evs = true); [|congruence].
    apply existsb_exists. exists (c, ev). split; [assumption|]. rewrite Hraw. reflexivity.
Qed.

Lemma normalize_spec mx evs :
  0 < mx -> Forall (fun e => raw (snd e) <= mx) evs ->
  exists ms, normalize mx evs = Ok ms /\ Forall2 (normalized mx) evs ms.
Proof.
  intros Hmx. induction evs as [|[c ev] evs IH]; intros Hle.
  - exists []. split; [reflexivity|constructor].
  - pose proof (Forall_inv Hle) as Hev. cbn [snd] in Hev.
    destruct (IH (Forall_inv_tail Hle)) as (ms & Hms & Hall).
    destruct (PyFloatFacts.scaled_nonneg (Z.of_nat (raw ev)) (Z.of_nat mx) 10)
      as (n & Hn & Hn0); try lia.
    exists ((c, Scored (Z.min 10 n) (take 3 (cited ev))) :: ms). split.
    + simpl. unfold normalized_score.
      destruct (Nat.ltb_spec 0 mx); [|lia]. rewrite Hn. simpl. rewrite Hms. reflexivity.
    + constructor; [|assumption]. repeat split. exists n. cbn [snd sc_score]. repeat split; try assumption; lia.
Qed.

Lemma largest_scores_10 mx evs ms :
  0 < mx -> Forall2 (normalized mx) evs ms ->
  Forall2 (fun e m => if raw (snd e) =? mx then sc_score (snd m) = 10%Z else True) evs ms.
Proof.
  intros Hpos Hall. induction Hall as [|e m evs' ms' Hn Hall IH]; constructor; [|assumption].
  destruct (Nat.eqb_spec (raw (snd e)) mx) as [Heq|]; [|exact I].
  destruct Hn as (_ & _ & n & Hn & Hscore & _).
  rewrite Heq, PyFloatFacts.scaled_same_10 in Hn by lia.
  injection Hn as <-. rewrite Hscore. reflexivity.
Qed.

Lemma no_evidence_scores_0 evs ms :
  Forall (fun e => raw (snd e) = 0) evs -> Forall2 (normalized 1) evs ms ->
  Forall (fun m => sc_score (snd m) = 0%Z) ms.
Proof.
  intros Hzero Hall. induction Hall as [|e m evs' ms' Hn Hall IH]; constructor.
  - destruct Hn as (_ & _ & n & Hn & Hscore & _).
    rewrite (Forall_inv Hzero) in Hn. simpl in Hn. injection Hn as <-. rewrite Hscore. reflexivity.
  - apply IH. exact (Forall_inv_tail Hzero).
Qed.

(** C5: every category's final score is [min(10, int((raw / max) * 10))],
    an integer between 0 and 10, where [max] is the largest raw counter of
    the six categories, or 1 when all counters are 0; in that case all six
    scores are 0, and otherwise every category whose counter is the largest
    scores exactly 10. *)
Theorem motivation_scores_relative (self : PersonaAnalyzer) (text_items : list item) :
  let evs := motivation_evidence self text_items in
  let mx := max_score evs in
  map fst evs = ["convenience"; "wellness"; "speed"; "preferences"; "comfort"; "dietary_needs"]
  /\ exists ms,
       _extract_motivations self text_items = Ok ms
       /\ Forall2 (normalized mx) evs ms
       /\ if existsb (fun '(_, ev) => 0 <? raw ev) evs
          then In mx (raws evs)
               /\ Forall (fun r => r <= mx) (raws evs)
               /\ Forall2 (fun e m => if raw (snd e) =? mx
                                      then sc_score (snd m) = 10%Z else True) evs ms
          else mx = 1 /\ Forall (fun m => sc_score (snd m) = 0%Z) ms.
Proof.
  intros evs mx. split; [apply motivation_evidence_keys|].
  assert (Hle : Forall (fun e => raw (snd e) <= mx) evs).
  { apply List.Forall_forall. intros [c ev] Hin. exact (max_score_bound evs c ev Hin). }
  destruct (normalize_spec mx evs (max_score_positive evs) Hle) as (ms & Hms & Hall).
  exists ms. split; [exact Hms|]. split; [exact Hall|].
  destruct (existsb _ evs) eqn:Hex.
  - assert (Hmx : mx = fold_right Nat.max 0 (raws evs)).
    { unfold mx, max_score, raws. rewrite Hex. reflexivity. }
    split; [|split].
    + rewrite Hmx. apply max_list_attained.
      apply existsb_exists in Hex as (e & Hin & _). destruct evs; [destruct Hin|discriminate].
    + apply List.Forall_forall. intros r Hin. rewrite Hmx. now apply max_list_ge.
    + exact (largest_scores_10 mx evs ms (max_score_positive evs) Hall).
  - assert (Hmx : mx = 1) by (unfold mx, max_score; rewrite Hex; reflexivity).
    split; [assumption|].
    assert (Hzero : Forall (fun e => raw (snd e) = 0) evs).
    { apply List.Forall_forall. intros [c ev] Hin. cbn [snd].
      destruct (raw ev) as [|k] eqn:Hraw; [reflexivity|].
      assert (existsb (fun '(_, ev) => 0 <? raw ev) evs = true); [|congruence].
      apply existsb_exists. exists (c, ev). split; [assumption|]. rewrite Hraw. reflexivity. }
    rewrite Hmx in Hall. exact (no_evidence_scores_0 evs ms Hzero Hall).
Qed.

(** ** Personality scores *)

Lemma dimension_score_spec left_count right_count current :
  exists n, dimension_score left_count right_count current = Ok n
            /\ if left_count + right_count =? 0 then n = current
               else PyFloat.scaled (Z.of_nat right_count) (Z.of_nat (left_count + right_count)) 100 = Some n
                    /\ (0 <= n)%Z.
Proof.
  unfold dimension_score.
  destruct (Nat.eqb_spec (left_count + right_count) 0) as [Hz|Hnz].
  - rewrite Hz. exists current. auto.
  - destruct (Nat.ltb_spec 0 (left_count + right_count)); [|lia].
    destruct (PyFloatFacts.scaled_nonneg (Z.of_nat right_count)
                (Z.of_nat (left_count + right_count)) 100) as (n & Hn & Hn0); try lia.
    exists n. rewrite Hn. auto.
Qed.

(** one iteration of the loop over the axes *)
Lemma dimension_step_spec text_items all_text p dimension lt lk rt rk entry :
  get_dimension dimension p = Some entry ->
  exists n cits,
    dimension_step text_items all_text (Ok p) (dimension, ((lt, lk), (rt, rk)))
    = Ok (set_dimension dimension (Scored n cits) p)
    /\ if keyword_count lk all_text + keyword_count rk all_text =? 0 then n = sc_score entry
       else PyFloat.scaled (Z.of_nat (keyword_count rk all_text))
              (Z.of_nat (keyword_count lk all_text + keyword_count rk all_text)) 100 = Some n
            /\ (0 <= n)%Z.
Proof.
  intros Hget. unfold dimension_step. cbn [rbind]. rewrite Hget.
  destruct (dimension_score_spec (keyword_count lk all_text) (keyword_count rk all_text)
              (sc_score entry)) as (n & Hn & Hspec).
  rewrite Hn. cbn [rbind]. eauto.
Qed.

(** with the engine's own table of axes, the personality pass returns *)
Lemma analyze_personality_returns `{Runtime} (text_items : list item) :
  exists p, _analyze_personality new_analyzer text_items = Ok p.
Proof.
  unfold _analyze_personality.
  cbn [personality_dimensions new_analyzer fold_left].
  repeat match goal with
  | |- context [dimension_step ?i ?a (Ok ?p) (?d, ((?lt, ?lk), (?rt, ?rk)))] =>
      let n := fresh "n" in let c := fresh "c" in let E := fresh "E" in
      destruct (dimension_step_spec i a p d lt lk rt rk _ eq_refl) as (n & c & E & _);
      rewrite E; clear E
  end.
  eexists. reflexivity.
Qed.

(** C3, as the code has it: the four axes of every corpus are scored, and
    each score is [int((right / (left + right)) * 100)], the double-precision
    product truncated toward zero, over the word-boundary, case-insensitive
    occurrence counts in the whole corpus; it is 50 when no keyword occurs. *)
Theorem personality_scores_truncated `{Runtime} (text_items : list item) :
  exists p,
    _analyze_personality new_analyzer text_items = Ok p
    /\ Forall (fun '(dimension, ((_, left_keywords), (_, right_keywords))) =>
                 exists entry,
                   get_dimension dimension p = Some entry
                   /\ truncated_score left_keywords right_keywords
                        (corpus_text text_items) (sc_score entry))
              (personality_dimensions new_analyzer).
Proof.
  unfold _analyze_personality, truncated_score.
  set (all_text := corpus_text text_items).
  cbn [personality_dimensions new_analyzer fold_left].
  repeat match goal with
  | |- context [dimension_step ?i ?a (Ok ?p) (?d, ((?lt, ?lk), (?rt, ?rk)))] =>
      let n := fresh "n" in let c := fresh "c" in let E := fresh "E" in let S := fresh "S" in
      destruct (dimension_step_spec i a p d lt lk rt rk _ eq_refl) as (n & c & E & S);
      rewrite E; clear E
  end.
  eexists. split; [reflexivity|].
  repeat constructor; eexists; (split; [reflexivity|]); cbn [sc_score]; assumption.
Qed.

(** C3 as stated fails: with one introvert keyword and two extrovert
    keywords the analyzer reports 66, where rounding 66.67 gives 67. *)
Lemma personality_score_not_rounded :
  let text_items := [Sample.comment_at 0 "quiet social party"] in
  let all_text := corpus_text text_items in
  keyword_count ["quiet"; "shy"; "reserved"; "private"; "alone"; "introvert"; "solitude"; "independent"]
                all_text = 1
  /\ keyword_count ["outgoing"; "social"; "talkative"; "energetic"; "extrovert"; "people person"; "party"; "group"]
                   all_text = 2
  /\ (sc_score ∘ introvert_extrovert <$>
        match _analyze_personality Sample.analyzer text_items with Ok p => Some p | Raise _ => None end)
     = Some 66%Z
  /\ rounded_score 1 2 = 67%Z.
Proof. vm_compute. repeat split; reflexivity. Qed.

(** ** The age extractor *)

Lemma age_of_fold self text_items : forall d,
  age (fold_left (demographics_step self) text_items d)
  = fold_left (fun a it => age_step self it a) text_items (age d).
Proof.
  induction text_items as [|it rest IH]; intros d; simpl; [reflexivity|].
  rewrite IH. reflexivity.
Qed.

Lemma age_step_set self it a : truthy_nat (value a) = true -> age_step self it a = a.
Proof.
  intros Hset. unfold age_step. rewrite Hset.
  destruct (Re.search true (age_pattern self) (text (item_data it))); reflexivity.
Qed.

Lemma age_fold_set self text_items a :
  truthy_nat (value a) = true ->
  fold_left (fun a it => age_step self it a) text_items a = a.
Proof.
  intros Hset. induction text_items as [|it rest IH]; simpl; [reflexivity|].
  rewrite age_step_set by assumption. exact IH.
Qed.

Lemma qualifies_truthy a : qualifies a = true -> truthy_nat (Some a) = true.
Proof.
  unfold qualifies. intros H. apply andb_true_iff in H as [H _].
  apply Nat.leb_le in H. simpl. destruct a; [lia|reflexivity].
Qed.

Lemma age_step_unset self it a :
  truthy_nat (value a) = false ->
  age_step self it a
  = match leading_age self it with
    | Some x => if qualifies x then Field (Some x) 0.9 (Some it) else a
    | None => a
    end.
Proof.
  intros Hunset. unfold age_step, leading_age.
  destruct (Re.search true (age_pattern self) (text (item_data it))) as [m|]; [|reflexivity].
  rewrite Hunset. reflexivity.
Qed.

Lemma age_fold_unset self text_items a :
  truthy_nat (value a) = false ->
  fold_left (fun a it => age_step self it a) text_items a
  = match first_qualifying_item self text_items with
    | Some (x, it) => Field (Some x) 0.9 (Some it)
    | None => a
    end.
Proof.
  intros Hunset. unfold first_qualifying_item.
  induction text_items as [|it rest IH]; [reflexivity|].
  cbn [fold_left flat_map]. rewrite age_step_unset by assumption.
  destruct (leading_age self it) as [x|]; [|exact IH].
  destruct (qualifies x) eqn:Hq; [|exact IH].
  cbn [app head]. apply age_fold_set. now apply qualifies_truthy.
Qed.

(** C6, as the code has it: an age is accepted exactly when it lies in
    13..90, with confidence 0.9; the field takes the first item, in corpus
    order, whose leftmost match of the age pattern is acceptable, and once set
    it is never replaced. *)
Theorem age_is_first_acceptable_leading_match (self : PersonaAnalyzer)
    (text_items more : list item) :
  age (_extract_demographics self text_items)
  = match first_qualifying_item self text_items with
    | Some (a, it) => Field (Some a) 0.9 (Some it)
    | None => Field None 0 None
    end
  /\ (forall a, qualifies a = true <-> 13 <= a <= 90)
  /\ (qualifies 12 = false /\ qualifies 13 = true /\ qualifies 90 = true /\ qualifies 91 = false)
  /\ (if truthy_nat (value (age (_extract_demographics self text_items)))
      then age (_extract_demographics self (text_items ++ more))
           = age (_extract_demographics self text_items)
      else True).
Proof.
  unfold _extract_demographics. split; [|split; [|split]].
  - rewrite age_of_fold. apply age_fold_unset. reflexivity.
  - intros a. unfold qualifies. rewrite andb_true_iff, !Nat.leb_le. reflexivity.
  - repeat split; reflexivity.
  - destruct (truthy_nat _) eqn:Hset; [|exact I].
    rewrite fold_left_app, age_of_fold. apply age_fold_set. exact Hset.
Qed.

(** C6 as stated fails: the second sentence holds a match in range, but the
    loop looks only at the leftmost match of the item, which is out of range,
    so the age stays unset. *)
Lemma age_skips_later_matches :
  let text_items := [Sample.comment_at 0 "I am 5 years old. I am 25 years old."] in
  fst <$> first_qualifying_match Sample.analyzer text_items = Some 25
  /\ value (age (_extract_demographics Sample.analyzer text_items)) = None.
Proof. vm_compute. split; reflexivity. Qed.

(** ** The miners *)



Section Mining.
Context `{Runtime}.
Variable self : PersonaAnalyzer.
Variable candidates : item -> list (strategy * string).

(** a property of the miner's state that the initial state has and every
    step preserves holds at the end *)
Lemma mine_invariant (I : miner_state -> Prop) text_items :
  I (MinerState ∅ []) ->
  (forall st it c, In it text_items -> In c (candidates it) -> I st -> I (accept self it st c)) ->
  I (mine self candidates text_items).
Proof.
  unfold mine. generalize (MinerState ∅ []).
  induction text_items as [|it rest IH]; intros st Hst Hstep; [exact Hst|].
  cbn [fold_left]. apply IH.
  - assert (Hcs : forall c, In c (candidates it) -> In c (candidates it)) by auto.
    revert st Hst Hcs. generalize (candidates it) at 1 3.
    intros cs. induction cs as [|c cs IHc]; intros st Hst Hcs; [exact Hst|].
    cbn [fold_left]. apply IHc.
    + apply Hstep; [now left|apply Hcs; now left|exact Hst].
    + intros c' Hc'. apply Hcs. now right.
  - intros st' it' c Hit. apply Hstep. now right.
Qed.

(** every fact cites an item of the corpus and keeps the label of a
    candidate of that item *)
Lemma mine_provenance text_items :
  Forall (fun '(s, f) =>
            In (fact_citation f) text_items
            /\ exists c, In (s, c) (candidates (fact_citation f)))
         (traced (mine self candidates text_items)).
Proof.
  apply (mine_invariant (fun st => Forall _ (traced st))); [constructor|].
  intros st it [s c] Hit Hc Hst. unfold accept. cbn [fst snd].
  destruct (is_near_duplicate self c (seen st)); [exact Hst|].
  cbn [traced]. apply Forall_app. split; [exact Hst|].
  constructor; [|constructor]. cbn [fact_citation]. eauto.
Qed.
End Mining.

Lemma Forall_take_of {A} (P : A -> Prop) n (l : list A) : Forall P l -> Forall P (take n l).
Proof.
  intros Hl. revert n. induction Hl as [|x l Hx Hl IH]; intros [|n]; simpl; constructor; auto.
Qed.


(** ** Deduplication *)

Lemma to_lower_idem c : to_lower (to_lower c) = to_lower c.
Proof. destruct c as [[] [] [] [] [] [] [] []]; reflexivity. Qed.


Lemma is_space_lower c : is_space (to_lower c) = is_space c.
Proof. destruct c as [[] [] [] [] [] [] [] []]; reflexivity. Qed.

Lemma lower_idem s : lower (lower s) = lower s.
Proof. induction s as [|c s IH]; simpl; [reflexivity|]. now rewrite to_lower_idem, IH. Qed.


Lemma chars_lower s : chars (lower s) = map to_lower (chars s).
Proof. induction s as [|c s IH]; simpl; [reflexivity|]. unfold chars in *. simpl. now rewrite IH. Qed.


Lemma lstrip_map_lower l : lstrip_chars (map to_lower l) = map to_lower (lstrip_chars l).
Proof.
  induction l as [|c l IH]; simpl; [reflexivity|].
  rewrite is_space_lower. destruct (is_space c); [exact IH|reflexivity].
Qed.



Lemma ForallOrdPairs_take {A} (R : A -> A -> Prop) n l :
  ForallOrdPairs R l -> ForallOrdPairs R (take n l).
Proof.
  intros Hl. revert n. induction Hl as [|a l Ha Hl IH]; intros [|n]; simpl; try constructor.
  - now apply Forall_take_of.
  - apply IH.
Qed.


Section Dedup.
Context `{Runtime}.
Variable self : PersonaAnalyzer.

Lemma similarity_jaccard a b :
  _text_similarity self a b = jaccard (word_set self a) (word_set self b).
Proof. reflexivity. Qed.

Lemma jaccard_sym w1 w2 : jaccard w1 w2 = jaccard w2 w1.
Proof.
  unfold jaccard. rewrite orb_comm.
  rewrite (union_comm_L w1 w2), (intersection_comm_L w1 w2). reflexivity.
Qed.

Lemma similarity_sym a b : _text_similarity self a b = _text_similarity self b a.
Proof. rewrite !similarity_jaccard. apply jaccard_sym. Qed.


Hypothesis tokenizer_strips : forall s, word_tokenize (strip s) = word_tokenize s.




End Dedup.


(** the white-space tokenizer of the examples ignores surrounding white space *)
Lemma chars_str l : chars (str l) = l.
Proof. apply list_ascii_of_string_of_list_ascii. Qed.




Lemma lstrip_decompose l :
  exists ws, l = (ws ++ lstrip_chars l)%list /\ forallb is_space ws = true.
Proof.
  induction l as [|c l (ws & Hl & Hws)]; [exists []; auto|]. simpl.
  destruct (is_space c) eqn:Hc.
  - exists (c :: ws). simpl. rewrite Hc, Hws. split; [congruence|reflexivity].
  - exists []. auto.
Qed.



(** ** The store: what [analyze] allocates *)

Lemma fresh_in_mono (h h1 h' : heap) it : h ⊆ h1 -> fresh_in h1 h' it -> fresh_in h h' it.
Proof.
  intros Hsub [Hnone Hsome]. split; [|exact Hsome].
  destruct (h !! item_loc it) as [o|] eqn:Hl; [|reflexivity].
  rewrite (lookup_weaken _ _ _ _ Hl Hsub) in Hnone. discriminate.
Qed.

Lemma bind_run {A B} (m : M A) (f : A -> M B) (h h1 : heap) a :
  m h = (Ok a, h1) -> bind m f h = f a h1.
Proof. intros Hm. unfold bind. now rewrite Hm. Qed.

Lemma bind_raise {A B} (m : M A) (f : A -> M B) (h h1 : heap) e :
  m h = (Raise e, h1) -> bind m f h = (Raise e, h1).
Proof. intros Hm. unfold bind. now rewrite Hm. Qed.

Lemma new_item_run t (h : heap) :
  new_item t h = (Ok (Item (fresh (dom h)) t), <[fresh (dom h) := OTextItem t]> h).
Proof. reflexivity. Qed.

Lemma new_items_spec (f : entry -> text_item) es : forall h : heap,
  exists items h',
    mapM (fun e => new_item (f e)) es h = (Ok items, h')
    /\ map item_data items = map f es
    /\ h ⊆ h'
    /\ Forall (fresh_in h h') items.
Proof.
  induction es as [|e es IH]; intros h.
  - exists [], h. repeat split; [reflexivity|constructor].
  - set (l := fresh (dom h)). set (h1 := <[l := OTextItem (f e)]> h).
    assert (Hl : h !! l = None) by (apply not_elem_of_dom, is_fresh).
    assert (Hsub : h ⊆ h1) by (apply insert_subseteq, Hl).
    destruct (IH h1) as (items & h' & Hrun & Hdata & Hsub' & Hfresh).
    exists (Item l (f e) :: items), h'. split; [|split; [|split]].
    + cbn [mapM]. rewrite (bind_run _ _ h h1 _ (new_item_run (f e) h)).
      rewrite (bind_run _ _ h1 h' _ Hrun). reflexivity.
    + simpl. now rewrite Hdata.
    + now transitivity h1.
    + constructor.
      * split; [exact Hl|]. cbn [item_loc item_data].
        apply (lookup_weaken h1); [apply lookup_insert_eq|exact Hsub'].
      * eapply Forall_impl; [exact Hfresh|]. intros it. now apply fresh_in_mono.
Qed.

(** normalization keeps every post and every comment, in order, as a new
    object, and leaves the rest of the store as it was *)
Lemma normalize_items_spec posts comments (h : heap) :
  exists items h',
    normalize_items posts comments h = (Ok items, h')
    /\ map item_data items = (map post_item posts ++ map comment_item comments)%list
    /\ h ⊆ h'
    /\ Forall (fresh_in h h') items.
Proof.
  destruct (new_items_spec post_item posts h) as (ps & h1 & Hp & Hpd & Hsub1 & Hpf).
  destruct (new_items_spec comment_item comments h1) as (cs & h' & Hc & Hcd & Hsub2 & Hcf).
  exists (ps ++ cs)%list, h'. split; [|split; [|split]].
  - unfold normalize_items. rewrite (bind_run _ _ h h1 _ Hp), (bind_run _ _ h1 h' _ Hc).
    reflexivity.
  - now rewrite map_app, Hpd, Hcd.
  - now transitivity h1.
  - apply Forall_app. split.
    + eapply Forall_impl; [exact Hpf|]. intros it [Hnone Hsome]. split; [exact Hnone|].
      exact (lookup_weaken _ _ _ _ Hsome Hsub2).
    + eapply Forall_impl; [exact Hcf|]. intros it. now apply fresh_in_mono.
Qed.

(** ** The activity tier *)

Lemma sort_timestamps_comparable ts :
  comparable ts -> exists sorted, sort_timestamps ts = Ok sorted.
Proof.
  intros Hts. destruct ts as [|t0 ts]; [exists []; reflexivity|].
  unfold sort_timestamps.
  assert (Hall : forallb (fun t => Bool.eqb (dt_aware t) (dt_aware t0)) (t0 :: ts) = true).
  { apply forallb_forall. intros t Ht. apply eqb_true_iff. apply Hts; [exact Ht|now left]. }
  rewrite Hall. eauto.
Qed.

(** the tier is that of the number of parsed timestamps, whenever they sort *)
Lemma activity_tier_spec `{Runtime} (posts comments : list entry) :
  comparable (parsed_timestamps posts ++ parsed_timestamps comments) ->
  exists f, _analyze_posting_frequency posts comments = Ok f
            /\ activity_level f
               = tier_of_count (length (parsed_timestamps posts ++ parsed_timestamps comments)).
Proof.
  intros sortable. unfold _analyze_posting_frequency.
  destruct (sort_timestamps_comparable _ sortable) as (sorted & Hsorted).
  destruct (parsed_timestamps posts ++ parsed_timestamps comments)%list as [|t ts] eqn:Hts.
  - eexists. split; reflexivity.
  - rewrite Hsorted. cbn [rbind]. eexists. split; reflexivity.
Qed.

(** C8, as the code has it: with no parseable timestamp the tier is
    "Unknown"; otherwise it is "Low" below 10 parseable timestamps, "Moderate"
    below 50 and "High" from 50 on. A missing, empty or unparsable timestamp
    only leaves the temporal counts: every post and every comment still
    becomes a text record. *)
Theorem activity_tier_by_parsed_count `{Runtime} (posts comments : list entry) (h : heap)
    (sortable : comparable (parsed_timestamps posts ++ parsed_timestamps comments)) :
  let n := length (parsed_timestamps posts ++ parsed_timestamps comments) in
  (exists f, _analyze_posting_frequency posts comments = Ok f
             /\ activity_level f = tier_of_count n)
  /\ tier_of_count n
     = (if n =? 0 then "Unknown" else if n <? 10 then "Low"
        else if n <? 50 then "Moderate" else "High")
  /\ exists items h',
       normalize_items posts comments h = (Ok items, h')
       /\ map item_data items = (map post_item posts ++ map comment_item comments)%list.
Proof.
  intros n. split; [exact (activity_tier_spec posts comments sortable)|split; [reflexivity|]].
  destruct (normalize_items_spec posts comments h) as (items & h' & Hrun & Hdata & _).
  eauto.
Qed.

Lemma activity_tier_by_parsed_count_witness :
  let posts := [Sample.stamped "first" "5"; Sample.stamped "second" "not a date"] in
  let comments := [Sample.stamped "third" "30"; Sample.comment "fourth"] in
  length (parsed_timestamps (H := Sample.runtime) posts
          ++ parsed_timestamps (H := Sample.runtime) comments) = 2
  /\ (exists f, _analyze_posting_frequency (H := Sample.runtime) posts comments = Ok f
                /\ activity_level f = "Low")
  /\ exists items h',
       normalize_items posts comments ∅ = (Ok items, h') /\ length items = 4.
Proof.
  intros posts comments. split; [reflexivity|].
  assert (sortable : comparable (parsed_timestamps (H := Sample.runtime) posts
                                 ++ parsed_timestamps (H := Sample.runtime) comments)).
  { intros a b Ha Hb. vm_compute in Ha, Hb.
    destruct Ha as [<-|[<-|[]]]; destruct Hb as [<-|[<-|[]]]; reflexivity. }
  destruct (activity_tier_by_parsed_count (H := Sample.runtime) posts comments ∅ sortable)
    as (Hf & _ & items & h' & Hrun & Hdata).
  split; [exact Hf|]. exists items, h'. split; [exact Hrun|].
  rewrite <- (length_map item_data), Hdata. reflexivity.
Defined.

(** C8 as stated fails at zero: a corpus whose only timestamp does not parse
    has no parseable timestamp, fewer than 10, and its tier is "Unknown",
    not "Low". *)
Lemma no_timestamp_is_unknown_not_low :
  let comments := [Sample.stamped "hello" "not a date"] in
  length (parsed_timestamps (H := Sample.runtime) [] ++ parsed_timestamps (H := Sample.runtime) comments) = 0
  /\ _analyze_posting_frequency (H := Sample.runtime) [] comments
     = Ok (PostingFrequency "Unknown" [] [])
  /\ tier 0 = "Low".
Proof. vm_compute. repeat split; reflexivity. Qed.

(** ** Citations point into the corpus *)

Lemma fold_left_invariant {S X} (P : S -> Prop) (step : S -> X -> S) l :
  (forall s x, In x l -> P s -> P (step s x)) -> forall s, P s -> P (fold_left step l s).
Proof.
  induction l as [|x l IH]; intros Hstep s Hs; [exact Hs|].
  cbn [fold_left]. apply IH.
  - intros s' x' Hx'. apply Hstep. now right.
  - apply Hstep; [now left|exact Hs].
Qed.

Section Demographics.
Variable self : PersonaAnalyzer.
Variable items : list item.

Lemma age_step_cites it d :
  In it items -> cites_within items d -> cites_within items (age_step self it d).
Proof.
  intros Hit Hd. unfold age_step.
  destruct (Re.search _ _ _); [|exact Hd].
  destruct (negb (truthy_nat (value d))); [|exact Hd].
  destruct (_ && _); [exact Hit|exact Hd].
Qed.

Lemma location_step_cites it d :
  In it items -> cites_within items d -> cites_within items (location_step self it d).
Proof.
  intros Hit Hd. unfold location_step.
  destruct (Re.search _ _ _); [|exact Hd].
  destruct (_ || _); [exact Hit|exact Hd].
Qed.

Lemma occupation_step_cites it d :
  In it items -> cites_within items d -> cites_within items (occupation_step self it d).
Proof.
  intros Hit Hd. unfold occupation_step.
  destruct (Re.search _ _ _); [|exact Hd].
  destruct (_ || _); [|exact Hd].
  destruct (negb _); [exact Hit|exact Hd].
Qed.

Lemma status_step_cites it d :
  In it items -> cites_within items d -> cites_within items (status_step it d).
Proof.
  intros Hit. unfold status_step. revert d.
  apply fold_left_invariant. intros d [name indicators] _. revert d.
  apply fold_left_invariant. intros d indicator _ Hd. unfold indicator_step.
  destruct (Re.search _ _ _); [|exact Hd].
  destruct (_ || _); [exact Hit|exact Hd].
Qed.

Lemma demographics_cite_items :
  let d := _extract_demographics self items in
  cites_within items (age d) /\ cites_within items (location d)
  /\ cites_within items (occupation d) /\ cites_within items (status d).
Proof.
  unfold _extract_demographics.
  apply (fold_left_invariant
           (fun d => cites_within items (age d) /\ cites_within items (location d)
                     /\ cites_within items (occupation d) /\ cites_within items (status d))).
  - intros d it Hit (Ha & Hl & Ho & Hs). cbn [demographics_step age location occupation status].
    auto using age_step_cites, location_step_cites, occupation_step_cites, status_step_cites.
  - repeat split; exact I.
Qed.
End Demographics.

Lemma field_citation_within {V} items (d : field V) :
  cites_within items d -> Forall (fun c => In c items) (field_citation d).
Proof.
  unfold cites_within, field_citation. destruct (citation d); intros Hd; repeat constructor.
  exact Hd.
Qed.

Lemma miner_cites_items `{Runtime} self candidates items :
  Forall (fun c => In c items)
         (map fact_citation (map snd (take 10 (traced (mine self candidates items))))).
Proof.
  rewrite map_map. apply Forall_map. apply Forall_take_of.
  eapply Forall_impl; [apply mine_provenance|]. intros [s f] [Hf _]. exact Hf.
Qed.

(** *** Motivations *)

Lemma update_invariant {V} (P : V -> Prop) key (f : V -> V) d :
  (forall v, P v -> P (f v)) -> Forall (fun kv => P (snd kv)) d ->
  Forall (fun kv => P (snd kv)) (update key f d).
Proof.
  intros Hf. induction 1 as [|[k v] d Hv Hd IH]; simpl; [constructor|].
  cbn [snd] in Hv. destruct (String.eqb k key); constructor; cbn [snd]; auto.
Qed.

Lemma category_step_cites self items it keywords ev :
  In it items ->
  Forall (fun c => In c items) (cited ev) ->
  Forall (fun c => In c items) (cited (category_step self it keywords ev)).
Proof.
  intros Hit. unfold category_step.
  apply (fold_left_invariant (fun ev => Forall (fun c => In c items) (cited ev))).
  intros ev' _ _ Hev. unfold bump. cbn [cited].
  destruct (item_in it (cited ev')); [exact Hev|].
  apply Forall_app. split; [exact Hev|]. repeat constructor. exact Hit.
Qed.

Lemma motivation_evidence_cites self items :
  Forall (fun kv => Forall (fun c => In c items) (cited (snd kv)))
         (motivation_evidence self items).
Proof.
  unfold motivation_evidence.
  apply (fold_left_invariant
           (Forall (fun kv => Forall (fun c => In c items) (cited (snd kv))))).
  - intros st it Hit.
    apply (fold_left_invariant
             (Forall (fun kv => Forall (fun c => In c items) (cited (snd kv))))).
    intros st' [category keywords] _.
    apply (update_invariant (fun ev => Forall (fun c => In c items) (cited ev))).
    intros ev. now apply category_step_cites.
  - unfold initial_motivations. apply Forall_map. apply List.Forall_forall. intros; constructor.
Qed.

Lemma normalized_cites mx items evs ms :
  Forall2 (normalized mx) evs ms ->
  Forall (fun kv => Forall (fun c => In c items) (cited (snd kv))) evs ->
  Forall (fun c => In c items) (flat_map (fun m => sc_citations (snd m)) ms).
Proof.
  induction 1 as [|e m evs ms (_ & Hc & _) Hall IH]; intros Hev; simpl; [constructor|].
  apply Forall_app. split.
  - rewrite Hc. apply Forall_take_of. exact (Forall_inv Hev).
  - apply IH. exact (Forall_inv_tail Hev).
Qed.

Lemma motivations_cite_items self items ms :
  _extract_motivations self items = Ok ms ->
  Forall (fun c => In c items) (flat_map (fun m => sc_citations (snd m)) ms).
Proof.
  intros Hms.
  unfold _extract_motivations in Hms.
  destruct (normalize_spec (max_score (motivation_evidence self items))
              (motivation_evidence self items)) as (ms' & Hms' & Hall).
  { apply max_score_positive. }
  { apply List.Forall_forall. intros [c ev] Hin. exact (max_score_bound _ c ev Hin). }
  rewrite Hms in Hms'. injection Hms' as <-.
  eapply normalized_cites; [exact Hall|apply motivation_evidence_cites].
Qed.

(** *** Personality *)

Lemma get_dimension_cites items dimension p entry :
  Forall (fun c => In c items) (personality_citations p) ->
  get_dimension dimension p = Some entry ->
  Forall (fun c => In c items) (sc_citations entry).
Proof.
  unfold personality_citations, get_dimension. intros Hp.
  rewrite !Forall_app in Hp. destruct Hp as (H1 & H2 & H3 & H4).
  repeat (destruct (String.eqb dimension _); [intros [= <-]; assumption|]). discriminate.
Qed.

Lemma set_dimension_cites items dimension v p :
  Forall (fun c => In c items) (personality_citations p) ->
  Forall (fun c => In c items) (sc_citations v) ->
  Forall (fun c => In c items) (personality_citations (set_dimension dimension v p)).
Proof.
  unfold personality_citations, set_dimension. intros Hp Hv.
  rewrite !Forall_app in Hp. destruct Hp as (H1 & H2 & H3 & H4).
  repeat (destruct (String.eqb dimension _);
          [cbn [introvert_extrovert intuition_sensing feeling_thinking perceiving_judging];
           rewrite !Forall_app; auto|]).
  rewrite !Forall_app. auto.
Qed.

Lemma cite_keywords_cites items keywords cs :
  Forall (fun c => In c items) cs ->
  Forall (fun c => In c items) (cite_keywords keywords items cs).
Proof.
  unfold cite_keywords. revert cs.
  apply (fold_left_invariant (Forall (fun c => In c items))). intros cs keyword _.
  unfold cite_keyword. revert cs.
  apply (fold_left_invariant (Forall (fun c => In c items))). intros cs it Hit Hcs.
  destruct (Re.search _ _ _); [|exact Hcs].
  destruct (item_in it cs); [exact Hcs|].
  apply Forall_app. split; [exact Hcs|]. repeat constructor. exact Hit.
Qed.

Lemma personality_cites_items self items p :
  _analyze_personality self items = Ok p ->
  Forall (fun c => In c items) (personality_citations p).
Proof.
  unfold _analyze_personality. revert p.
  apply (fold_left_invariant
           (fun acc => forall p, acc = Ok p ->
                                 Forall (fun c => In c items) (personality_citations p))).
  - intros acc [dimension [[lt lk] [rt rk]]] _ Hacc p. unfold dimension_step.
    destruct acc as [p0|e]; cbn [rbind]; [|discriminate].
    destruct (get_dimension dimension p0) as [entry|] eqn:Hget; [|discriminate].
    destruct (dimension_score _ _ _) as [n|e]; cbn [rbind]; [|discriminate].
    intros [= <-]. apply set_dimension_cites; [now apply Hacc|].
    cbn [sc_citations]. apply Forall_take_of. apply cite_keywords_cites, cite_keywords_cites.
    eapply get_dimension_cites; [apply Hacc; reflexivity|exact Hget].
  - intros p [= <-]. constructor.
Qed.

(** every citation of an inferred persona is one of the text records *)
Lemma infer_cites_items `{Runtime} self basic act items p :
  (forall d, detected_demographics (basic d) = d) ->
  infer self basic act items = Ok p ->
  Forall (fun c => In c items) (citations p).
Proof.
  intros Hbasic. unfold infer.
  destruct (_extract_motivations self items) as [ms|e] eqn:Hms; cbn [rbind]; [|discriminate].
  destruct (_analyze_personality self items) as [pers|e] eqn:Hpers; cbn [rbind]; [|discriminate].
  intros [= <-]. unfold citations.
  cbn [p_basic_info behavior_and_habits frustrations motivations goals_and_needs personality].
  rewrite Hbasic.
  destruct (demographics_cite_items self items) as (Ha & Hl & Ho & Hs).
  pose proof (personality_cites_items self items pers Hpers) as Hp.
  unfold personality_citations in Hp. rewrite !Forall_app in Hp.
  destruct Hp as (P1 & P2 & P3 & P4).
  rewrite !Forall_app.
  split; [now apply field_citation_within|].
  split; [now apply field_citation_within|].
  split; [now apply field_citation_within|].
  split; [now apply field_citation_within|].
  split; [apply miner_cites_items|].
  split; [apply miner_cites_items|].
  split; [now apply (motivations_cite_items self)|].
  split; [apply miner_cites_items|].
  auto.
Qed.

(** *** Reading does not write *)

Lemma read_only_ret {A} (a : A) : read_only (ret a).
Proof. intros h. reflexivity. Qed.

Lemma read_only_raise {A} e : read_only (@raise A e).
Proof. intros h. reflexivity. Qed.

Lemma read_only_lift {A} (r : result A) : read_only (lift r).
Proof. intros h. reflexivity. Qed.

Lemma read_only_load l : read_only (load l).
Proof. intros h. unfold load. destruct (h !! l); reflexivity. Qed.

Lemma read_only_bind {A B} (m : M A) (f : A -> M B) :
  read_only m -> (forall a, read_only (f a)) -> read_only (bind m f).
Proof.
  intros Hm Hf h. unfold bind. specialize (Hm h).
  destruct (m h) as [[a|e] h1]; simpl in Hm; subst h1; [apply Hf|reflexivity].
Qed.

Lemma read_only_mapM {A B} (f : A -> M B) l :
  (forall a, read_only (f a)) -> read_only (mapM f l).
Proof.
  intros Hf. induction l as [|a l IH]; simpl; [apply read_only_ret|].
  apply read_only_bind; [apply Hf|]. intros b.
  apply read_only_bind; [exact IH|]. intros bs. apply read_only_ret.
Qed.

Lemma read_only_load_entry l : read_only (load_entry l).
Proof.
  apply read_only_bind; [apply read_only_load|].
  intros []; first [apply read_only_ret|apply read_only_raise].
Qed.

Lemma read_only_load_list l : read_only (load_list l).
Proof.
  destruct l; [|apply read_only_ret].
  apply read_only_bind; [apply read_only_load|].
  intros []; first [apply read_only_ret|apply read_only_raise].
Qed.

Lemma read_only_read_input self_loc ud_loc : read_only (read_input self_loc ud_loc).
Proof.
  unfold read_input, load_analyzer, load_user_data, load_user_info.
  repeat first
    [ apply read_only_ret | apply read_only_raise | apply read_only_load
    | apply read_only_load_list | apply read_only_mapM; intros; apply read_only_load_entry
    | apply read_only_bind; [|intros]
    | match goal with |- read_only (match ?x with _ => _ end) => destruct x end ].
Qed.

(** C10: a call of [analyze] leaves every object of the store as it was
    (the input records, the lists that hold them, the engine), and every
    text record the returned persona cites is an object allocated during the
    call, at an address that held nothing before. *)
Theorem analyze_preserves_its_input `{Runtime} (self_loc ud_loc : loc) (now : datetime)
    (h : heap) :
  let out := analyze self_loc ud_loc now h in
  h ⊆ snd out
  /\ match fst out with
     | Ok p => Forall (fresh_in h (snd out)) (citations p)
     | Raise _ => True
     end.
Proof.
  unfold analyze.
  pose proof (read_only_read_input self_loc ud_loc h) as Hread.
  destruct (read_input self_loc ud_loc h) as [[[[[self info] posts] comments]|e] h0] eqn:Hin;
    simpl in Hread; subst h0.
  - rewrite (bind_run _ _ h h _ Hin).
    destruct (_analyze_posting_frequency posts comments) as [frequency|e] eqn:Hfreq.
    + rewrite (bind_run _ _ h h frequency) by reflexivity.
      destruct (normalize_items_spec posts comments h) as (items & h' & Hrun & _ & Hsub & Hfresh).
      rewrite (bind_run _ _ h h' _ Hrun). unfold lift. cbn [fst snd].
      split; [exact Hsub|].
      destruct (infer self (basic_info_of now info) _ items) as [p|e] eqn:Hp; [|exact I].
      apply infer_cites_items in Hp; [|reflexivity].
      rewrite List.Forall_forall in *. auto.
    + rewrite (bind_raise _ _ h h e) by reflexivity. split; [reflexivity|exact I].
  - rewrite (bind_raise _ _ h h e Hin). split; [reflexivity|exact I].
Qed.

(** ** Reading the input *)

Lemma load_run (h : heap) l o : h !! l = Some o -> load l h = (Ok o, h).
Proof. intros Hl. unfold load. now rewrite Hl. Qed.

Lemma load_entry_run (h : heap) l e : h !! l = Some (OEntry e) -> load_entry l h = (Ok e, h).
Proof. intros Hl. unfold load_entry. now rewrite (bind_run _ _ h h _ (load_run h l _ Hl)). Qed.

Lemma load_entries_run (h : heap) locs es :
  Forall2 (fun x e => h !! x = Some (OEntry e)) locs es ->
  mapM load_entry locs h = (Ok es, h).
Proof.
  induction 1 as [|x e locs es Hx Hall IH]; [reflexivity|].
  cbn [mapM]. rewrite (bind_run _ _ h h e (load_entry_run h x e Hx)).
  now rewrite (bind_run _ _ h h es IH).
Qed.

(** a collection that the store holds is read back as it is; a missing one
    reads as the empty list *)
Lemma load_collection_run (h : heap) l es :
  holds_entries h l es ->
  exists locs, load_list l h = (Ok locs, h) /\ mapM load_entry locs h = (Ok es, h).
Proof.
  destruct l as [l|]; simpl.
  - intros (locs & Hl & Hall). exists locs. split; [|now apply load_entries_run].
    now rewrite (bind_run _ _ h h _ (load_run h l _ Hl)).
  - intros ->. exists []. split; reflexivity.
Qed.

Lemma load_user_info_run (h : heap) l info :
  holds_user_info h l info -> load_user_info l h = (Ok info, h).
Proof.
  destruct l as [l|]; simpl.
  - intros Hl. now rewrite (bind_run _ _ h h _ (load_run h l _ Hl)).
  - intros ->. reflexivity.
Qed.

Lemma read_input_run (h : heap) self_loc ud_loc self o d info posts comments :
  h !! self_loc = Some (OAnalyzer self) ->
  h !! ud_loc = Some o -> as_user_data o = Some d ->
  holds_entries h (ud_posts d) posts ->
  holds_entries h (ud_comments d) comments ->
  holds_user_info h (ud_user_info d) info ->
  read_input self_loc ud_loc h = (Ok (self, info, posts, comments), h).
Proof.
  intros Hself Hud Ho Hposts Hcomments Hinfo. unfold read_input.
  destruct (load_collection_run h _ _ Hposts) as (pl & Hpl & Hps).
  destruct (load_collection_run h _ _ Hcomments) as (cl & Hcl & Hcs).
  assert (Ha : load_analyzer self_loc h = (Ok self, h)).
  { unfold load_analyzer. now rewrite (bind_run _ _ h h _ (load_run h _ _ Hself)). }
  assert (Hd : load_user_data ud_loc h = (Ok d, h)).
  { unfold load_user_data. now rewrite (bind_run _ _ h h _ (load_run h _ _ Hud)), Ho. }
  rewrite (bind_run _ _ h h _ Ha), (bind_run _ _ h h _ Hd),
    (bind_run _ _ h h _ (load_user_info_run h _ _ Hinfo)), (bind_run _ _ h h _ Hpl),
    (bind_run _ _ h h _ Hcl), (bind_run _ _ h h _ Hps), (bind_run _ _ h h _ Hcs).
  reflexivity.
Qed.

(** an input that is not a dictionary makes [user_data.get] raise, before
    anything else is read *)
Lemma read_input_non_record (h : heap) self_loc ud_loc self o :
  h !! self_loc = Some (OAnalyzer self) ->
  h !! ud_loc = Some o -> is_record o = false ->
  read_input self_loc ud_loc h = (Raise AttributeError, h).
Proof.
  intros Hself Hud Ho. unfold read_input.
  assert (Ha : load_analyzer self_loc h = (Ok self, h)).
  { unfold load_analyzer. now rewrite (bind_run _ _ h h _ (load_run h _ _ Hself)). }
  assert (Hd : load_user_data ud_loc h = (Raise AttributeError, h)).
  { unfold load_user_data. rewrite (bind_run _ _ h h _ (load_run h _ _ Hud)).
    unfold is_record in Ho. destruct (as_user_data o); [discriminate|reflexivity]. }
  now rewrite (bind_run _ _ h h _ Ha), (bind_raise _ _ h h _ Hd).
Qed.

(** a collection that is [None] makes [len] raise, once the user record has
    been read *)
Lemma read_input_null_posts (h : heap) self_loc ud_loc self o d info l :
  h !! self_loc = Some (OAnalyzer self) ->
  h !! ud_loc = Some o -> as_user_data o = Some d ->
  holds_user_info h (ud_user_info d) info ->
  ud_posts d = Some l -> h !! l = Some OOther ->
  read_input self_loc ud_loc h = (Raise TypeError, h).
Proof.
  intros Hself Hud Ho Hinfo Hposts Hl. unfold read_input.
  assert (Ha : load_analyzer self_loc h = (Ok self, h)).
  { unfold load_analyzer. now rewrite (bind_run _ _ h h _ (load_run h _ _ Hself)). }
  assert (Hd : load_user_data ud_loc h = (Ok d, h)).
  { unfold load_user_data. now rewrite (bind_run _ _ h h _ (load_run h _ _ Hud)), Ho. }
  assert (Hp : load_list (ud_posts d) h = (Raise TypeError, h)).
  { rewrite Hposts. unfold load_list. now rewrite (bind_run _ _ h h _ (load_run h _ _ Hl)). }
  now rewrite (bind_run _ _ h h _ Ha), (bind_run _ _ h h _ Hd),
    (bind_run _ _ h h _ (load_user_info_run h _ _ Hinfo)), (bind_raise _ _ h h _ Hp).
Qed.

(** ** The extraction steps always return *)

Lemma extract_motivations_returns self items :
  exists ms, _extract_motivations self items = Ok ms.
Proof.
  unfold _extract_motivations.
  destruct (normalize_spec (max_score (motivation_evidence self items))
              (motivation_evidence self items)) as (ms & Hms & _).
  - apply max_score_positive.
  - apply List.Forall_forall. intros [c ev] Hin. exact (max_score_bound _ c ev Hin).
  - eauto.
Qed.

Lemma infer_returns `{Runtime} basic act items :
  exists p, infer new_analyzer basic act items = Ok p.
Proof.
  unfold infer.
  destruct (extract_motivations_returns new_analyzer items) as (ms & ->).
  destruct (analyze_personality_returns items) as (pers & ->).
  cbn [rbind]. eauto.
Qed.

(** C4, as the code has it: [analyze] raises [AttributeError], with the store
    untouched, when its argument is not a dictionary. On a dictionary whose
    collections, where present, are lists of post and comment dictionaries
    and whose user record, where present, is a dictionary, with the values
    of the types the scraper gives them, it signals nothing: a missing
    collection is read as empty, a missing key takes its default, an
    unparsable timestamp is skipped, and a persona is returned, provided the
    timestamps that do parse can be compared with each other. A dictionary
    whose posts are [None] is fatal in another way: [len] raises
    [TypeError]. *)
Theorem analyze_fails_only_on_non_records `{Runtime} (self_loc ud_loc : loc) (now : datetime)
    (h : heap) (o : obj) (info : user_info) (posts comments : list entry)
    (engine : h !! self_loc = Some (OAnalyzer new_analyzer))
    (input : h !! ud_loc = Some o) :
  match as_user_data o with
  | Some d =>
      (holds_entries h (ud_posts d) posts ->
       holds_entries h (ud_comments d) comments ->
       holds_user_info h (ud_user_info d) info ->
       comparable (parsed_timestamps posts ++ parsed_timestamps comments) ->
       exists p h',
         analyze self_loc ud_loc now h = (Ok p, h')
         /\ total_posts (p_activity p) = length posts
         /\ total_comments (p_activity p) = length comments)
      /\ (holds_user_info h (ud_user_info d) info ->
          (exists l, ud_posts d = Some l /\ h !! l = Some OOther) ->
          analyze self_loc ud_loc now h = (Raise TypeError, h))
  | None => analyze self_loc ud_loc now h = (Raise AttributeError, h)
  end.
Proof.
  destruct (as_user_data o) as [d|] eqn:Ho.
  2:{ unfold analyze.
      rewrite (bind_raise _ _ h h _
                 (read_input_non_record h self_loc ud_loc _ _ engine input
                    ltac:(unfold is_record; now rewrite Ho))).
      reflexivity. }
  split.
  2:{ intros Hinfo (l & Hposts & Hl). unfold analyze.
      now rewrite (bind_raise _ _ h h _
                     (read_input_null_posts h _ _ _ o d info l engine input Ho Hinfo Hposts Hl)). }
  intros Hposts Hcomments Hinfo Hts. unfold analyze.
  rewrite (bind_run _ _ h h _ (read_input_run h _ _ _ o d info posts comments
                                 engine input Ho Hposts Hcomments Hinfo)).
  destruct (activity_tier_spec posts comments Hts) as (frequency & Hfreq & _).
  rewrite Hfreq. rewrite (bind_run _ _ h h frequency) by reflexivity.
  destruct (normalize_items_spec posts comments h) as (items & h' & Hrun & _).
  rewrite (bind_run _ _ h h' _ Hrun).
  destruct (infer_returns (basic_info_of now info)
              (Activity (length posts) (length comments)
                        (_get_active_subreddits posts comments) frequency) items) as (p & Hp).
  exists p, h'. unfold lift. rewrite Hp.
  unfold infer in Hp.
  destruct (_extract_motivations new_analyzer items); cbn [rbind] in Hp; [|discriminate].
  destruct (_analyze_personality new_analyzer items); cbn [rbind] in Hp; [|discriminate].
  injection Hp as <-. repeat split.
Qed.

Lemma analyze_fails_only_on_non_records_witness :
  let h : heap :=
    list_to_map [(0, OAnalyzer Sample.analyzer);
                 (1, OUserData (UserData None None (Some 2)));
                 (2, OList [3; 4]);
                 (3, OEntry (Sample.stamped "I hate slow builds." "not a date"));
                 (4, OEntry (Sample.comment "quiet social party"))] in
  let null_posts : heap :=
    list_to_map [(0, OAnalyzer Sample.analyzer);
                 (1, OUserData (UserData None (Some 2) None));
                 (2, OOther)] in
  (exists p h',
     analyze (H := Sample.runtime) 0 1 Sample.now h = (Ok p, h')
     /\ total_posts (p_activity p) = 0
     /\ total_comments (p_activity p) = 2)
  /\ analyze (H := Sample.runtime) 0 1 Sample.now null_posts = (Raise TypeError, null_posts).
Proof.
  intros h null_posts. split.
  - refine (proj1 (analyze_fails_only_on_non_records (H := Sample.runtime) 0 1 Sample.now h
                     (OUserData (UserData None None (Some 2))) no_user_info []
                     [Sample.stamped "I hate slow builds." "not a date";
                      Sample.comment "quiet social party"]
                     eq_refl eq_refl) eq_refl _ eq_refl _).
    + exists [3; 4]. split; [reflexivity|]. repeat constructor.
    + intros a b Ha Hb. vm_compute in Ha. destruct Ha.
  - exact (proj2 (analyze_fails_only_on_non_records (H := Sample.runtime) 0 1 Sample.now
                    null_posts (OUserData (UserData None (Some 2) None)) no_user_info [] []
                    eq_refl eq_refl)
                 eq_refl (ex_intro _ 2 (conj eq_refl eq_refl))).
Defined.

(** C4 as stated fails: a record without any of the three collections is
    not rejected; it is analyzed as an empty corpus. *)
Lemma missing_collections_are_not_fatal :
  let h : heap :=
    list_to_map [(0, OAnalyzer Sample.analyzer); (1, OUserData (UserData None None None))] in
  h !! 1 = Some (OUserData (UserData None None None))
  /\ (archetype <$> match fst (analyze (H := Sample.runtime) 0 1 Sample.now h) with
                    | Ok p => Some p
                    | Raise _ => None
                    end) = Some "The Creator".
Proof. vm_compute. split; reflexivity. Qed.

(** ** The output does not depend on the addresses *)

Lemma fold_left_commute {S S' X X'} (g : S -> S') (r : X -> X')
    (step : S -> X -> S) (step' : S' -> X' -> S') l :
  (forall s x, In x l -> g (step s x) = step' (g s) (r x)) ->
  forall s, g (fold_left step l s) = fold_left step' (map r l) (g s).
Proof.
  induction l as [|x l IH]; intros Hstep s; [reflexivity|].
  cbn [fold_left map]. rewrite IH.
  - rewrite Hstep by now left. reflexivity.
  - intros s' x' Hx'. apply Hstep. now right.
Qed.

(** a fold whose step commutes with a map of its state *)
Lemma fold_left_state_commute {S S' X} (g : S -> S')
    (step : S -> X -> S) (step' : S' -> X -> S') l :
  (forall s x, g (step s x) = step' (g s) x) ->
  forall s, g (fold_left step l s) = fold_left step' l (g s).
Proof.
  intros Hstep s. rewrite (fold_left_commute g id step step').
  - now rewrite map_id.
  - intros; apply Hstep.
Qed.

Section Relabel.
Variable f : loc -> loc.
Local Abbreviation R := (relabel f).

Lemma item_in_relabel it cs : item_in (R it) (map R cs) = item_in it cs.
Proof.
  unfold item_in. induction cs as [|c cs IH]; [reflexivity|].
  cbn [map existsb]. now rewrite IH.
Qed.

(** *** Demographics *)

Lemma age_step_relabel self it d :
  age_step self (R it) (relabel_field f d) = relabel_field f (age_step self it d).
Proof.
  unfold age_step. cbn [item_data relabel relabel_field value].
  destruct (Re.search _ _ _); [|reflexivity].
  destruct (negb _); [|reflexivity]. destruct (_ && _); reflexivity.
Qed.

Lemma location_step_relabel self it d :
  location_step self (R it) (relabel_field f d) = relabel_field f (location_step self it d).
Proof.
  unfold location_step. cbn [item_data relabel relabel_field value confidence].
  destruct (Re.search _ _ _); [|reflexivity]. destruct (_ || _); reflexivity.
Qed.

Lemma occupation_step_relabel self it d :
  occupation_step self (R it) (relabel_field f d) = relabel_field f (occupation_step self it d).
Proof.
  unfold occupation_step. cbn [item_data relabel relabel_field value confidence].
  destruct (Re.search _ _ _); [|reflexivity]. destruct (_ || _); [|reflexivity].
  destruct (negb _); reflexivity.
Qed.

Lemma status_step_relabel it d :
  status_step (R it) (relabel_field f d) = relabel_field f (status_step it d).
Proof.
  unfold status_step. symmetry.
  apply (fold_left_state_commute (relabel_field f)). intros d' [name indicators].
  apply (fold_left_state_commute (relabel_field f)). intros d'' indicator.
  unfold indicator_step. cbn [item_data relabel relabel_field value confidence].
  destruct (Re.search _ _ _); [|reflexivity]. destruct (_ || _); reflexivity.
Qed.

Lemma extract_demographics_relabel self items :
  _extract_demographics self (map R items)
  = relabel_demographics f (_extract_demographics self items).
Proof.
  unfold _extract_demographics. symmetry.
  rewrite (fold_left_commute (relabel_demographics f) R
             (demographics_step self) (demographics_step self)); [reflexivity|].
  intros d it _. unfold demographics_step, relabel_demographics.
  cbn [age location occupation status].
  now rewrite age_step_relabel, location_step_relabel, occupation_step_relabel,
    status_step_relabel.
Qed.

(** *** Miners *)

Lemma accept_relabel `{Runtime} self it st c :
  accept self (R it) ((relabel_state f) st) c = (relabel_state f) (accept self it st c).
Proof.
  unfold accept. cbn [relabel_state seen traced].
  destruct (is_near_duplicate self (snd c) (seen st)); [reflexivity|].
  unfold relabel_state. cbn [seen traced]. now rewrite map_app.
Qed.

Lemma mine_relabel `{Runtime} self candidates items :
  (forall it, candidates (R it) = candidates it) ->
  mine self candidates (map R items) = (relabel_state f) (mine self candidates items).
Proof.
  intros Hc. unfold mine. symmetry.
  rewrite (fold_left_commute (relabel_state f) R
             (fun st it => fold_left (accept self it) (candidates it) st)
             (fun st it => fold_left (accept self it) (candidates it) st)); [reflexivity|].
  intros st it _. rewrite Hc.
  apply (fold_left_state_commute (relabel_state f)). intros st' c. symmetry. apply accept_relabel.
Qed.

Lemma miner_relabel `{Runtime} self candidates items :
  (forall it, candidates (R it) = candidates it) ->
  map snd (take 10 (traced (mine self candidates (map R items))))
  = map (relabel_fact f) (map snd (take 10 (traced (mine self candidates items)))).
Proof.
  intros Hc. rewrite mine_relabel by assumption. cbn [relabel_state traced].
  rewrite firstn_map, !map_map. reflexivity.
Qed.

(** *** Motivations *)

Lemma bump_relabel it ev : bump (R it) ((relabel_evidence f) ev) = (relabel_evidence f) (bump it ev).
Proof.
  unfold bump, relabel_evidence. cbn [raw cited]. rewrite item_in_relabel.
  destruct (item_in it (cited ev)); [reflexivity|]. now rewrite map_app.
Qed.

Lemma category_step_relabel self it keywords ev :
  category_step self (R it) keywords ((relabel_evidence f) ev)
  = (relabel_evidence f) (category_step self it keywords ev).
Proof.
  unfold category_step. cbn [item_data relabel]. symmetry.
  apply (fold_left_state_commute (relabel_evidence f)). intros ev' _. symmetry. apply bump_relabel.
Qed.

Lemma update_on_values {V V'} (g : V -> V') key (u : V -> V) (u' : V' -> V') d :
  (forall v, g (u v) = u' (g v)) ->
  map (on_values g) (update key u d) = update key u' (map (on_values g) d).
Proof.
  intros Hu. induction d as [|[k v] d IH]; [reflexivity|].
  unfold on_values in *. simpl. destruct (String.eqb k key); simpl.
  - now rewrite Hu.
  - now rewrite IH.
Qed.

Lemma motivation_evidence_relabel self items :
  motivation_evidence self (map R items)
  = map (on_values (relabel_evidence f)) (motivation_evidence self items).
Proof.
  unfold motivation_evidence. symmetry.
  rewrite (fold_left_commute (map (on_values (relabel_evidence f))) R
             (fun st it => fold_left (fun st '(category, keywords) =>
                                        update category (category_step self it keywords) st)
                                     category_keywords st)
             (fun st it => fold_left (fun st '(category, keywords) =>
                                        update category (category_step self it keywords) st)
                                     category_keywords st)); [reflexivity|].
  intros st it _.
  apply (fold_left_state_commute (map (on_values (relabel_evidence f)))).
  intros st' [category keywords]. apply update_on_values.
  intros ev. symmetry. apply category_step_relabel.
Qed.

Lemma max_score_relabel evs : max_score (map (on_values (relabel_evidence f)) evs) = max_score evs.
Proof.
  unfold max_score.
  assert (Hraw : map (fun '(_, ev) => raw ev) (map (on_values (relabel_evidence f)) evs)
                 = map (fun '(_, ev) => raw ev) evs).
  { rewrite map_map. apply map_ext. intros [c ev]. reflexivity. }
  assert (Hex : existsb (fun '(_, ev) => 0 <? raw ev) (map (on_values (relabel_evidence f)) evs)
                = existsb (fun '(_, ev) => 0 <? raw ev) evs).
  { clear Hraw. induction evs as [|[c ev] evs IH]; [reflexivity|]. simpl. now rewrite IH. }
  now rewrite Hraw, Hex.
Qed.

Lemma normalize_relabel mx evs :
  normalize mx (map (on_values (relabel_evidence f)) evs)
  = rmap (map (on_values (relabel_scored f))) (normalize mx evs).
Proof.
  induction evs as [|[c ev] evs IH]; [reflexivity|].
  cbn [map normalize on_values fst snd relabel_evidence raw cited]. rewrite IH.
  destruct (normalized_score (raw ev) mx); [|reflexivity]. cbn [rbind].
  destruct (normalize mx evs); [|reflexivity]. cbn [rbind rmap map on_values fst snd].
  unfold relabel_scored. cbn [sc_score sc_citations]. now rewrite firstn_map.
Qed.

Lemma extract_motivations_relabel self items :
  _extract_motivations self (map R items)
  = rmap (map (on_values (relabel_scored f))) (_extract_motivations self items).
Proof.
  unfold _extract_motivations.
  now rewrite motivation_evidence_relabel, max_score_relabel, normalize_relabel.
Qed.

(** *** Personality *)

Lemma corpus_text_relabel items : corpus_text (map R items) = corpus_text items.
Proof. unfold corpus_text. now rewrite map_map. Qed.

Lemma cite_keywords_relabel keywords items cs :
  cite_keywords keywords (map R items) (map R cs) = map R (cite_keywords keywords items cs).
Proof.
  unfold cite_keywords. symmetry.
  apply (fold_left_state_commute (map R)). intros cs' keyword.
  unfold cite_keyword.
  rewrite (fold_left_commute (map R) R
             (fun cs it =>
                match Re.search true (Re.word_pattern keyword) (lower (text (item_data it))) with
                | Some _ => if item_in it cs then cs else (cs ++ [it])%list
                | None => cs
                end)
             (fun cs it =>
                match Re.search true (Re.word_pattern keyword) (lower (text (item_data it))) with
                | Some _ => if item_in it cs then cs else (cs ++ [it])%list
                | None => cs
                end)); [reflexivity|].
  intros cs'' it _. cbn [item_data relabel].
  destruct (Re.search _ _ _); [|reflexivity]. rewrite item_in_relabel.
  destruct (item_in it cs''); [reflexivity|]. now rewrite map_app.
Qed.

Lemma get_dimension_relabel dimension p :
  get_dimension dimension (relabel_personality f p)
  = relabel_scored f <$> get_dimension dimension p.
Proof.
  unfold get_dimension. repeat (destruct (String.eqb dimension _); [reflexivity|]). reflexivity.
Qed.

Lemma set_dimension_relabel dimension v p :
  set_dimension dimension (relabel_scored f v) (relabel_personality f p)
  = relabel_personality f (set_dimension dimension v p).
Proof.
  unfold set_dimension. repeat (destruct (String.eqb dimension _); [reflexivity|]). reflexivity.
Qed.

Lemma dimension_step_relabel items all_text acc d :
  dimension_step (map R items) all_text (rmap (relabel_personality f) acc) d
  = rmap (relabel_personality f) (dimension_step items all_text acc d).
Proof.
  destruct d as [dimension [[lt lk] [rt rk]]]. unfold dimension_step.
  destruct acc as [p|e]; cbn [rmap rbind]; [|reflexivity].
  rewrite get_dimension_relabel.
  destruct (get_dimension dimension p) as [entry|]; cbn [fmap option_fmap option_map]; [|reflexivity].
  cbn [relabel_scored sc_score sc_citations].
  destruct (dimension_score _ _ _); cbn [rbind rmap]; [|reflexivity].
  rewrite !cite_keywords_relabel, firstn_map.
  exact (f_equal Ok (set_dimension_relabel dimension (Scored _ _) p)).
Qed.

Lemma analyze_personality_relabel self items :
  _analyze_personality self (map R items)
  = rmap (relabel_personality f) (_analyze_personality self items).
Proof.
  unfold _analyze_personality. rewrite corpus_text_relabel. symmetry.
  apply (fold_left_state_commute (rmap (relabel_personality f))).
  intros acc d. symmetry. apply dimension_step_relabel.
Qed.

(** *** Archetype *)

Lemma facts_fold_relabel facts acc :
  fold_left (fun acc x => acc +:+ lower (description x) +:+ " ") (map (relabel_fact f) facts) acc
  = fold_left (fun acc x => acc +:+ lower (description x) +:+ " ") facts acc.
Proof.
  revert acc. induction facts as [|x facts IH]; intros acc; [reflexivity|].
  cbn [map fold_left]. apply IH.
Qed.

Lemma determine_archetype_relabel p :
  _determine_archetype (relabel_persona f p) = _determine_archetype p.
Proof.
  unfold _determine_archetype, archetype_scores, facts_text.
  cbn [relabel_persona p_activity behavior_and_habits frustrations goals_and_needs personality].
  now rewrite !facts_fold_relabel.
Qed.

(** *** The whole inference *)

Lemma infer_relabel `{Runtime} self basic act items :
  (forall d, basic (relabel_demographics f d) = relabel_basic_info f (basic d)) ->
  infer self basic act (map R items) = rmap (relabel_persona f) (infer self basic act items).
Proof.
  intros Hbasic. unfold infer.
  unfold _extract_behaviors_and_habits, behaviors_traced,
    _extract_frustrations, frustrations_traced, _extract_goals_and_needs, goals_traced.
  rewrite extract_demographics_relabel, extract_motivations_relabel,
    analyze_personality_relabel, !miner_relabel by reflexivity.
  destruct (_extract_motivations self items) as [ms|e]; cbn [rmap rbind]; [|reflexivity].
  destruct (_analyze_personality self items) as [pers|e]; cbn [rmap rbind]; [|reflexivity].
  rewrite Hbasic.
  set (p0 := Persona _ act _ _ ms _ pers "").
  rewrite <- (determine_archetype_relabel p0). reflexivity.
Qed.
End Relabel.

(** *** Reading again *)

Lemma reads_ret {A} (a : A) : reads (ret a).
Proof. intros h h1 h' a' _ [= <- <-]. auto. Qed.

Lemma reads_raise {A} e : reads (@raise A e).
Proof. intros h h1 h' a _ [=]. Qed.

Lemma reads_load l : reads (load l).
Proof.
  intros h h1 h' o Hsub. unfold load.
  destruct (h !! l) as [o'|] eqn:Hl; [|discriminate].
  intros [= <- <-]. now rewrite (lookup_weaken _ _ _ _ Hl Hsub).
Qed.

Lemma reads_bind {A B} (m : M A) (f : A -> M B) :
  reads m -> (forall a, reads (f a)) -> reads (bind m f).
Proof.
  intros Hm Hf h h1 h' b Hsub. unfold bind.
  destruct (m h) as [[a|e] h0] eqn:Hmh; [|discriminate].
  destruct (Hm h h1 h0 a Hsub Hmh) as [-> ->]. now apply Hf.
Qed.

Lemma reads_mapM {A B} (f : A -> M B) l : (forall a, reads (f a)) -> reads (mapM f l).
Proof.
  intros Hf. induction l as [|a l IH]; simpl; [apply reads_ret|].
  apply reads_bind; [apply Hf|]. intros b.
  apply reads_bind; [exact IH|]. intros bs. apply reads_ret.
Qed.

Lemma reads_read_input self_loc ud_loc : reads (read_input self_loc ud_loc).
Proof.
  unfold read_input, load_analyzer, load_user_data, load_user_info, load_list, load_entry.
  repeat first
    [ apply reads_ret | apply reads_raise | apply reads_load
    | apply reads_mapM; intros
    | apply reads_bind; [|intros]
    | match goal with |- reads (match ?x with _ => _ end) => destruct x end ].
Qed.

Lemma relabel_by_data (items1 items2 : list item) :
  map item_data items1 = map item_data items2 ->
  map (relabel (fun _ => 0)) items1 = map (relabel (fun _ => 0)) items2.
Proof.
  intros Hdata.
  assert (Hmap : forall l, map (relabel (fun _ => 0)) l = map (Item 0) (map item_data l)).
  { intros l. rewrite map_map. reflexivity. }
  now rewrite !Hmap, Hdata.
Qed.

(** the clock enters the output through the account age only *)
Lemma infer_clock `{Runtime} self (now1 now2 : datetime) info act items :
  infer self (basic_info_of now2 info) act items
  = rmap (with_account_age (_calculate_account_age now2 (u_created_utc info)))
         (infer self (basic_info_of now1 info) act items).
Proof.
  unfold infer.
  destruct (_extract_motivations self items) as [ms|]; [|reflexivity].
  destruct (_analyze_personality self items) as [pers|]; reflexivity.
Qed.

Lemma infer_own_clock `{Runtime} self (now : datetime) info act items :
  infer self (basic_info_of now info) act items
  = rmap (with_account_age (_calculate_account_age now (u_created_utc info)))
         (infer self (basic_info_of now info) act items).
Proof. apply infer_clock. Qed.

Lemma content_with_account_age age r :
  content (rmap (with_account_age age) r) = rmap (with_account_age age) (content r).
Proof. destruct r; reflexivity. Qed.

(** C9, as the code has it: [analyze] has no injectable clock; every call
    reads the clock once, for the account age. Two successive calls on the
    same input return the same content (the same persona up to the
    addresses of its text records, or the same exception) but for the
    account age, which each call computes from its own reading: the two
    outputs are equal when the two readings give the same age. The engine
    object is after each call what it was before the first. *)
Theorem analyze_repeats_up_to_the_clock `{Runtime} (self_loc ud_loc : loc)
    (now1 now2 : datetime) (h : heap) :
  let first := analyze self_loc ud_loc now1 h in
  let second := analyze self_loc ud_loc now2 (snd first) in
  (exists created : option string,
      let age1 := _calculate_account_age now1 created in
      let age2 := _calculate_account_age now2 created in
      content (fst first) = rmap (with_account_age age1) (content (fst first))
      /\ content (fst second) = rmap (with_account_age age2) (content (fst first))
      /\ (age1 = age2 -> content (fst second) = content (fst first)))
  /\ snd first !! self_loc = h !! self_loc
  /\ snd second !! self_loc = h !! self_loc.
Proof.
  cbv zeta.
  destruct (analyze self_loc ud_loc now1 h) as [r1 h1] eqn:E1.
  cbn [fst snd].
  destruct (analyze self_loc ud_loc now2 h1) as [r2 h2] eqn:E2.
  cbn [fst snd]. unfold analyze in E1, E2.
  destruct (read_input self_loc ud_loc h) as [[[[[self info] posts] comments]|e] h0] eqn:Hin.
  - destruct (reads_read_input self_loc ud_loc h h h0 _ (reflexivity h) Hin) as [-> _].
    assert (Hself : exists o, h !! self_loc = Some o).
    { unfold read_input, load_analyzer, bind, load in Hin.
      destruct (h !! self_loc); [eauto|discriminate]. }
    destruct Hself as (o & Hself).
    rewrite (bind_run _ _ h h _ Hin) in E1.
    destruct (_analyze_posting_frequency posts comments) as [frequency|e] eqn:Hfreq.
    + rewrite (bind_run _ _ h h frequency) in E1 by reflexivity.
      destruct (normalize_items_spec posts comments h) as (items1 & h1' & Hrun1 & Hd1 & Hsub1 & _).
      rewrite (bind_run _ _ h h1' _ Hrun1) in E1. unfold lift in E1.
      injection E1 as <- <-.
      destruct (reads_read_input self_loc ud_loc h h1' h _ Hsub1 Hin) as [_ Hin1].
      rewrite (bind_run _ _ h1' h1' _ Hin1), Hfreq in E2.
      rewrite (bind_run _ _ h1' h1' frequency) in E2 by reflexivity.
      destruct (normalize_items_spec posts comments h1') as (items2 & h2' & Hrun2 & Hd2 & Hsub2 & _).
      rewrite (bind_run _ _ h1' h2' _ Hrun2) in E2. unfold lift in E2.
      injection E2 as <- <-.
      assert (Hsecond :
                content (infer self (basic_info_of now2 info)
                           (Activity (length posts) (length comments)
                              (_get_active_subreddits posts comments) frequency) items2)
                = rmap (with_account_age (_calculate_account_age now2 (u_created_utc info)))
                       (content (infer self (basic_info_of now1 info)
                                   (Activity (length posts) (length comments)
                                      (_get_active_subreddits posts comments) frequency) items1))).
      { rewrite (infer_clock self now1 now2), content_with_account_age. f_equal.
        change content with (rmap (relabel_persona (fun _ => 0))).
        rewrite <- (infer_relabel (fun _ => 0) self (basic_info_of now1 info) _ items2)
          by (intros; reflexivity).
        rewrite <- (infer_relabel (fun _ => 0) self (basic_info_of now1 info) _ items1)
          by (intros; reflexivity).
        rewrite (relabel_by_data items1 items2); [reflexivity|now rewrite Hd1, Hd2]. }
      split; [|split].
      * exists (u_created_utc info). split; [|split].
        -- rewrite <- content_with_account_age, <- infer_own_clock. reflexivity.
        -- exact Hsecond.
        -- intros Hage. rewrite Hsecond, <- Hage.
           rewrite <- content_with_account_age, <- infer_own_clock. reflexivity.
      * rewrite Hself. exact (lookup_weaken _ _ _ _ Hself Hsub1).
      * rewrite Hself. apply (lookup_weaken h1'); [|exact Hsub2].
        exact (lookup_weaken _ _ _ _ Hself Hsub1).
    + rewrite (bind_raise _ _ h h e) in E1 by reflexivity. injection E1 as <- <-.
      rewrite (bind_run _ _ h h _ Hin), Hfreq in E2.
      rewrite (bind_raise _ _ h h e) in E2 by reflexivity. injection E2 as <- <-.
      split; [exists None|]; auto.
  - assert (h0 = h) as ->.
    { pose proof (read_only_read_input self_loc ud_loc h) as Hro. now rewrite Hin in Hro. }
    rewrite (bind_raise _ _ h h e Hin) in E1. injection E1 as <- <-.
    rewrite (bind_raise _ _ h h e Hin) in E2. injection E2 as <- <-.
    split; [exists None|]; auto.
Qed.

(** C9 as stated fails: the clock cannot be fixed from outside. The same
    input analyzed at two moments, 400 days apart, gives two outputs. *)
Lemma account_age_changes_between_calls :
  let h : heap :=
    list_to_map [(0, OAnalyzer Sample.analyzer);
                 (1, OUserData (UserData (Some 2) None None));
                 (2, OUserInfo (UserInfo (Some "bob") (Some "0") None None None None))] in
  let later := DateTime (400 * 86400000000) false "Tuesday" 0 in
  let first := analyze (H := Sample.runtime) 0 1 Sample.now h in
  let second := analyze (H := Sample.runtime) 0 1 later (snd first) in
  rmap (fun p => account_age (p_basic_info p)) (fst first) = Ok "0 months"
  /\ rmap (fun p => account_age (p_basic_info p)) (fst second) = Ok "1 year 1 month"
  /\ content (fst second) <> content (fst first).
Proof.
  intros h later first second.
  assert (H1 : rmap (fun p => account_age (p_basic_info p)) (fst first) = Ok "0 months")
    by (vm_compute; reflexivity).
  assert (H2 : rmap (fun p => account_age (p_basic_info p)) (fst second) = Ok "1 year 1 month")
    by (vm_compute; reflexivity).
  split; [exact H1|]. split; [exact H2|].
  intros Heq.
  assert (Hage : rmap (fun p => account_age (p_basic_info p)) (content (fst second))
                 = rmap (fun p => account_age (p_basic_info p)) (content (fst first)))
    by now rewrite Heq.
  assert (Hc : forall r, rmap (fun p => account_age (p_basic_info p)) (content r)
                         = rmap (fun p => account_age (p_basic_info p)) r)
    by (intros [p|e]; reflexivity).
  rewrite !Hc, H1, H2 in Hage. discriminate.
Qed.

(** ** The model on concrete inputs *)

(** the truncated products agree with the floor of the exact quotient except
    at five pairs below 200, where the double falls just short of an integer *)
Lemma truncation_deviations_below_200 :
  truncation_deviations 100 200 = [(29, 50); (29, 100); (57, 100); (58, 100); (87, 150)]%Z
  /\ truncation_deviations 10 200 = [].
Proof. vm_compute. split; reflexivity. Qed.

(** the patterns on typical sentences *)
Example age_pattern_examples :
  let age_in s := Re.search true (age_pattern Sample.analyzer) s ≫= Re.group "age" in
  age_in "hello, I'm 25 years old." = Some "25"
  /\ age_in "i AM 33 yo" = Some "33"
  /\ age_in "I am 125 years old" = None
  /\ age_in "I am 40 y.o." = None
  /\ age_in "I am 40 y.o.x" = Some "40".
Proof. vm_compute. repeat split; reflexivity. Qed.

Example demographic_pattern_examples :
  let location_in s := Re.search false (location_pattern Sample.analyzer) s ≫= Re.group "location" in
  let occupation_in s :=
    Re.search true (occupation_pattern Sample.analyzer) s ≫= Re.group "occupation" in
  location_in "Well, I live in New York City now" = Some "New York City"
  /\ location_in "I live in seattle" = None
  /\ occupation_in "I am an engineer." = Some "engineer"
  /\ occupation_in "I work as a software test engineer at night" = Some "software test engineer".
Proof. vm_compute. repeat split; reflexivity. Qed.

Example miner_pattern_examples :
  Re.split sentence_end "first one.  second one! third? no"
  = ["first one"; "second one"; "third"; "no"]
  /\ template_matches ["I hate"] "well i hate waiting in line, and i hate  rain." 
     = ["i hate waiting in line"; "i hate  rain"]
  /\ occurrences "party" "party at the party-house, no counterparty" = 2.
Proof. vm_compute. repeat split; reflexivity. Qed.

(** the scenarios of the specification *)
Example scenario_age_and_location :
  let it := Sample.comment_at 7 "I'm 25 years old and I live in Seattle." in
  let d := _extract_demographics Sample.analyzer [it] in
  age d = Field (Some 25) 0.9 (Some it) /\ location d = Field (Some "Seattle") 0.8 (Some it).
Proof. vm_compute. split; reflexivity. Qed.

Example scenario_subreddit_affinity :
  let post_in name := Entry (Some "a title") None None None (Some name) None None in
  let posts := (repeat (post_in "AskScience") 12 ++ repeat (post_in "funny") 3)%list in
  let active := _get_active_subreddits posts [] in
  active = [("AskScience", 12); ("funny", 3)]
  /\ List.filter (fun x => negb (snd x =? 0)%Z)
       (subreddit_pass (map (fun s => lower (fst s)) active)
          (map (fun name => (name, 0%Z)) archetype_names))
     = [("The Sage", 2%Z); ("The Jester", 2%Z)].
Proof. vm_compute. split; reflexivity. Qed.


(** the account age is a function of the clock reading *)
Example account_age_follows_the_clock :
  let later := DateTime (400 * 86400000000) false "Tuesday" 0 in
  _calculate_account_age (H := Sample.runtime) Sample.now (Some "0") = "0 months"
  /\ _calculate_account_age (H := Sample.runtime) later (Some "0") = "1 year 1 month"
  /\ _calculate_account_age (H := Sample.runtime) later (Some "yesterday") = "Unknown"
  /\ _calculate_account_age (H := Sample.runtime) later None = "Unknown".
Proof. vm_compute. repeat split; reflexivity. Qed.

(** the frustration miner on two items that both hold a frustration keyword:
    only the second has a negative score above 0.2 *)
Example frustration_scan_example :
  let text_items := [Sample.comment_at 0 "this queue is so annoying today";
                     Sample.comment_at 1 "the noise is annoying and i hate it"] in
  map (fun '(s, f) => (s, description f, item_loc (fact_citation f)))
      (frustrations_traced (H := Sample.runtime) Sample.analyzer text_items)
  = [(KeywordSentence, "The noise is annoying and i hate it", 1)].
Proof. vm_compute. reflexivity. Qed.

(** timestamps with and without a UTC offset cannot be sorted: the call ends
    in [TypeError], which [analyze] does not catch *)
Example mixed_offsets_raise :
  let posts := [Sample.stamped "first" "5"; Sample.stamped "second" "6Z"] in
  map dt_aware (parsed_timestamps (H := Sample.runtime) posts) = [false; true]
  /\ _analyze_posting_frequency (H := Sample.runtime) posts [] = Raise TypeError.
Proof. vm_compute. split; reflexivity. Qed.

(** ** Counters *)
Section CounterFacts.
Context {K : Type} `{EqDecision K}.
Implicit Types (c : list (K * nat)) (k : K) (l : list K).

Lemma times_app k l1 l2 : times k (l1 ++ l2) = times k l1 + times k l2.
Proof. unfold times. now rewrite List.filter_app, length_app. Qed.

Lemma times_one_same k : times k [k] = 1.
Proof. unfold times. simpl. now rewrite bool_decide_eq_true_2. Qed.

Lemma times_one_other k k' : k' <> k -> times k [k'] = 0.
Proof. intros Hne. unfold times. simpl. now rewrite bool_decide_eq_false_2. Qed.

Lemma incr_keys_old k c : In k (map fst c) -> map fst (incr k c) = map fst c.
Proof.
  induction c as [|[k' n] c IH]; simpl; [tauto|]. intros Hin.
  destruct (decide (k' = k)) as [->|Hne].
  - now rewrite bool_decide_eq_true_2.
  - rewrite bool_decide_eq_false_2 by assumption. simpl. rewrite IH; [reflexivity|tauto].
Qed.

Lemma incr_keys_new k c : ~ In k (map fst c) -> map fst (incr k c) = (map fst c ++ [k])%list.
Proof.
  induction c as [|[k' n] c IH]; simpl; [reflexivity|]. intros Hnin.
  rewrite bool_decide_eq_false_2 by tauto. simpl. rewrite IH; [reflexivity|tauto].
Qed.

Lemma incr_In k c k' n :
  NoDup (map fst c) ->
  In (k', n) (incr k c) <->
  (k' <> k /\ In (k', n) c)
  \/ (k' = k /\ ((exists m, In (k, m) c /\ n = S m) \/ (~ In k (map fst c) /\ n = 1))).
Proof.
  induction c as [|[k0 n0] c IH]; simpl; intros Hnd.
  - split.
    + intros [Heq|[]]. injection Heq as <- <-. right. split; [reflexivity|]. right. tauto.
    + intros [[_ []]|[-> [[m [[] _]]|[_ ->]]]]. now left.
  - apply NoDup_cons in Hnd as [Hk0 Hnd]. rewrite list_elem_of_In in Hk0. specialize (IH Hnd).
    destruct (decide (k0 = k)) as [->|Hne].
    + rewrite bool_decide_eq_true_2 by reflexivity. simpl. split.
      * intros [Heq|Hin].
        -- injection Heq as <- <-. right. split; [reflexivity|]. left. exists n0. tauto.
        -- left. split; [|tauto]. intros ->. apply Hk0.
           change k with (fst (k, n)). now apply in_map.
      * intros [[Hne [Heq|Hin]]|[-> [[m [[Heq|Hin] ->]]|[Hnin _]]]].
        -- injection Heq as -> _. contradiction.
        -- now right.
        -- injection Heq as ->. now left.
        -- exfalso. apply Hk0. change k with (fst (k, m)). now apply in_map.
        -- tauto.
    + rewrite bool_decide_eq_false_2 by assumption. simpl. rewrite IH. split.
      * intros [Heq|[[Hk' Hin]|[-> [[m [Hin ->]]|[Hnin ->]]]]].
        -- injection Heq as <- <-. left. split; [assumption|now left].
        -- left. tauto.
        -- right. split; [reflexivity|]. left. exists m. tauto.
        -- right. split; [reflexivity|]. right. split; [|reflexivity]. tauto.
      * intros [[Hk' [Heq|Hin]]|[-> [[m [[Heq|Hin] ->]]|[Hnin ->]]]].
        -- now left.
        -- right. left. tauto.
        -- injection Heq as -> _. contradiction.
        -- right. right. split; [reflexivity|]. left. exists m. tauto.
        -- right. right. split; [reflexivity|]. right. tauto.
Qed.

Lemma incr_counts l c k : counts_of l c -> counts_of (l ++ [k]) (incr k c).
Proof.
  intros [Hnd Hc]. split.
  - destruct (In_dec (fun x y => decide (x = y)) k (map fst c)) as [Hin|Hnin].
    + now rewrite incr_keys_old.
    + rewrite incr_keys_new by assumption.
      apply NoDup_app. split; [assumption|]. split; [|apply NoDup_singleton].
      intros x Hx Hx'. apply list_elem_of_In in Hx, Hx'. destruct Hx' as [<-|[]]. contradiction.
  - intros k' n. rewrite (incr_In _ _ _ _ Hnd), times_app. split.
    + intros [[Hne Hin]|[-> [[m [Hin ->]]|[Hnin ->]]]].
      * apply Hc in Hin as [-> Hpos]. rewrite times_one_other by congruence. lia.
      * apply Hc in Hin as [-> Hpos]. rewrite times_one_same. lia.
      * rewrite times_one_same.
        destruct (times k l) as [|m] eqn:Hm; [lia|]. exfalso. apply Hnin.
        change k with (fst (k, S m)). apply in_map, Hc. lia.
    + intros [-> Hpos]. destruct (decide (k' = k)) as [->|Hne].
      * right. split; [reflexivity|]. rewrite times_one_same.
        destruct (times k l) as [|m] eqn:Hm.
        -- right. split; [|reflexivity]. intros Hin. apply in_map_iff in Hin as [[k0 n0] [Hk0 Hin]].
           simpl in Hk0. subst k0. apply Hc in Hin. lia.
        -- left. exists (S m). split; [|lia]. apply Hc. lia.
      * left. split; [assumption|]. rewrite times_one_other in * by congruence.
        apply Hc. lia.
Qed.

Lemma counts_of_nil : counts_of (@nil K) [].
Proof.
  split; [constructor|]. intros k n. simpl. split; [tauto|]. unfold times. simpl. lia.
Qed.

(** a counter incremented once per key of [l] *)
Lemma fold_incr_counts l : forall l0 c,
  counts_of l0 c -> counts_of (l0 ++ l) (fold_left (fun c k => incr k c) l c).
Proof.
  induction l as [|k l IH]; intros l0 c Hc; simpl.
  - now rewrite app_nil_r.
  - replace (l0 ++ k :: l)%list with ((l0 ++ [k]) ++ l)%list by now rewrite <- app_assoc.
    apply IH, incr_counts, Hc.
Qed.

Lemma insert_desc_In x y c : In y (insert_desc x c) <-> y = x \/ In y c.
Proof.
  induction c as [|z c IH]; simpl; [intuition congruence|].
  destruct (snd z <? snd x); simpl; [intuition congruence|]. rewrite IH. intuition congruence.
Qed.

Lemma insert_desc_ranked x c : ranked c -> ranked (insert_desc x c).
Proof.
  unfold ranked. induction c as [|z c IH]; simpl; intros Hc.
  - constructor; constructor.
  - inversion Hc as [|? ? Hz Hc']; subst.
    destruct (Nat.ltb_spec (snd z) (snd x)) as [Hlt|Hge].
    + constructor; [|assumption]. constructor; [lia|].
      eapply Forall_impl; [exact Hz|]. cbv beta. intros; lia.
    + constructor; [|now apply IH].
      apply List.Forall_forall. intros y Hy. apply insert_desc_In in Hy as [->|Hy]; [assumption|].
      rewrite List.Forall_forall in Hz. now apply Hz.
Qed.

Lemma insert_desc_length x c : length (insert_desc x c) = S (length c).
Proof.
  induction c as [|z c IH]; simpl; [reflexivity|].
  destruct (snd z <? snd x); simpl; congruence.
Qed.

Lemma insert_desc_perm x c : Permutation (insert_desc x c) (x :: c).
Proof.
  induction c as [|z c IH]; simpl; [reflexivity|].
  destruct (snd z <? snd x); [reflexivity|].
  rewrite IH. apply perm_swap.
Qed.

Lemma sort_desc_from c : forall acc,
  ranked acc ->
  ranked (fold_left (fun acc x => insert_desc x acc) c acc)
  /\ Permutation (fold_left (fun acc x => insert_desc x acc) c acc) (acc ++ c).
Proof.
  induction c as [|x c IH]; intros acc Hacc; simpl.
  - split; [assumption|]. now rewrite app_nil_r.
  - destruct (IH (insert_desc x acc) (insert_desc_ranked x acc Hacc)) as [H1 H2].
    split; [assumption|]. rewrite H2, insert_desc_perm.
    simpl. apply Permutation_middle.
Qed.

Lemma sort_desc_ranked c : ranked (sort_desc c).
Proof. apply (sort_desc_from c []). constructor. Qed.

Lemma sort_desc_perm c : Permutation (sort_desc c) c.
Proof. apply (sort_desc_from c []). constructor. Qed.

Lemma ranked_app_inv (l1 l2 : list (K * nat)) :
  ranked (l1 ++ l2) -> forall a b, In a l1 -> In b l2 -> snd b <= snd a.
Proof.
  unfold ranked. induction l1 as [|x l1 IH]; simpl; intros Hr a b Ha Hb; [contradiction|].
  inversion Hr as [|? ? Hx Hr']; subst. destruct Ha as [->|Ha].
  - rewrite List.Forall_forall in Hx. apply Hx, in_or_app. now right.
  - now apply IH.
Qed.

(** [most_common n] of a counter filled from [l]: at most [n] entries with
    distinct keys, ranked, each with the exact number of occurrences of its
    key; a key of [l] that is left out occurs no more often than any key
    listed, and is left out only when [n] keys are listed *)
Lemma most_common_spec n l c :
  counts_of l c ->
  let top := most_common n c in
  length top <= n
  /\ NoDup (map fst top)
  /\ ranked top
  /\ (forall k m, In (k, m) top -> m = times k l /\ 0 < m)
  /\ (forall k, 0 < times k l -> ~ In k (map fst top) ->
        length top = n /\ forall k' m, In (k', m) top -> times k l <= m).
Proof.
  intros [Hnd Hc] top. unfold most_common in top.
  pose proof (sort_desc_ranked c) as Hr. pose proof (sort_desc_perm c) as Hp.
  assert (Hin : forall x, In x top -> In x c).
  { intros x Hx. apply list_elem_of_In. rewrite <- Hp.
    apply list_elem_of_In in Hx. unfold top in Hx.
    apply elem_of_take in Hx as (i & Hi & _).
    eapply list_elem_of_lookup_2; eauto. }
  split; [|split; [|split; [|split]]].
  - unfold top. rewrite length_take. lia.
  - assert (Hnd' : NoDup (map fst (sort_desc c))).
    { now rewrite Hp. }
    unfold top. rewrite <- (take_drop n (sort_desc c)) in Hnd'.
    rewrite map_app in Hnd'. now apply NoDup_app in Hnd' as [? _].
  - unfold top. apply ForallOrdPairs_take. exact Hr.
  - intros k m Hkm. now apply Hc, Hin.
  - intros k Hk Hout.
    assert (Hkc : In (k, times k l) c) by (apply Hc; split; [reflexivity|assumption]).
    assert (Hks : In (k, times k l) (sort_desc c)).
    { apply list_elem_of_In. rewrite Hp. now apply list_elem_of_In. }
    rewrite <- (take_drop n (sort_desc c)) in Hks, Hr.
    apply in_app_or in Hks as [Hks|Hks].
    { exfalso. apply Hout. change k with (fst (k, times k l)). now apply in_map. }
    split.
    + unfold top. rewrite length_take.
      destruct (Nat.le_gt_cases n (length (sort_desc c))) as [Hle|Hgt]; [lia|].
      rewrite drop_ge in Hks by lia. contradiction.
    + intros k' m Hin'. apply (ranked_app_inv _ _ Hr (k', m) (k, times k l) Hin' Hks).
Qed.
End CounterFacts.

(** ** [_get_active_subreddits] *)

Lemma count_subreddits_fold entries : forall c,
  count_subreddits entries c = fold_left (fun c k => incr k c) (counted_subreddits entries) c.
Proof.
  unfold count_subreddits, counted_subreddits.
  induction entries as [|e entries IH]; intros c; simpl; [reflexivity|].
  rewrite IH. destruct (truthy_str (e_subreddit e)); reflexivity.
Qed.

Lemma counted_subreddits_app es1 es2 :
  counted_subreddits (es1 ++ es2) = (counted_subreddits es1 ++ counted_subreddits es2)%list.
Proof. unfold counted_subreddits. apply flat_map_app. Qed.

Lemma times_counted name entries :
  name <> "" -> times name (counted_subreddits entries) = mentions name entries.
Proof.
  intros Hne. unfold times, mentions, counted_subreddits.
  induction entries as [|e entries IH]; simpl; [reflexivity|].
  rewrite List.filter_app, length_app, IH.
  destruct (e_subreddit e) as [s|] eqn:Hs; simpl.
  - destruct (String.eqb_spec s ""); simpl.
    + subst s. rewrite bool_decide_eq_false_2 by congruence. reflexivity.
    + destruct (decide (s = name)) as [->|Hne'].
      * rewrite !bool_decide_eq_true_2 by congruence. reflexivity.
      * rewrite (bool_decide_eq_false_2 (s = name)) by congruence.
        rewrite (bool_decide_eq_false_2 (Some s = Some name)) by congruence. reflexivity.
  - reflexivity.
Qed.

Lemma times_counted_empty entries : times "" (counted_subreddits entries) = 0.
Proof.
  unfold times, counted_subreddits.
  induction entries as [|e entries IH]; simpl; [reflexivity|].
  rewrite List.filter_app, length_app, IH.
  destruct (e_subreddit e) as [s|] eqn:Hs; simpl; [|reflexivity].
  destruct (String.eqb_spec s ""); simpl; [reflexivity|].
  rewrite bool_decide_eq_false_2 by assumption. reflexivity.
Qed.

Lemma subreddit_counter_counts posts comments :
  counts_of (counted_subreddits (posts ++ comments))
            (count_subreddits comments (count_subreddits posts [])).
Proof.
  rewrite !count_subreddits_fold, counted_subreddits_app.
  apply fold_incr_counts. apply (fold_incr_counts _ [] []). apply counts_of_nil.
Qed.

(** X1: every entry of the active-subreddit list carries a non-empty name
    and the exact number of posts and comments made in that subreddit, which
    is at least one; entries without a subreddit, or with an empty one, are
    counted nowhere. *)
Theorem active_subreddits_count_activity (posts comments : list entry) (name : string) (n : nat) :
  In (name, n) (_get_active_subreddits posts comments) ->
  name <> "" /\ n = mentions name (posts ++ comments) /\ 1 <= n.
Proof.
  intros Hin.
  destruct (most_common_spec 10 _ _ (subreddit_counter_counts posts comments))
    as (_ & _ & _ & Hexact & _).
  apply Hexact in Hin as [Hn Hpos].
  assert (Hne : name <> "").
  { intros ->. rewrite times_counted_empty in Hn. lia. }
  rewrite times_counted in Hn by assumption. repeat split; [assumption..|lia].
Qed.

Lemma active_subreddits_count_activity_witness :
  In ("art", 2) (_get_active_subreddits
                   [Entry None None None None (Some "art") None None]
                   [Entry None None None None (Some "art") None None;
                    Entry None None None None (Some "") None None])
  /\ "art" <> "" /\ 2 = 2 /\ 1 <= 2.
Proof.
  split; [left; reflexivity|].
  exact (active_subreddits_count_activity
           [Entry None None None None (Some "art") None None]
           [Entry None None None None (Some "art") None None;
            Entry None None None None (Some "") None None]
           "art" 2 (or_introl eq_refl)).
Defined.

(** X2: the active-subreddit list holds at most ten entries, no subreddit
    twice, in order of non-increasing activity; a subreddit that has activity
    but is not listed was crowded out: ten subreddits are listed and each of
    them has at least as much activity. *)
Theorem active_subreddits_are_the_top_ten (posts comments : list entry) :
  let top := _get_active_subreddits posts comments in
  length top <= 10
  /\ NoDup (map fst top)
  /\ ranked top
  /\ forall name, name <> "" -> 0 < mentions name (posts ++ comments) ->
       ~ In name (map fst top) ->
       length top = 10 /\ forall other n, In (other, n) top -> mentions name (posts ++ comments) <= n.
Proof.
  intros top.
  destruct (most_common_spec 10 _ _ (subreddit_counter_counts posts comments))
    as (Hlen & Hnd & Hr & _ & Hout).
  repeat split; try assumption.
  - intros. rewrite <- times_counted in * by assumption. now apply (Hout name).
  - intros other n Hin. rewrite <- times_counted in * by assumption.
    destruct (Hout name) as [_ Hle]; try assumption. now apply (Hle other).
Qed.

(** ** [_analyze_posting_frequency] *)

Lemma times_perm {K} `{EqDecision K} (k : K) l1 l2 :
  Permutation l1 l2 -> times k l1 = times k l2.
Proof.
  intros Hp. unfold times. induction Hp; simpl.
  - reflexivity.
  - destruct (bool_decide (x = k)); simpl; congruence.
  - destruct (bool_decide (x = k)), (bool_decide (y = k)); reflexivity.
  - congruence.
Qed.

Lemma counts_of_perm {K} `{EqDecision K} (l1 l2 : list K) c :
  Permutation l1 l2 -> counts_of l1 c -> counts_of l2 c.
Proof.
  intros Hp [Hnd Hc]. split; [assumption|].
  intros k n. rewrite Hc. now rewrite (times_perm k l1 l2 Hp).
Qed.

Lemma insert_asc_perm x l : Permutation (insert_asc x l) (x :: l).
Proof.
  induction l as [|y l IH]; simpl; [reflexivity|].
  destruct (dt_ticks x <? dt_ticks y)%Z; [reflexivity|].
  rewrite IH. apply perm_swap.
Qed.

Lemma sort_asc_perm l : forall acc,
  Permutation (fold_left (fun acc x => insert_asc x acc) l acc) (acc ++ l).
Proof.
  induction l as [|x l IH]; intros acc; simpl.
  - now rewrite app_nil_r.
  - rewrite IH, insert_asc_perm. simpl. apply Permutation_middle.
Qed.

(** sorting keeps the timestamps *)
Lemma sort_timestamps_perm ts sorted :
  sort_timestamps ts = Ok sorted -> Permutation sorted ts.
Proof.
  unfold sort_timestamps. destruct ts as [|t0 ts]; [now intros [= <-]|].
  destruct (forallb _ _); [|discriminate]. intros [= <-]. exact (sort_asc_perm (t0 :: ts) []).
Qed.

(** two timestamps of which only one carries a UTC offset cannot be sorted *)
Lemma sort_timestamps_mixed ts a b :
  In a ts -> In b ts -> dt_aware a <> dt_aware b -> sort_timestamps ts = Raise TypeError.
Proof.
  intros Ha Hb Hab. unfold sort_timestamps. destruct ts as [|t0 ts]; [contradiction|].
  destruct (forallb _ _) eqn:Hall; [|reflexivity].
  rewrite forallb_forall in Hall.
  pose proof (Hall a Ha) as Ha'. pose proof (Hall b Hb) as Hb'.
  apply eqb_prop in Ha', Hb'. congruence.
Qed.

Lemma counter_of_keys {X K} `{EqDecision K} (key : X -> K) (xs : list X) :
  counts_of (map key xs) (fold_left (fun c x => incr (key x) c) xs []).
Proof.
  assert (Hfold : forall c, fold_left (fun c x => incr (key x) c) xs c
                            = fold_left (fun c k => incr k c) (map key xs) c).
  { induction xs as [|x xs IH]; intros c; simpl; [reflexivity|apply IH]. }
  rewrite Hfold. apply (fold_incr_counts _ [] []), counts_of_nil.
Qed.

(** X3: when [_analyze_posting_frequency] returns, it lists at most three
    weekdays and at most three hours, each in order of non-increasing count
    and each with the exact number of parsed timestamps that fall on it; a
    weekday or hour with activity that is not listed has no more activity
    than any listed one. *)
Theorem posting_frequency_counts_days_and_hours `{Runtime} (posts comments : list entry)
    (f : posting_frequency) :
  _analyze_posting_frequency posts comments = Ok f ->
  let ts := collected_timestamps posts comments in
  (length (most_active_days f) <= 3 /\ ranked (most_active_days f)
   /\ (forall day n, In (day, n) (most_active_days f) ->
         n = times day (map dt_weekday ts) /\ 1 <= n)
   /\ (forall day, 0 < times day (map dt_weekday ts) -> ~ In day (map fst (most_active_days f)) ->
         forall other n, In (other, n) (most_active_days f) -> times day (map dt_weekday ts) <= n))
  /\ (length (most_active_hours f) <= 3 /\ ranked (most_active_hours f)
      /\ (forall hour n, In (hour, n) (most_active_hours f) ->
            n = times hour (map dt_hour ts) /\ 1 <= n)
      /\ (forall hour, 0 < times hour (map dt_hour ts) -> ~ In hour (map fst (most_active_hours f)) ->
            forall other n, In (other, n) (most_active_hours f) -> times hour (map dt_hour ts) <= n)).
Proof.
  unfold _analyze_posting_frequency, collected_timestamps.
  destruct (parsed_timestamps posts ++ parsed_timestamps comments)%list as [|t ts] eqn:Hts.
  { intros [= <-]. simpl. repeat split; try lia; try constructor; try contradiction. }
  destruct (sort_timestamps (t :: ts)) as [sorted|e] eqn:Hsort; cbn [rbind]; [|discriminate].
  intros [= <-]. cbn [most_active_days most_active_hours].
  pose proof (sort_timestamps_perm _ _ Hsort) as Hp.
  assert (Hdays : counts_of (map dt_weekday (t :: ts))
                            (fold_left (fun c x => incr (dt_weekday x) c) sorted [])).
  { eapply counts_of_perm; [|apply counter_of_keys]. now apply Permutation_map. }
  assert (Hhours : counts_of (map dt_hour (t :: ts))
                             (fold_left (fun c x => incr (dt_hour x) c) sorted [])).
  { eapply counts_of_perm; [|apply counter_of_keys]. now apply Permutation_map. }
  destruct (most_common_spec 3 _ _ Hdays) as (Hd1 & _ & Hd2 & Hd3 & Hd4).
  destruct (most_common_spec 3 _ _ Hhours) as (Hh1 & _ & Hh2 & Hh3 & Hh4).
  split; (split; [assumption|split; [assumption|split]]).
  - intros day n Hin. apply Hd3 in Hin. lia.
  - intros day Hpos Hout. now apply Hd4.
  - intros hour n Hin. apply Hh3 in Hin. lia.
  - intros hour Hpos Hout. now apply Hh4.
Qed.

Lemma posting_frequency_counts_days_and_hours_witness :
  let comments := [Sample.stamped "a" "5"; Sample.stamped "b" "30"; Sample.stamped "c" "6";
                   Sample.stamped "d" "not a date"] in
  exists f, _analyze_posting_frequency (H := Sample.runtime) [] comments = Ok f
            /\ most_active_days f = [("Monday", 2); ("Tuesday", 1)]
            /\ length (most_active_days f) <= 3
            /\ forall day n, In (day, n) (most_active_days f) ->
                 n = times day (map dt_weekday (collected_timestamps (H := Sample.runtime) [] comments))
                 /\ 1 <= n.
Proof.
  intros comments. eexists. split; [reflexivity|]. split; [reflexivity|].
  destruct (posting_frequency_counts_days_and_hours (H := Sample.runtime) [] comments _ eq_refl)
    as [(H1 & _ & H3 & _) _].
  split; [exact H1|exact H3].
Defined.

(** X4: one parsed timestamp that carries a UTC offset next to one that does
    not is fatal: [_analyze_posting_frequency] raises [TypeError] when it
    sorts them, and [analyze], which does not catch it, raises it too, before
    any text record is built and with the store as it was. *)
Theorem mixed_utc_offsets_are_fatal `{Runtime} (self_loc ud_loc : loc) (now : datetime)
    (h : heap) (d : user_data) (info : user_info) (posts comments : list entry)
    (a b : datetime)
    (engine : h !! self_loc = Some (OAnalyzer new_analyzer))
    (input : h !! ud_loc = Some (OUserData d))
    (held_posts : holds_entries h (ud_posts d) posts)
    (held_comments : holds_entries h (ud_comments d) comments)
    (held_info : holds_user_info h (ud_user_info d) info)
    (parsed_a : In a (collected_timestamps posts comments))
    (parsed_b : In b (collected_timestamps posts comments))
    (mixed : dt_aware a <> dt_aware b) :
  _analyze_posting_frequency posts comments = Raise TypeError
  /\ analyze self_loc ud_loc now h = (Raise TypeError, h).
Proof.
  assert (Hfreq : _analyze_posting_frequency posts comments = Raise TypeError).
  { unfold _analyze_posting_frequency. unfold collected_timestamps in *.
    destruct (parsed_timestamps posts ++ parsed_timestamps comments)%list as [|t ts] eqn:Hts;
      [contradiction|].
    now rewrite (sort_timestamps_mixed _ a b parsed_a parsed_b mixed). }
  split; [assumption|]. unfold analyze.
  rewrite (bind_run _ _ h h _ (read_input_run h _ _ _ (OUserData d) d info posts comments
                                 engine input eq_refl held_posts held_comments held_info)).
  rewrite Hfreq. now rewrite (bind_raise _ _ h h TypeError).
Qed.

Lemma mixed_utc_offsets_are_fatal_witness :
  let h : heap :=
    list_to_map [(0, OAnalyzer Sample.analyzer);
                 (1, OUserData (UserData None None (Some 2)));
                 (2, OList [3; 4]);
                 (3, OEntry (Sample.stamped "first" "5"));
                 (4, OEntry (Sample.stamped "second" "7Z"))] in
  analyze (H := Sample.runtime) 0 1 Sample.now h = (Raise TypeError, h).
Proof.
  intros h.
  refine (proj2 (mixed_utc_offsets_are_fatal (H := Sample.runtime) 0 1 Sample.now h
            (UserData None None (Some 2)) no_user_info []
            [Sample.stamped "first" "5"; Sample.stamped "second" "7Z"]
            (DateTime 18000000000 false "Monday" 5) (DateTime 25200000000 true "Monday" 7)
            eq_refl eq_refl eq_refl _ eq_refl _ _ _)).
  - exists [3; 4]. split; [reflexivity|]. repeat constructor.
  - left. reflexivity.
  - right. left. reflexivity.
  - discriminate.
Defined.

(** ** [_calculate_account_age] *)

Lemma string_app_nil (t : string) : "" +:+ t = t.
Proof. reflexivity. Qed.

Lemma string_app_cons c (s t : string) : String c s +:+ t = String c (s +:+ t).
Proof. reflexivity. Qed.

Lemma string_length_app (s t : string) : String.length (s +:+ t) = String.length s + String.length t.
Proof.
  induction s as [|c s IH]; [reflexivity|].
  rewrite string_app_cons. simpl. congruence.
Qed.

Lemma string_app_assoc (s t u : string) : (s +:+ t) +:+ u = s +:+ t +:+ u.
Proof.
  induction s as [|c s IH]; [reflexivity|].
  rewrite !string_app_cons. congruence.
Qed.

Lemma months_text_known prefix months : prefix +:+ months_text months <> "Unknown".
Proof.
  unfold months_text. intros Heq.
  assert (Hlen : String.length (prefix +:+ of_Z months)
                 + 6 + String.length (plural months) = 7).
  { apply (f_equal String.length) in Heq. rewrite !string_length_app in Heq.
    rewrite string_length_app. simpl in Heq. simpl. lia. }
  replace (prefix +:+ of_Z months +:+ " month" +:+ plural months)
    with ((prefix +:+ of_Z months) +:+ " month" +:+ plural months) in Heq
    by now rewrite string_app_assoc.
  destruct (prefix +:+ of_Z months) as [|c [|c' s]]; unfold plural in *;
    destruct (months =? 1)%Z; rewrite ?string_app_cons, ?string_app_nil in Heq;
    simpl in *; try lia; discriminate.
Qed.

(** X5: the account age is "Unknown" exactly when the creation timestamp is
    missing, empty, not parseable, or cannot be subtracted from the clock
    reading because only one of the two carries a UTC offset. *)
Theorem account_age_unknown_iff_unreadable `{Runtime} (now : datetime) (created : option string) :
  _calculate_account_age now created = "Unknown" <-> unreadable now created.
Proof.
  unfold _calculate_account_age, unreadable.
  destruct created as [s|]; simpl; [|tauto].
  destruct (String.eqb_spec s "") as [->|Hne]; simpl; [tauto|].
  destruct (fromisoformat s) as [created_date|]; [|tauto].
  destruct (Bool.eqb (dt_aware now) (dt_aware created_date)) eqn:Haware; simpl.
  - apply eqb_prop in Haware. split; [|intros [?|?]; contradiction].
    intros Heq. exfalso. destruct (0 <? _)%Z.
    + replace (of_Z ((dt_ticks now - dt_ticks created_date) / 86400000000 / 365)
               +:+ " year" +:+ plural ((dt_ticks now - dt_ticks created_date) / 86400000000 / 365)
               +:+ " " +:+ of_Z (((dt_ticks now - dt_ticks created_date) / 86400000000) mod 365 / 30)
               +:+ " month" +:+ plural (((dt_ticks now - dt_ticks created_date) / 86400000000) mod 365 / 30))
        with ((years_text ((dt_ticks now - dt_ticks created_date) / 86400000000 / 365) +:+ " ")
              +:+ months_text (((dt_ticks now - dt_ticks created_date) / 86400000000) mod 365 / 30))
        in Heq.
      * exact (months_text_known _ _ Heq).
      * unfold years_text, months_text. now rewrite !string_app_assoc.
    + exact (months_text_known "" _ Heq).
  - apply eqb_false_iff in Haware. tauto.
Qed.

(** X6: when the creation timestamp can be read against the clock and does
    not lie in the future, the reported age splits the elapsed days into
    years of 365 days and months of 30 days: the months run from 0 to 12 (the
    last five days of a year read as a twelfth month), the age falls short of
    the elapsed days by at most 29 days, and the years are left out of the
    text when there are none. *)
Theorem account_age_splits_elapsed_days `{Runtime} (now created_date : datetime) (s : string) :
  s <> "" ->
  fromisoformat s = Some created_date ->
  dt_aware now = dt_aware created_date ->
  (0 <= elapsed_days now created_date)%Z ->
  exists years months : Z,
    (0 <= years /\ 0 <= months <= 12
     /\ 365 * years + 30 * months <= elapsed_days now created_date <= 365 * years + 30 * months + 29
     /\ elapsed_days now created_date < 365 * (years + 1))%Z
    /\ _calculate_account_age now (Some s)
       = if (years =? 0)%Z then months_text months
         else years_text years +:+ " " +:+ months_text months.
Proof.
  intros Hne Hparse Haware Hdays.
  exists (elapsed_days now created_date / 365)%Z,
         ((elapsed_days now created_date mod 365) / 30)%Z.
  pose proof (Z.div_mod (elapsed_days now created_date) 365 ltac:(lia)) as Hdm.
  pose proof (Z.mod_pos_bound (elapsed_days now created_date) 365 ltac:(lia)) as Hm.
  pose proof (Z.div_mod (elapsed_days now created_date mod 365) 30 ltac:(lia)) as Hdm'.
  pose proof (Z.mod_pos_bound (elapsed_days now created_date mod 365) 30 ltac:(lia)) as Hm'.
  assert (Hy : (0 <= elapsed_days now created_date / 365)%Z) by (apply Z.div_pos; lia).
  split; [lia|].
  unfold _calculate_account_age. simpl.
  destruct (String.eqb_spec s ""); [contradiction|]. simpl. rewrite Hparse, Haware.
  rewrite eqb_reflx. simpl. fold (elapsed_days now created_date).
  destruct (Z.ltb_spec 0 (elapsed_days now created_date / 365)) as [Hpos|Hzero].
  - destruct (Z.eqb_spec (elapsed_days now created_date / 365) 0); [lia|].
    unfold years_text, months_text. now rewrite !string_app_assoc.
  - destruct (Z.eqb_spec (elapsed_days now created_date / 365) 0); [reflexivity|lia].
Qed.

Lemma account_age_splits_elapsed_days_witness :
  let now := DateTime (364 * 86400000000) false "Monday" 0 in
  exists years months : Z,
    (0 <= months <= 12)%Z
    /\ _calculate_account_age (H := Sample.runtime) now (Some "0")
       = (if (years =? 0)%Z then months_text months
          else years_text years +:+ " " +:+ months_text months)
    /\ _calculate_account_age (H := Sample.runtime) now (Some "0") = "12 months".
Proof.
  intros now.
  destruct (account_age_splits_elapsed_days (H := Sample.runtime) now
              (DateTime 0 false "Monday" 0) "0" ltac:(discriminate) eq_refl eq_refl
              ltac:(vm_compute; discriminate))
    as (years & months & (_ & Hmonths & _) & Htext).
  exists years, months. split; [exact Hmonths|]. split; [exact Htext|reflexivity].
Defined.

(** ** [_text_similarity] *)

Lemma jaccard_same (w : gset string) : w <> ∅ -> (jaccard w w == 1)%Q.
Proof.
  intros Hw. unfold jaccard.
  rewrite !bool_decide_eq_false_2 by assumption. cbn [orb].
  assert (w ∩ w = w) as -> by (apply set_eq; intros x; rewrite elem_of_intersection; tauto).
  assert (w ∪ w = w) as -> by (apply set_eq; intros x; rewrite elem_of_union; tauto).
  assert (Hpos : 0 < size w).
  { destruct (size w) eqn:Hsize; [|lia].
    apply size_empty_inv in Hsize. exfalso. apply Hw. now apply leibniz_equiv. }
  destruct (Nat.ltb_spec 0 (size w)); [|lia].
  unfold Qeq. cbn [Qnum Qden]. rewrite Z.mul_1_r, Z.mul_1_l.
  rewrite <- (positive_nat_Z (Pos.of_nat _)), Nat2Pos.id by lia. reflexivity.
Qed.

(** X7: the similarity of two texts lies between 0 and 1, does not depend on
    the order of the two texts nor on their letter case, and a text compared
    with itself scores 1, unless all its words are stop words: then it scores
    0, like any comparison with a text without words. *)
Theorem text_similarity_is_a_jaccard_index `{Runtime} (self : PersonaAnalyzer) (a b : string) :
  (0 <= _text_similarity self a b <= 1)%Q
  /\ _text_similarity self a b = _text_similarity self b a
  /\ _text_similarity self (lower a) b = _text_similarity self a b
  /\ (word_set self a = ∅ -> _text_similarity self a b = 0%Q)
  /\ (word_set self a <> ∅ -> (_text_similarity self a a == 1)%Q).
Proof.
  split; [|split; [apply similarity_sym|split; [|split]]].
  - unfold _text_similarity.
    destruct (bool_decide (word_set self a = ∅) || bool_decide (word_set self b = ∅));
      [split; discriminate|].
    destruct (Nat.ltb_spec 0 (size (word_set self a ∪ word_set self b))) as [Hpos|_];
      [|split; discriminate].
    assert (Hle : size (word_set self a ∩ word_set self b)
                  <= size (word_set self a ∪ word_set self b)).
    { apply subseteq_size. intros x Hx. apply elem_of_intersection in Hx as [Hx _].
      apply elem_of_union. now left. }
    unfold Qle. simpl. split; [lia|].
    rewrite Z.mul_1_r, Z.mul_1_l.
    rewrite <- (positive_nat_Z (Pos.of_nat _)), Nat2Pos.id by lia.
    lia.
  - unfold _text_similarity, word_set. now rewrite lower_idem.
  - intros Hempty. unfold _text_similarity. rewrite Hempty.
    now rewrite bool_decide_eq_true_2.
  - intros Hwords. rewrite similarity_jaccard. now apply jaccard_same.
Qed.

(** ** Candidates without words *)

Lemma accept_wordless `{Runtime} (self : PersonaAnalyzer) it st c :
  word_set self (snd c) = ∅ ->
  traced (accept self it st c)
  = (traced st ++ [(fst c, Fact (capitalize (strip (snd c))) it)])%list.
Proof.
  intros Hempty. unfold accept, is_near_duplicate.
  assert (Hnone : existsb (fun b => Qltb similarity_threshold (_text_similarity self (snd c) b))
                          (elements (seen st)) = false).
  { apply not_true_is_false. intros Hex. apply existsb_exists in Hex as (b & _ & Hb).
    unfold _text_similarity in Hb. rewrite Hempty in Hb.
    rewrite bool_decide_eq_true_2 in Hb by reflexivity. discriminate. }
  now rewrite Hnone.
Qed.

Lemma mine_wordless `{Runtime} (self : PersonaAnalyzer)
    (candidates : item -> list (strategy * string)) (text_items : list item) :
  (forall it c, In it text_items -> In c (candidates it) -> word_set self (snd c) = ∅) ->
  traced (mine self candidates text_items) = proposed_facts candidates text_items.
Proof.
  intros Hwordless.
  assert (Hinner : forall it cs st,
            (forall c, In c cs -> word_set self (snd c) = ∅) ->
            traced (fold_left (accept self it) cs st)
            = (traced st ++ map (fun c => (fst c, Fact (capitalize (strip (snd c))) it)) cs)%list).
  { intros it cs. induction cs as [|c cs IH]; intros st Hcs; simpl.
    - now rewrite app_nil_r.
    - rewrite IH by (intros; apply Hcs; now right).
      rewrite accept_wordless by (apply Hcs; now left).
      now rewrite <- app_assoc. }
  assert (Houter : forall items st,
            (forall it, In it items -> In it text_items) ->
            traced (fold_left (fun st it => fold_left (accept self it) (candidates it) st) items st)
            = (traced st ++ proposed_facts candidates items)%list).
  { induction items as [|it items IH]; intros st Hsub; simpl.
    - now rewrite app_nil_r.
    - rewrite IH by (intros; apply Hsub; now right).
      rewrite Hinner by (intros; eapply Hwordless; [apply Hsub; now left|assumption]).
      now rewrite <- app_assoc. }
  unfold mine. now rewrite Houter.
Qed.

(** X8: the three miners do not deduplicate texts made of stop words only:
    when every candidate of a corpus has an empty word set, each one is
    accepted, whatever was accepted before, and the collection is simply the
    first ten proposed facts, repetitions included. *)
Theorem wordless_candidates_are_all_kept `{Runtime} (self : PersonaAnalyzer)
    (text_items : list item) :
  let wordless candidates :=
    forall it c, In it text_items -> In c (candidates it) -> word_set self (snd c) = ∅ in
  let kept candidates := map snd (take 10 (proposed_facts candidates text_items)) in
  (wordless (behavior_candidates self) ->
   _extract_behaviors_and_habits self text_items = kept (behavior_candidates self))
  /\ (wordless (frustration_candidates self) ->
      _extract_frustrations self text_items = kept (frustration_candidates self))
  /\ (wordless (goal_candidates self) ->
      _extract_goals_and_needs self text_items = kept (goal_candidates self)).
Proof.
  intros wordless kept. repeat split; intros Hw; unfold kept.
  - unfold _extract_behaviors_and_habits, behaviors_traced. now rewrite mine_wordless.
  - unfold _extract_frustrations, frustrations_traced. now rewrite mine_wordless.
  - unfold _extract_goals_and_needs, goals_traced. now rewrite mine_wordless.
Qed.

Lemma wordless_candidates_are_all_kept_witness :
  let text_items := [Sample.comment_at 0 "You should not do that to me";
                     Sample.comment_at 1 "You should not do that to me"] in
  map description (_extract_goals_and_needs (H := Sample.runtime) Sample.analyzer text_items)
  = ["You should not do that to me"; "You should not do that to me"].
Proof.
  intros text_items.
  destruct (wordless_candidates_are_all_kept (H := Sample.runtime) Sample.analyzer text_items)
    as (_ & _ & Hgoals).
  rewrite Hgoals; [reflexivity|].
  intros it c [<-|[<-|[]]] Hc; vm_compute in Hc; destruct Hc as [<-|[]]; reflexivity.
Defined.

(** ** The matcher is sound for [spans] *)
Section MatcherSound.
Context {A : Type}.
Variable icase : bool.

Lemma rep_loop_sound r :
  (forall st (k : Re.mstate -> option A) a,
     Re.run icase r st k = Some a -> exists st', spans icase r st st' /\ k st' = Some a) ->
  forall fuel lo hi cnt st (k : Re.mstate -> option A) a,
    Re.rep_loop (Re.run icase r) lo hi fuel cnt st k = Some a ->
    exists st', spans icase (Re.Rep r (lo - cnt) ((fun h => h - cnt) <$> hi)) st st'
                /\ k st' = Some a.
Proof.
  intros IHr. induction fuel as [|fuel IH]; intros lo hi cnt st k a Hrun.
  - simpl in Hrun. destruct (Nat.leb_spec lo cnt) as [Hle|]; [|discriminate].
    exists st. split; [|assumption].
    replace (lo - cnt) with 0 by lia. constructor.
  - cbn [Re.rep_loop] in Hrun.
    assert (Hstop : (if lo <=? cnt then k st else None) = Some a ->
                    exists st', spans icase (Re.Rep r (lo - cnt) ((fun h => h - cnt) <$> hi)) st st'
                                /\ k st' = Some a).
    { intros Hs. destruct (Nat.leb_spec lo cnt) as [Hle|]; [|discriminate].
      exists st. split; [|assumption]. replace (lo - cnt) with 0 by lia. constructor. }
    destruct (match hi with Some h => cnt <? h | None => true end) eqn:Hhi; [|auto].
    destruct (Re.run icase r st _) as [a'|] eqn:Hbody; [|auto].
    injection Hrun as ->.
    apply IHr in Hbody as (st1 & Hst1 & Hk).
    destruct (Nat.ltb_spec (Re.pos (Re.cur st)) (Re.pos (Re.cur st1))) as [Hprog|]; [|discriminate].
    apply IH in Hk as (st2 & Hst2 & Hk2).
    exists st2. split; [|assumption].
    eapply spans_rep_more; [|exact Hst1|exact Hprog|].
    + destruct hi as [h|]; [|discriminate]. simpl.
      apply Nat.ltb_lt in Hhi. intros [= Hz]. lia.
    + replace (pred (lo - cnt)) with (lo - S cnt) by lia.
      replace (pred <$> ((fun h => h - cnt) <$> hi)) with ((fun h => h - S cnt) <$> hi);
        [exact Hst2|].
      destruct hi as [h|]; simpl; [f_equal; lia|reflexivity].
Qed.

Lemma run_sound r : forall st (k : Re.mstate -> option A) a,
  Re.run icase r st k = Some a -> exists st', spans icase r st st' /\ k st' = Some a.
Proof.
  induction r as [|c|negated ranges| | | |r1 IH1 r2 IH2|r1 IH1 r2 IH2|r IH lo hi|name r IH];
    intros st k a Hrun; cbn [Re.run] in Hrun.
  - exists st. split; [constructor|assumption].
  - destruct (Re.step1 _ st) as [st'|] eqn:Hstep; [|discriminate].
    exists st'. split; [now constructor|assumption].
  - destruct (Re.step1 _ st) as [st'|] eqn:Hstep; [|discriminate].
    exists st'. split; [now constructor|assumption].
  - destruct (Re.step1 _ st) as [st'|] eqn:Hstep; [|discriminate].
    exists st'. split; [now constructor|assumption].
  - destruct (Re.step1 _ st) as [st'|] eqn:Hstep; [|discriminate].
    exists st'. split; [now constructor|assumption].
  - destruct (Re.at_boundary (Re.cur st)) eqn:Hb; [|discriminate].
    exists st. split; [now constructor|assumption].
  - apply IH1 in Hrun as (st1 & H1 & Hrun). apply IH2 in Hrun as (st2 & H2 & Hk).
    exists st2. split; [econstructor; eassumption|assumption].
  - destruct (Re.run icase r1 st k) as [a'|] eqn:Hleft.
    + injection Hrun as ->. apply IH1 in Hleft as (st' & H1 & Hk).
      exists st'. split; [now apply spans_alt_l|assumption].
    + apply IH2 in Hrun as (st' & H2 & Hk).
      exists st'. split; [now apply spans_alt_r|assumption].
  - apply (rep_loop_sound r IH) in Hrun as (st' & Hst' & Hk).
    exists st'. split; [|assumption].
    replace (lo - 0) with lo in Hst' by lia.
    replace ((fun h => h - 0) <$> hi) with hi in Hst'; [assumption|].
    destruct hi as [h|]; simpl; [f_equal; lia|reflexivity].
  - apply IH in Hrun as (st' & Hst' & Hk).
    eexists. split; [apply spans_group; exact Hst'|exact Hk].
Qed.
End MatcherSound.

Lemma step1_consumed p st st' :
  Re.step1 p st = Some st' ->
  exists x, p x = true /\ consumed st st' [x] /\ Re.groups st' = Re.groups st.
Proof.
  unfold Re.step1, consumed. destruct (Re.after (Re.cur st)) as [|x rest] eqn:Hafter; [discriminate|].
  destruct (p x) eqn:Hp; [|discriminate]. intros [= <-]. exists x. simpl. auto.
Qed.

Lemma consumed_refl st : consumed st st [].
Proof. split; reflexivity. Qed.

Lemma consumed_trans st st1 st2 w1 w2 :
  consumed st st1 w1 -> consumed st1 st2 w2 -> consumed st st2 (w1 ++ w2).
Proof.
  intros [Ha1 Hb1] [Ha2 Hb2]. split.
  - now rewrite Ha1, Ha2, <- app_assoc.
  - now rewrite Hb2, Hb1, rev_app_distr, <- app_assoc.
Qed.

Lemma consumed_pos st st' w : consumed st st' w -> Re.pos (Re.cur st') = length w + Re.pos (Re.cur st).
Proof. intros [_ Hb]. unfold Re.pos. now rewrite Hb, length_app, length_rev. Qed.

(** the text between two states, as a group or a match records it *)
Lemma consumed_text st st' w :
  consumed st st' w ->
  str (rev (firstn (Re.pos (Re.cur st') - Re.pos (Re.cur st)) (Re.before (Re.cur st')))) = str w.
Proof.
  intros Hc. rewrite (consumed_pos _ _ _ Hc). destruct Hc as [_ Hb]. rewrite Hb.
  replace (length w + Re.pos (Re.cur st) - Re.pos (Re.cur st)) with (length (rev w))
    by (rewrite length_rev; lia).
  rewrite firstn_app, Nat.sub_diag, firstn_all. simpl. now rewrite app_nil_r, rev_involutive.
Qed.

(** every span consumes a piece of the input and leaves the rest *)
Lemma spans_consumed icase r st st' : spans icase r st st' -> exists w, consumed st st' w.
Proof.
  induction 1 as [st|c st st' Hs|negated ranges st st' Hs|st st' Hs|st st' Hs|st Hb
                  |r1 r2 st st1 st2 _ [w1 H1] _ [w2 H2]|r1 r2 st st' _ IH|r1 r2 st st' _ IH
                  |r hi st|r lo hi st st1 st2 _ _ [w1 H1] _ _ [w2 H2]|name r st st' _ [w Hw]].
  - exists []. apply consumed_refl.
  - apply step1_consumed in Hs as (x & _ & Hc & _). eauto.
  - apply step1_consumed in Hs as (x & _ & Hc & _). eauto.
  - apply step1_consumed in Hs as (x & _ & Hc & _). eauto.
  - apply step1_consumed in Hs as (x & _ & Hc & _). eauto.
  - exists []. apply consumed_refl.
  - exists (w1 ++ w2)%list. eapply consumed_trans; eassumption.
  - assumption.
  - assumption.
  - exists []. apply consumed_refl.
  - exists (w1 ++ w2)%list. eapply consumed_trans; eassumption.
  - exists w. exact Hw.
Qed.

(** a pattern without groups records none *)
Lemma spans_group_free icase r st st' :
  spans icase r st st' -> group_free r = true -> Re.groups st' = Re.groups st.
Proof.
  induction 1 as [st|c st st' Hs|negated ranges st st' Hs|st st' Hs|st st' Hs|st Hb
                  |r1 r2 st st1 st2 _ IH1 _ IH2|r1 r2 st st' _ IH|r1 r2 st st' _ IH
                  |r hi st|r lo hi st st1 st2 _ _ IH1 _ _ IH2|name r st st' _ IH];
    simpl; intros Hfree; try reflexivity;
    try (apply step1_consumed in Hs as (x & _ & _ & Hg); exact Hg).
  - apply andb_prop in Hfree as [Hf1 Hf2]. now rewrite IH2, IH1.
  - apply andb_prop in Hfree as [Hf1 _]. now apply IH.
  - apply andb_prop in Hfree as [_ Hf2]. now apply IH.
  - now rewrite IH2, IH1.
  - discriminate.
Qed.

(** a match anchored at a cursor: the pattern spans from the cursor to the
    end of the match, and [group(0)] is the text in between *)
Lemma match_at_sound icase r c m :
  Re.match_at icase r c = Some m ->
  exists st' w,
    spans icase r (Re.MState c []) st'
    /\ consumed (Re.MState c []) st' w
    /\ Re.group_0 m = str w
    /\ Re.m_groups m = Re.groups st'
    /\ Re.m_start m = Re.pos c
    /\ Re.m_end m = length w + Re.pos c.
Proof.
  unfold Re.match_at. intros Hrun. apply run_sound in Hrun as (st' & Hspans & Hk).
  destruct (spans_consumed _ _ _ _ Hspans) as [w Hw].
  exists st', w. injection Hk as <-. cbn [Re.group_0 Re.m_groups Re.m_start Re.m_end].
  split; [assumption|]. split; [assumption|].
  split; [exact (consumed_text _ _ _ Hw)|]. split; [reflexivity|]. split; [reflexivity|].
  exact (consumed_pos _ _ _ Hw).
Qed.

Lemma later_cursor_refl c : later_cursor c c.
Proof. exists []. split; reflexivity. Qed.

Lemma later_cursor_advance c c' c'' :
  later_cursor c c' -> Re.advance c' = Some c'' -> later_cursor c c''.
Proof.
  intros (w & Ha & Hb). unfold Re.advance.
  destruct (Re.after c') as [|x rest] eqn:Hafter; [discriminate|]. intros [= <-].
  exists (w ++ [x])%list. simpl. split.
  - now rewrite Ha, <- app_assoc.
  - now rewrite Hb, rev_app_distr.
Qed.

Lemma later_cursor_trans c c' c'' : later_cursor c c' -> later_cursor c' c'' -> later_cursor c c''.
Proof.
  intros (w1 & Ha1 & Hb1) (w2 & Ha2 & Hb2). exists (w1 ++ w2)%list. split.
  - now rewrite Ha1, Ha2, <- app_assoc.
  - now rewrite Hb2, Hb1, rev_app_distr, <- app_assoc.
Qed.

(** [search] returns a match anchored at some cursor of the subject *)
Lemma search_from_sound icase r fuel : forall c m,
  Re.search_from icase r fuel c = Some m ->
  exists c', later_cursor c c' /\ Re.match_at icase r c' = Some m.
Proof.
  induction fuel as [|fuel IH]; intros c m; simpl.
  - destruct (Re.match_at icase r c) as [m'|] eqn:Hm.
    + intros [= <-]. exists c. split; [apply later_cursor_refl|assumption].
    + discriminate.
  - destruct (Re.match_at icase r c) as [m'|] eqn:Hm.
    + intros [= <-]. exists c. split; [apply later_cursor_refl|assumption].
    + destruct (Re.advance c) as [c1|] eqn:Hadv; [|discriminate].
      intros Hs. apply IH in Hs as (c' & Hlater & Hmatch).
      exists c'. split; [|assumption].
      eapply later_cursor_trans; [|exact Hlater].
      eapply later_cursor_advance; [apply later_cursor_refl|exact Hadv].
Qed.

Lemma search_sound icase r s m :
  Re.search icase r s = Some m -> exists c, Re.match_at icase r c = Some m.
Proof. intros Hs. apply search_from_sound in Hs as (c & _ & Hm). eauto. Qed.

(** every match [finditer] yields is a match anchored at some cursor *)
Lemma finditer_from_sound icase r fuel : forall c m,
  In m (Re.finditer_from icase r fuel c) -> exists c', Re.match_at icase r c' = Some m.
Proof.
  induction fuel as [|fuel IH]; intros c m; simpl; [contradiction|].
  destruct (Re.search_from icase r (length (Re.after c)) c) as [m0|] eqn:Hs; [|contradiction].
  assert (H0 : exists c', Re.match_at icase r c' = Some m0).
  { apply search_from_sound in Hs as (c' & _ & Hm). eauto. }
  destruct (Re.m_start m0 <? Re.m_end m0).
  - intros [<-|Hin]; [assumption|]. now apply IH in Hin.
  - destruct (Re.advance _) as [c1|].
    + intros [<-|Hin]; [assumption|]. now apply IH in Hin.
    + intros [<-|[]]. assumption.
Qed.

Lemma finditer_sound icase r s m :
  In m (Re.finditer icase r s) -> exists c, Re.match_at icase r c = Some m.
Proof. apply finditer_from_sound. Qed.

(** ** Reading a span back *)

Lemma spans_seq_inv icase r1 r2 st st' :
  spans icase (Re.Seq r1 r2) st st' ->
  exists st1, spans icase r1 st st1 /\ spans icase r2 st1 st'.
Proof. inversion 1; subst. eauto. Qed.

Lemma consumed_unique st st' w w' : consumed st st' w -> consumed st st' w' -> w = w'.
Proof.
  intros [_ Hb] [_ Hb']. rewrite Hb in Hb'. apply app_inv_tail in Hb'.
  apply (f_equal (@rev ascii)) in Hb'. now rewrite !rev_involutive in Hb'.
Qed.

Lemma spans_group_inv icase name r st st' :
  spans icase (Re.Group name r) st st' ->
  exists st1 w, spans icase r st st1 /\ consumed st st1 w
                /\ st' = Re.MState (Re.cur st1) ((name, str w) :: Re.groups st1).
Proof.
  inversion 1 as [| | | | | | | | | | |? ? ? st1 Hr]; subst.
  destruct (spans_consumed _ _ _ _ Hr) as [w Hw].
  exists st1, w. rewrite (consumed_text _ _ _ Hw). auto.
Qed.

Lemma spans_bound_inv icase st st' : spans icase Re.Bound st st' -> st' = st.
Proof. now inversion 1. Qed.

Lemma spans_set_inv icase negated ranges st st' :
  spans icase (Re.Set_ negated ranges) st st' ->
  exists x, Re.set_matches icase negated ranges x = true /\ consumed st st' [x]
            /\ Re.groups st' = Re.groups st.
Proof. inversion 1; subst. now apply step1_consumed. Qed.

Lemma spans_chr_inv icase c st st' :
  spans icase (Re.Chr c) st st' ->
  exists x, Re.chr_matches icase c x = true /\ consumed st st' [x]
            /\ Re.groups st' = Re.groups st.
Proof. inversion 1; subst. now apply step1_consumed. Qed.

(** a repetition that must run at least once consumes something *)
Lemma spans_plus_inv icase r lo hi st st' :
  spans icase (Re.Rep r (S lo) hi) st st' ->
  exists w, consumed st st' w /\ w <> [].
Proof.
  inversion 1 as [| | | | | | | | | |? ? ? ? st1 ? _ Hr Hprog Hrest|]; subst.
  destruct (spans_consumed _ _ _ _ Hr) as [w1 Hw1].
  destruct (spans_consumed _ _ _ _ Hrest) as [w2 Hw2].
  exists (w1 ++ w2)%list. split; [eapply consumed_trans; eassumption|].
  rewrite (consumed_pos _ _ _ Hw1) in Hprog. destruct w1; [simpl in Hprog; lia|discriminate].
Qed.

Lemma truthy_str_chars w : w <> [] -> truthy_str (Some (str w)) = true.
Proof. destruct w; [contradiction|reflexivity]. Qed.

(** ** The location field *)

Lemma location_group `{Runtime} c m :
  Re.match_at false (location_pattern new_analyzer) c = Some m ->
  exists x w, Re.group "location" m = Some (str (x :: w)) /\ is_upper x = true.
Proof.
  intros Hm. apply match_at_sound in Hm as (st' & w0 & Hspans & _ & _ & Hgroups & _).
  cbn [location_pattern new_analyzer Re.seq] in Hspans.
  apply spans_seq_inv in Hspans as (s1 & H1 & Hspans).
  apply spans_seq_inv in Hspans as (s2 & H2 & Hspans).
  apply spans_seq_inv in Hspans as (s3 & H3 & Hspans).
  apply spans_seq_inv in Hspans as (s4 & H4 & Hspans).
  apply spans_seq_inv in Hspans as (s5 & H5 & H6).
  apply spans_group_free in H1, H2, H3, H4; try reflexivity.
  apply spans_bound_inv in H6. subst st'.
  apply spans_group_inv in H5 as (s6 & w & Hbody & Hw & ->).
  pose proof (spans_group_free _ _ _ _ Hbody eq_refl) as Hg6.
  apply spans_seq_inv in Hbody as (s7 & Hupper & Hrest).
  apply spans_set_inv in Hupper as (x & Hx & Hcx & _).
  destruct (spans_consumed _ _ _ _ Hrest) as [w2 Hw2].
  pose proof (consumed_unique _ _ _ _ Hw (consumed_trans _ _ _ _ _ Hcx Hw2)) as ->.
  exists x, w2. split.
  - unfold Re.group. rewrite Hgroups. reflexivity.
  - unfold Re.set_matches, Re.in_ranges, upper_class, range in Hx. simpl in Hx.
    unfold is_upper. now rewrite orb_false_r in Hx.
Qed.

Lemma leading_location_truthy `{Runtime} it v :
  leading_location new_analyzer it = Some v ->
  truthy_str (Some v) = true /\ exists x rest, v = String x rest /\ is_upper x = true.
Proof.
  unfold leading_location.
  destruct (Re.search false _ _) as [m|] eqn:Hs; [|discriminate]. intros [= <-].
  apply search_sound in Hs as [c Hm]. apply location_group in Hm as (x & w & -> & Hx).
  split; [reflexivity|]. exists x, (str w). split; [reflexivity|assumption].
Qed.

Lemma location_of_fold self text_items : forall d,
  location (fold_left (demographics_step self) text_items d)
  = fold_left (fun a it => location_step self it a) text_items (location d).
Proof.
  induction text_items as [|it rest IH]; intros d; simpl; [reflexivity|].
  rewrite IH. reflexivity.
Qed.

(** a field that holds a non-empty value with the confidence its extractor
    assigns is left alone *)
Lemma location_step_set self it v cited :
  truthy_str (Some v) = true ->
  location_step self it (Field (Some v) 0.8 cited) = Field (Some v) 0.8 cited.
Proof.
  intros Hv. unfold location_step. cbn [value confidence]. rewrite Hv.
  destruct (Re.search false (location_pattern self) (text (item_data it))); reflexivity.
Qed.

Lemma location_fold_set self text_items v cited :
  truthy_str (Some v) = true ->
  fold_left (fun a it => location_step self it a) text_items (Field (Some v) 0.8 cited)
  = Field (Some v) 0.8 cited.
Proof.
  intros Hv. induction text_items as [|it rest IH]; simpl; [reflexivity|].
  rewrite location_step_set by assumption. exact IH.
Qed.

Lemma location_fold_unset `{Runtime} text_items :
  fold_left (fun a it => location_step new_analyzer it a) text_items (Field None 0 None)
  = match first_located_item new_analyzer text_items with
    | Some (v, it) => Field (Some v) 0.8 (Some it)
    | None => Field None 0 None
    end.
Proof.
  unfold first_located_item.
  induction text_items as [|it rest IH]; [reflexivity|].
  cbn [fold_left flat_map].
  destruct (leading_location new_analyzer it) as [v|] eqn:Hlead.
  - cbn [app head]. destruct (leading_location_truthy _ _ Hlead) as [Hv _].
    unfold leading_location in Hlead. unfold location_step at 2.
    destruct (Re.search false _ _) as [m|]; [|discriminate].
    injection Hlead as <-. cbn [value negb orb truthy_str].
    now apply location_fold_set.
  - unfold leading_location in Hlead. unfold location_step at 2.
    destruct (Re.search false _ _) as [m|]; [discriminate|]. exact IH.
Qed.

(** X9: the location field takes the location named by the leftmost match
    of the first item, in corpus order, that matches the location pattern,
    with confidence 0.8 and that item as citation; the name is never empty
    and starts with a capital letter; once set, the field is never replaced,
    whatever follows in the corpus. Without any match it stays unset. *)
Theorem location_is_first_stated `{Runtime} (text_items more : list item) :
  location (_extract_demographics new_analyzer text_items)
  = match first_located_item new_analyzer text_items with
    | Some (v, it) => Field (Some v) 0.8 (Some it)
    | None => Field None 0 None
    end
  /\ (forall v it, first_located_item new_analyzer text_items = Some (v, it) ->
        In it text_items /\ exists x rest, v = String x rest /\ is_upper x = true)
  /\ (first_located_item new_analyzer text_items <> None ->
      location (_extract_demographics new_analyzer (text_items ++ more))
      = location (_extract_demographics new_analyzer text_items)).
Proof.
  assert (Hfirst : location (_extract_demographics new_analyzer text_items)
                   = match first_located_item new_analyzer text_items with
                     | Some (v, it) => Field (Some v) 0.8 (Some it)
                     | None => Field None 0 None
                     end).
  { unfold _extract_demographics. rewrite location_of_fold. apply location_fold_unset. }
  assert (Hhead : forall v it, first_located_item new_analyzer text_items = Some (v, it) ->
                    In it text_items /\ leading_location new_analyzer it = Some v).
  { unfold first_located_item. intros v it Hh.
    assert (Hin : In (v, it) (flat_map (fun it => match leading_location new_analyzer it with
                                                  | Some v => [(v, it)]
                                                  | None => []
                                                  end) text_items)).
    { destruct (flat_map _ text_items) as [|p l]; [discriminate|].
      injection Hh as ->. now left. }
    apply in_flat_map in Hin as (it' & Hin' & Hv).
    destruct (leading_location new_analyzer it') as [v'|] eqn:Hlead; [|contradiction].
    destruct Hv as [[= -> ->]|[]]. auto. }
  split; [exact Hfirst|split].
  - intros v it Hh. destruct (Hhead v it Hh) as [Hin Hlead].
    split; [assumption|]. now destruct (leading_location_truthy _ _ Hlead).
  - intros Hsome. unfold _extract_demographics in *.
    rewrite fold_left_app, location_of_fold, Hfirst.
    destruct (first_located_item new_analyzer text_items) as [[v it]|] eqn:Hh; [|contradiction].
    apply location_fold_set. destruct (Hhead v it eq_refl) as [_ Hlead].
    now destruct (leading_location_truthy _ _ Hlead).
Qed.

(** ** The occupation field *)

Lemma occupation_group `{Runtime} c m :
  Re.match_at true (occupation_pattern new_analyzer) c = Some m ->
  exists w, Re.group "occupation" m = Some (str w) /\ w <> [].
Proof.
  intros Hm. apply match_at_sound in Hm as (st' & w0 & Hspans & _ & _ & Hgroups & _).
  cbn [occupation_pattern new_analyzer Re.seq] in Hspans.
  apply spans_seq_inv in Hspans as (s1 & H1 & Hspans).
  apply spans_seq_inv in Hspans as (s2 & H2 & Hspans).
  apply spans_seq_inv in Hspans as (s3 & H3 & Hspans).
  apply spans_seq_inv in Hspans as (s4 & H4 & Hspans).
  apply spans_seq_inv in Hspans as (s5 & H5 & Hspans).
  apply spans_seq_inv in Hspans as (s6 & H6 & Hspans).
  apply spans_seq_inv in Hspans as (s7 & H7 & H8).
  apply spans_bound_inv in H8. subst st'.
  apply spans_group_inv in H7 as (s8 & w & Hbody & Hw & ->).
  apply spans_seq_inv in Hbody as (s9 & Hword & Hrest).
  apply spans_plus_inv in Hword as (w1 & Hw1 & Hne).
  destruct (spans_consumed _ _ _ _ Hrest) as [w2 Hw2].
  pose proof (consumed_unique _ _ _ _ Hw (consumed_trans _ _ _ _ _ Hw1 Hw2)) as ->.
  exists (w1 ++ w2)%list. split.
  - unfold Re.group. rewrite Hgroups. reflexivity.
  - destruct w1; [contradiction|discriminate].
Qed.

Lemma leading_occupation_truthy `{Runtime} it v :
  leading_occupation new_analyzer it = Some v -> truthy_str (Some v) = true.
Proof.
  unfold leading_occupation.
  destruct (Re.search true _ _) as [m|] eqn:Hs; [|discriminate]. intros [= <-].
  apply search_sound in Hs as [c Hm]. apply occupation_group in Hm as (w & -> & Hw).
  now apply truthy_str_chars.
Qed.

Lemma occupation_of_fold self text_items : forall d,
  occupation (fold_left (demographics_step self) text_items d)
  = fold_left (fun a it => occupation_step self it a) text_items (occupation d).
Proof.
  induction text_items as [|it rest IH]; intros d; simpl; [reflexivity|].
  rewrite IH. reflexivity.
Qed.

Lemma occupation_step_set self it v cited :
  truthy_str (Some v) = true ->
  occupation_step self it (Field (Some v) 0.7 cited) = Field (Some v) 0.7 cited.
Proof.
  intros Hv. unfold occupation_step. cbn [value confidence]. rewrite Hv.
  destruct (Re.search true (occupation_pattern self) (text (item_data it))); reflexivity.
Qed.

Lemma occupation_fold_set self text_items v cited :
  truthy_str (Some v) = true ->
  fold_left (fun a it => occupation_step self it a) text_items (Field (Some v) 0.7 cited)
  = Field (Some v) 0.7 cited.
Proof.
  intros Hv. induction text_items as [|it rest IH]; simpl; [reflexivity|].
  rewrite occupation_step_set by assumption. exact IH.
Qed.

Lemma occupation_fold_unset `{Runtime} text_items :
  fold_left (fun a it => occupation_step new_analyzer it a) text_items (Field None 0 None)
  = match first_employed_item new_analyzer text_items with
    | Some (v, it) => Field (Some v) 0.7 (Some it)
    | None => Field None 0 None
    end.
Proof.
  unfold first_employed_item.
  induction text_items as [|it rest IH]; [reflexivity|].
  cbn [fold_left flat_map].
  destruct (leading_occupation new_analyzer it) as [v|] eqn:Hlead.
  - pose proof (leading_occupation_truthy _ _ Hlead) as Hv.
    unfold leading_occupation in Hlead. unfold occupation_step at 2.
    destruct (Re.search true _ _) as [m|]; [|discriminate].
    injection Hlead as <-. cbn [value negb orb truthy_str].
    fold (plausible_occupation (default "" (Re.group "occupation" m))).
    destruct (plausible_occupation _); [|exact IH].
    cbn [app head]. now apply occupation_fold_set.
  - unfold leading_occupation in Hlead. unfold occupation_step at 2.
    destruct (Re.search true _ _) as [m|]; [discriminate|]. exact IH.
Qed.

(** X10: the occupation field looks, in each item, only at the leftmost
    match of the occupation pattern, and takes the first one, in corpus
    order, whose occupation is not one of the seven filler words, with
    confidence 0.7 and that item as citation; the occupation is never empty,
    and once set the field is never replaced. *)
Theorem occupation_is_first_plausible `{Runtime} (text_items more : list item) :
  occupation (_extract_demographics new_analyzer text_items)
  = match first_employed_item new_analyzer text_items with
    | Some (v, it) => Field (Some v) 0.7 (Some it)
    | None => Field None 0 None
    end
  /\ (forall v it, first_employed_item new_analyzer text_items = Some (v, it) ->
        In it text_items /\ v <> "" /\ ~ In (lower v) occupation_stoplist)
  /\ (first_employed_item new_analyzer text_items <> None ->
      occupation (_extract_demographics new_analyzer (text_items ++ more))
      = occupation (_extract_demographics new_analyzer text_items)).
Proof.
  assert (Hfirst : occupation (_extract_demographics new_analyzer text_items)
                   = match first_employed_item new_analyzer text_items with
                     | Some (v, it) => Field (Some v) 0.7 (Some it)
                     | None => Field None 0 None
                     end).
  { unfold _extract_demographics. rewrite occupation_of_fold. apply occupation_fold_unset. }
  assert (Hhead : forall v it, first_employed_item new_analyzer text_items = Some (v, it) ->
                    In it text_items /\ leading_occupation new_analyzer it = Some v
                    /\ plausible_occupation v = true).
  { unfold first_employed_item. intros v it Hh.
    assert (Hin : In (v, it)
                     (flat_map (fun it => match leading_occupation new_analyzer it with
                                          | Some v => if plausible_occupation v then [(v, it)] else []
                                          | None => []
                                          end) text_items)).
    { destruct (flat_map _ text_items) as [|p l]; [discriminate|].
      injection Hh as ->. now left. }
    apply in_flat_map in Hin as (it' & Hin' & Hv).
    destruct (leading_occupation new_analyzer it') as [v'|] eqn:Hlead; [|contradiction].
    destruct (plausible_occupation v') eqn:Hp; [|contradiction].
    destruct Hv as [[= -> ->]|[]]. auto. }
  split; [exact Hfirst|split].
  - intros v it Hh. destruct (Hhead v it Hh) as (Hin & Hlead & Hp).
    split; [assumption|]. split.
    + apply leading_occupation_truthy in Hlead. intros ->. discriminate.
    + unfold plausible_occupation, mem in Hp. apply negb_true_iff in Hp.
      intros Hin'. apply not_true_iff_false in Hp. apply Hp.
      apply existsb_exists. exists (lower v). split; [assumption|apply String.eqb_refl].
  - intros Hsome. unfold _extract_demographics in *.
    rewrite fold_left_app, occupation_of_fold, Hfirst.
    destruct (first_employed_item new_analyzer text_items) as [[v it]|] eqn:Hh; [|contradiction].
    apply occupation_fold_set. destruct (Hhead v it eq_refl) as (_ & Hlead & _).
    now apply leading_occupation_truthy in Hlead.
Qed.

(** ** The status field *)

Lemma status_of_fold self text_items : forall d,
  status (fold_left (demographics_step self) text_items d)
  = fold_left (fun a it => status_step it a) text_items (status d).
Proof.
  induction text_items as [|it rest IH]; intros d; simpl; [reflexivity|].
  rewrite IH. reflexivity.
Qed.

Lemma indicator_step_set it status_name v cited indicator :
  truthy_str (Some v) = true ->
  indicator_step it status_name (Field (Some v) 0.75 cited) indicator = Field (Some v) 0.75 cited.
Proof.
  intros Hv. unfold indicator_step. cbn [value confidence]. rewrite Hv.
  destruct (Re.search true (status_pattern indicator) (text (item_data it))); reflexivity.
Qed.

Lemma status_names_truthy status_name indicators :
  In (status_name, indicators) status_indicators -> truthy_str (Some status_name) = true.
Proof.
  unfold status_indicators. simpl.
  intros [[= <- _]|[[= <- _]|[[= <- _]|[[= <- _]|[[= <- _]|[]]]]]]; reflexivity.
Qed.

Lemma status_name_truthy status_name : In status_name status_names -> truthy_str (Some status_name) = true.
Proof.
  unfold status_names, status_indicators. simpl.
  intros [<-|[<-|[<-|[<-|[<-|[]]]]]]; reflexivity.
Qed.

Lemma indicator_step_after it status_name hits indicator :
  In status_name status_names -> named_hits hits ->
  indicator_step it status_name (status_after hits) indicator
  = status_after (hits ++ match Re.search true (status_pattern indicator) (text (item_data it)) with
                          | Some _ => [(status_name, it)]
                          | None => []
                          end).
Proof.
  intros Hname Hhits. destruct hits as [|[n0 it0] hits].
  - unfold indicator_step, status_after.
    destruct (Re.search true _ _); reflexivity.
  - apply Forall_inv in Hhits. cbn [fst] in Hhits.
    unfold status_after. cbn [head app].
    apply indicator_step_set. now apply status_name_truthy.
Qed.

Lemma indicators_fold_after it status_name indicators : forall hits,
  In status_name status_names -> named_hits hits ->
  let more := flat_map (fun indicator =>
                          match Re.search true (status_pattern indicator) (text (item_data it)) with
                          | Some _ => [(status_name, it)]
                          | None => []
                          end) indicators in
  fold_left (indicator_step it status_name) indicators (status_after hits)
  = status_after (hits ++ more)
  /\ named_hits (hits ++ more).
Proof.
  induction indicators as [|indicator indicators IH]; intros hits Hname Hhits; cbn [flat_map fold_left].
  - rewrite app_nil_r. auto.
  - rewrite indicator_step_after by assumption.
    rewrite app_assoc. apply IH; [assumption|].
    apply Forall_app. split; [assumption|].
    destruct (Re.search true _ _); [constructor; [exact Hname|constructor]|constructor].
Qed.

Lemma status_step_after it : forall hits,
  named_hits hits ->
  status_step it (status_after hits) = status_after (hits ++ status_hits it)
  /\ named_hits (hits ++ status_hits it).
Proof.
  unfold status_step, status_hits.
  assert (Hgen : forall table, (forall p, In p table -> In (fst p) status_names) ->
            forall hits, named_hits hits ->
            let more := flat_map (fun '(status_name, indicators) =>
                          flat_map (fun indicator =>
                            match Re.search true (status_pattern indicator) (text (item_data it)) with
                            | Some _ => [(status_name, it)]
                            | None => []
                            end) indicators) table in
            fold_left (fun d '(status_name, indicators) =>
                         fold_left (indicator_step it status_name) indicators d)
                      table (status_after hits)
            = status_after (hits ++ more) /\ named_hits (hits ++ more)).
  { induction table as [|[status_name indicators] table IH]; intros Htable hits Hhits;
      cbn [flat_map fold_left].
    - rewrite app_nil_r. auto.
    - destruct (indicators_fold_after it status_name indicators hits) as [Hfold Hnamed];
        [apply (Htable (status_name, indicators)); now left|assumption|].
      rewrite Hfold, app_assoc. apply IH; [|assumption].
      intros p Hp. apply Htable. now right. }
  apply Hgen. intros p Hp. now apply in_map.
Qed.

Lemma status_fold_after text_items : forall hits,
  named_hits hits ->
  fold_left (fun a it => status_step it a) text_items (status_after hits)
  = status_after (hits ++ flat_map status_hits text_items).
Proof.
  induction text_items as [|it rest IH]; intros hits Hhits; cbn [flat_map fold_left].
  - now rewrite app_nil_r.
  - destruct (status_step_after it hits Hhits) as [Hstep Hnamed].
    rewrite Hstep, app_assoc. now apply IH.
Qed.

(** X11: the status field is decided by the first hit of the status loops:
    the first item, in corpus order, that matches any indicator, and within
    that item the first matching indicator in the order of the status table,
    so that "single" wins over "married" when an item matches both. The
    field gets that status with confidence 0.75 and that item as citation,
    and is never replaced afterwards. *)
Theorem status_is_first_hit (self : PersonaAnalyzer) (text_items more : list item) :
  status (_extract_demographics self text_items)
  = match first_status_hit text_items with
    | Some (status_name, it) => Field (Some status_name) 0.75 (Some it)
    | None => Field None 0 None
    end
  /\ (forall status_name it, first_status_hit text_items = Some (status_name, it) ->
        In status_name status_names /\ In it text_items)
  /\ (first_status_hit text_items <> None ->
      status (_extract_demographics self (text_items ++ more))
      = status (_extract_demographics self text_items)).
Proof.
  assert (Hfold : forall items,
            status (_extract_demographics self items) = status_after (flat_map status_hits items)).
  { intros items. unfold _extract_demographics. rewrite status_of_fold.
    apply (status_fold_after items []). constructor. }
  split; [apply Hfold|split].
  - unfold first_status_hit. intros status_name it Hh.
    assert (Hin : In (status_name, it) (flat_map status_hits text_items)).
    { destruct (flat_map _ text_items) as [|p l]; [discriminate|]. injection Hh as ->. now left. }
    apply in_flat_map in Hin as (it' & Hin' & Hhit). unfold status_hits in Hhit.
    apply in_flat_map in Hhit as ([name indicators] & Htable & Hhit).
    apply in_flat_map in Hhit as (indicator & _ & Hhit).
    destruct (Re.search true _ _); [|contradiction].
    destruct Hhit as [[= -> ->]|[]]. split; [|assumption].
    change status_name with (fst (status_name, indicators)). now apply in_map.
  - intros Hsome. rewrite !Hfold, flat_map_app. unfold first_status_hit, status_after in *.
    destruct (flat_map status_hits text_items) as [|p l]; [contradiction|reflexivity].
Qed.

(** ** The mined collections *)

Lemma to_upper_idem c : to_upper (to_upper c) = to_upper c.
Proof. destruct c as [[] [] [] [] [] [] [] []]; reflexivity. Qed.

Lemma is_space_upper c : is_space (to_upper c) = is_space c.
Proof. destruct c as [[] [] [] [] [] [] [] []]; reflexivity. Qed.

Lemma capitalize_idem s : capitalize (capitalize s) = capitalize s.
Proof. destruct s as [|c s]; simpl; [reflexivity|]. now rewrite to_upper_idem, lower_idem. Qed.

Lemma lstrip_head l x t : lstrip_chars l = x :: t -> is_space x = false.
Proof.
  induction l as [|c l IH]; simpl; [discriminate|].
  destruct (is_space c) eqn:Hc; [exact IH|]. now intros [= <- _].
Qed.

Lemma lstrip_fixed x t : is_space x = false -> lstrip_chars (x :: t) = x :: t.
Proof. intros Hx. simpl. now rewrite Hx. Qed.

(** stripping from the right keeps the text up to its last character that
    is not white space *)
Lemma rstrip_snoc p x t :
  is_space x = false ->
  rev (lstrip_chars (rev (p ++ x :: t))) = (p ++ x :: rev (lstrip_chars (rev t)))%list.
Proof.
  intros Hx. rewrite rev_app_distr. cbn [rev]. rewrite <- app_assoc. cbn [app].
  assert (Hgen : forall l1 l2, lstrip_chars (l1 ++ x :: l2) = (lstrip_chars l1 ++ x :: l2)%list).
  { induction l1 as [|c l1 IH]; intros l2; simpl.
    - now rewrite Hx.
    - destruct (is_space c); [apply IH|reflexivity]. }
  rewrite Hgen, rev_app_distr. cbn [rev]. rewrite <- app_assoc, rev_involutive. reflexivity.
Qed.

Lemma rstrip_cons x t :
  is_space x = false ->
  rev (lstrip_chars (rev (x :: t))) = x :: rev (lstrip_chars (rev t)).
Proof. exact (rstrip_snoc [] x t). Qed.

Lemma str_chars s : str (chars s) = s.
Proof. apply string_of_list_ascii_of_string. Qed.

Lemma strip_chars s : chars (strip s) = rev (lstrip_chars (rev (lstrip_chars (chars s)))).
Proof. unfold strip. apply chars_str. Qed.

(** the characters of a stripped text: empty, or from a first to a last
    character that are not white space *)
Lemma strip_shape s :
  chars (strip s) = []
  \/ exists x t, chars (strip s) = x :: t /\ is_space x = false
                 /\ rev (lstrip_chars (rev (x :: t))) = x :: t.
Proof.
  rewrite strip_chars.
  destruct (lstrip_chars (chars s)) as [|x t] eqn:Hl; [left; reflexivity|].
  right. pose proof (lstrip_head _ _ _ Hl) as Hx.
  rewrite (rstrip_cons x t Hx).
  exists x, (rev (lstrip_chars (rev t))). split; [reflexivity|]. split; [assumption|].
  rewrite (rstrip_cons x _ Hx). f_equal.
  rewrite rev_involutive.
  destruct (lstrip_chars (rev t)) as [|y u] eqn:Hu; [reflexivity|].
  rewrite (lstrip_fixed y u (lstrip_head _ _ _ Hu)). reflexivity.
Qed.

Lemma strip_idem s : strip (strip s) = strip s.
Proof.
  destruct (strip_shape s) as [Hnil|(x & t & Hxt & Hx & Hr)].
  - unfold strip at 1. rewrite Hnil. simpl.
    rewrite <- (str_chars (strip s)), Hnil. reflexivity.
  - unfold strip at 1. rewrite Hxt, (lstrip_fixed x t Hx), Hr.
    rewrite <- Hxt. apply str_chars.
Qed.

Lemma chars_capitalize s :
  chars (capitalize s)
  = match chars s with [] => [] | x :: t => to_upper x :: map to_lower t end.
Proof.
  destruct s as [|c s]; [reflexivity|]. unfold chars. simpl. f_equal. apply chars_lower.
Qed.

Lemma lstrip_map_lower_rev t :
  rev (lstrip_chars (rev (map to_lower t))) = map to_lower (rev (lstrip_chars (rev t))).
Proof. now rewrite <- map_rev, lstrip_map_lower, <- map_rev. Qed.

(** capitalizing a stripped text leaves nothing to strip *)
Lemma strip_capitalize_strip s : strip (capitalize (strip s)) = capitalize (strip s).
Proof.
  destruct (strip_shape s) as [Hnil|(x & t & Hxt & Hx & Hr)].
  - rewrite <- (str_chars (strip s)), Hnil. reflexivity.
  - rewrite <- (str_chars (capitalize (strip s))) at 2.
    unfold strip at 1. rewrite chars_capitalize, Hxt. f_equal.
    assert (Hux : is_space (to_upper x) = false) by now rewrite is_space_upper.
    rewrite (lstrip_fixed _ _ Hux), (rstrip_cons _ _ Hux). f_equal.
    rewrite (rstrip_cons x t Hx) in Hr. injection Hr as Hr.
    rewrite lstrip_map_lower_rev. now rewrite Hr.
Qed.

Lemma normal_form_description c : normal_form (capitalize (strip c)).
Proof. split; [apply strip_capitalize_strip|intros _; apply capitalize_idem]. Qed.

Lemma mine_mined_from `{Runtime} (self : PersonaAnalyzer)
    (candidates : item -> list (strategy * string)) (text_items : list item) :
  Forall (mined_from candidates text_items) (traced (mine self candidates text_items)).
Proof.
  apply (mine_invariant self candidates (fun st => Forall _ (traced st))); [constructor|].
  intros st it [s c] Hit Hc Hst. unfold accept. cbn [fst snd].
  destruct (is_near_duplicate self c (seen st)); [exact Hst|].
  cbn [traced]. apply Forall_app. split; [exact Hst|].
  constructor; [|constructor]. unfold mined_from. cbn [fst snd fact_citation description].
  split; [assumption|]. split; [apply normal_form_description|]. eauto.
Qed.

(** X12: each of the three mined collections holds at most ten facts; every
    fact cites a text record of the corpus, and its description is a
    candidate which that record proposed, stripped and capitalized: it has no
    white space at either end, and a description that is ASCII is not
    changed by capitalizing it again. *)
Theorem mined_collections_are_well_formed `{Runtime} (self : PersonaAnalyzer)
    (text_items : list item) :
  (length (_extract_behaviors_and_habits self text_items) <= 10
   /\ Forall (mined_from (behavior_candidates self) text_items) (behaviors_traced self text_items))
  /\ (length (_extract_frustrations self text_items) <= 10
      /\ Forall (mined_from (frustration_candidates self) text_items)
                (frustrations_traced self text_items))
  /\ (length (_extract_goals_and_needs self text_items) <= 10
      /\ Forall (mined_from (goal_candidates self) text_items) (goals_traced self text_items)).
Proof.
  unfold _extract_behaviors_and_habits, _extract_frustrations, _extract_goals_and_needs,
    behaviors_traced, frustrations_traced, goals_traced.
  repeat split; try (rewrite length_map, length_take; lia);
    apply Forall_take_of, mine_mined_from.
Qed.

(** ** The habit templates *)

(** a template match starts with the first letter of its phrase, in either
    case *)
Lemma template_group_0 phrase_head phrase_tail c m :
  Re.match_at true (template (String phrase_head phrase_tail)) c = Some m ->
  phrase_tail <> "" ->
  exists x w, Re.group_0 m = str (x :: w) /\ to_lower x = to_lower phrase_head.
Proof.
  intros Hm Htail. apply match_at_sound in Hm as (st' & w0 & Hspans & Hw0 & Hg0 & _).
  unfold template in Hspans. cbn [Re.seq] in Hspans.
  apply spans_seq_inv in Hspans as (s1 & H1 & Hspans).
  apply spans_seq_inv in Hspans as (s2 & H2 & Hspans).
  apply spans_bound_inv in H1. subst s1.
  destruct phrase_tail as [|c2 tail]; [contradiction|].
  unfold Re.lit in H2. cbn [chars list_ascii_of_string map Re.seq] in H2.
  apply spans_seq_inv in H2 as (s3 & Hc & Hrest).
  apply spans_chr_inv in Hc as (x & Hx & Hcx & _).
  destruct (spans_consumed _ _ _ _ Hrest) as [w2 Hw2].
  destruct (spans_consumed _ _ _ _ Hspans) as [w3 Hw3].
  pose proof (consumed_unique _ _ _ _ Hw0
                (consumed_trans _ _ _ _ _ (consumed_trans _ _ _ _ _ Hcx Hw2) Hw3)) as ->.
  exists x, (w2 ++ w3)%list. split; [exact Hg0|].
  unfold Re.chr_matches in Hx. symmetry. now apply Ascii.eqb_eq.
Qed.

(** the description made from ["I " + match.group(0)] *)
Lemma habit_description x w :
  to_lower x = "i"%char ->
  exists rest, capitalize (strip ("I " +:+ str (x :: w))) = "I i" +:+ rest.
Proof.
  intros Hx.
  assert (Hspace : is_space x = false).
  { rewrite <- is_space_lower, Hx. reflexivity. }
  assert (Hchars : chars ("I " +:+ str (x :: w)) = ("I" :: " " :: x :: w)%char%list).
  { change ("I " +:+ str (x :: w)) with (String "I" (String " " (str (x :: w)))).
    unfold chars. simpl. f_equal. f_equal. f_equal. apply chars_str. }
  unfold strip. rewrite Hchars.
  rewrite (lstrip_fixed "I"%char _ eq_refl).
  change ("I" :: " " :: x :: w)%char%list with (["I"; " "]%char ++ x :: w)%list.
  rewrite (rstrip_snoc ["I"; " "]%char x w Hspace). cbn [app].
  exists (lower (str (rev (lstrip_chars (rev w))))).
  unfold str. simpl. rewrite Hx. reflexivity.
Qed.

(** X13: on an ASCII corpus, every behavior that the habit templates
    produce reads "I i ...": the templates are matched against the
    lower-cased text, so the match itself starts with "i", and the code puts
    another "I " in front of it before it capitalizes. *)
Theorem template_behaviors_start_with_I_i `{Runtime} (self : PersonaAnalyzer)
    (text_items : list item) (f : fact) :
  ascii_corpus text_items ->
  In (Template, f) (behaviors_traced self text_items) ->
  In f (_extract_behaviors_and_habits self text_items)
  /\ exists rest, description f = "I i" +:+ rest.
Proof.
  intros _ Hin. split.
  { unfold _extract_behaviors_and_habits. change f with (snd (Template, f)). now apply in_map. }
  pose proof (Forall_take_of _ 10 _ (mine_mined_from self (behavior_candidates self) text_items))
    as Hall.
  rewrite List.Forall_forall in Hall. unfold behaviors_traced in Hin. apply Hall in Hin as (_ & _ & c & Hc & Hd).
  cbn [fst snd] in Hc, Hd. rewrite Hd. clear Hd. unfold behavior_candidates in Hc.
  apply in_app_or in Hc as [Hc|Hc].
  { apply in_map_iff in Hc as (x & Hx & _). discriminate. }
  apply in_map_iff in Hc as (habit & [= <-] & Hhabit).
  unfold longer_than in Hhabit. apply filter_In in Hhabit as [Hhabit _].
  apply in_map_iff in Hhabit as (g0 & <- & Hg0).
  unfold template_matches in Hg0. apply in_flat_map in Hg0 as (phrase & Hphrase & Hg0).
  apply in_map_iff in Hg0 as (m & <- & Hm).
  apply finditer_sound in Hm as [cur Hm].
  assert (Hshape : exists tail, phrase = String "I" tail /\ tail <> "").
  { unfold habit_phrases in Hphrase. simpl in Hphrase.
    destruct Hphrase as [<-|[<-|[<-|[<-|[<-|[<-|[<-|[]]]]]]]]; eexists; split;
      try reflexivity; discriminate. }
  destruct Hshape as (tail & -> & Htail).
  apply template_group_0 in Hm as (x & w & -> & Hx); [|assumption].
  now apply habit_description.
Qed.

Lemma template_behaviors_start_with_I_i_witness :
  let text_items := [Sample.comment_at 0 "I never lie"] in
  map description (_extract_behaviors_and_habits (H := Sample.runtime) Sample.analyzer text_items)
  = ["I i never lie"]
  /\ exists rest, "I i never lie" = "I i" +:+ rest.
Proof.
  intros text_items. split; [reflexivity|].
  refine (proj2 (template_behaviors_start_with_I_i (H := Sample.runtime) Sample.analyzer
                   text_items (Fact "I i never lie" (Sample.comment_at 0 "I never lie"))
                   _ (or_introl eq_refl))).
  repeat constructor.
Defined.

(** ** Binary64: rounding does not cross an integer bound *)
Module PyFloatBounds.
Import PyFloat PyFloatFacts.
Local Open Scope Z_scope.

Lemma shr_1_eq mrs :
  0 <= shr_m mrs ->
  shr_1 mrs = {| shr_m := shr_m mrs / 2; shr_r := Z.odd (shr_m mrs);
                 shr_s := shr_r mrs || shr_s mrs |}.
Proof.
  destruct mrs as [m r s]. cbn [shr_m shr_r shr_s]. intros Hm. rewrite <- Z.div2_div.
  destruct m as [|[p|p|]|p]; try lia; reflexivity.
Qed.

Lemma shifted_step m l k mrs :
  0 <= k -> shifted m l k mrs -> shifted m l (k + 1) (shr_1 mrs).
Proof.
  intros Hk (Hpos & Hm & Hexact). rewrite (shr_1_eq mrs Hpos). cbn [shr_m shr_r shr_s].
  assert (Hpow : 2 ^ (k + 1) = 2 ^ k * 2) by (rewrite Z.pow_add_r by lia; reflexivity).
  assert (H2k : 0 < 2 ^ k) by (apply Z.pow_pos_nonneg; lia).
  split; [apply Z.div_pos; lia|]. split.
  - rewrite Hm, Hpow. rewrite Z.div_div by lia. reflexivity.
  - intros Hl Hmod. rewrite Hpow in Hmod.
    assert (Hmodk : m mod 2 ^ k = 0).
    { apply Z.mod_divide in Hmod; [|lia]. apply Z.mod_divide; [lia|].
      destruct Hmod as [c Hc]. exists (c * 2). lia. }
    destruct (Hexact Hl Hmodk) as [-> ->]. split; [|reflexivity].
    rewrite Hm. apply Z.mod_divide in Hmod; [|lia]. destruct Hmod as [c Hc].
    replace (m / 2 ^ k) with (c * 2)
      by (subst m; replace (c * (2 ^ k * 2)) with (c * 2 * 2 ^ k) by lia;
          symmetry; apply Z.div_mul; lia).
    rewrite Z.odd_mul. simpl. apply andb_false_r.
Qed.

Lemma shifted_iter m l p : forall k mrs,
  0 <= k -> shifted m l k mrs -> shifted m l (k + Z.pos p) (SpecFloat.iter_pos shr_1 p mrs).
Proof.
  induction p as [p IH|p IH|]; intros k mrs Hk Hs; simpl SpecFloat.iter_pos.
  - replace (k + Z.pos p~1) with (k + 1 + Z.pos p + Z.pos p) by lia.
    apply IH; [lia|]. apply IH; [lia|]. now apply shifted_step.
  - replace (k + Z.pos p~0) with (k + Z.pos p + Z.pos p) by lia.
    apply IH; [lia|]. now apply IH.
  - now apply shifted_step.
Qed.

Lemma shifted_start m l : 0 <= m -> shifted m l 0 (shr_record_of_loc m l).
Proof.
  intros Hm. unfold shifted. rewrite shr_m_of_loc, Z.pow_0_r, Z.div_1_r.
  split; [assumption|]. split; [reflexivity|]. intros -> _. split; reflexivity.
Qed.

(** aligning a mantissa to its format exponent: the exponent grows by the
    number of shifts *)
Lemma shr_fexp_shifted m e l :
  0 <= m ->
  exists k, 0 <= k
            /\ snd (shr_fexp prec emax m e l) = e + k
            /\ snd (shr_fexp prec emax m e l) = Z.max e (fexp prec emax (Zdigits2 m + e))
            /\ shifted m l k (fst (shr_fexp prec emax m e l)).
Proof.
  intros Hm. unfold shr_fexp, shr.
  destruct (fexp prec emax (Zdigits2 m + e) - e) as [|p|p] eqn:Hn; cbn [fst snd].
  - exists 0. split; [lia|]. split; [lia|]. split; [lia|]. now apply shifted_start.
  - exists (Z.pos p). split; [lia|]. split; [lia|]. split; [lia|].
    apply (shifted_iter m l p 0); [lia|]. now apply shifted_start.
  - exists 0. split; [lia|]. split; [lia|]. split; [lia|]. now apply shifted_start.
Qed.

Lemma round_nearest_even_le m l :
  round_nearest_even m l <= m + 1 /\ (l = loc_Exact -> round_nearest_even m l = m).
Proof.
  unfold round_nearest_even. destruct l as [|[]]; try destruct (Z.even m); split;
    try lia; try reflexivity; discriminate.
Qed.

Lemma loc_of_shr_record_exact mrs :
  shr_r mrs = false -> shr_s mrs = false -> loc_of_shr_record mrs = loc_Exact.
Proof. destruct mrs as [m r s]. simpl. now intros -> ->. Qed.

Lemma digits_below n m e :
  0 < n <= 2 ^ 52 -> e <= 0 -> 0 <= m <= n * 2 ^ (- e) -> Zdigits2 m + e <= 53.
Proof.
  intros Hn He Hm.
  assert (Zdigits2 m <= 53 - e); [|lia].
  apply Zdigits2_lt_pow2; [lia|lia|].
  replace (53 - e) with (53 + - e) by lia. rewrite Z.pow_add_r by lia.
  assert (0 < 2 ^ (- e)) by (apply Z.pow_pos_nonneg; lia).
  assert (2 ^ 52 < 2 ^ 53) by (apply Z.pow_lt_mono_r; lia). nia.
Qed.

(** a value that does not exceed the integer [n] is not rounded above it:
    [m * 2^e] stands for the value when the location is exact, and for a
    value strictly between [m * 2^e] and [(m + 1) * 2^e] otherwise *)
Lemma binary_round_aux_le n s m e l :
  0 < n <= 2 ^ 52 -> 0 <= m -> e <= 0 ->
  m <= n * 2 ^ (- e) ->
  (l <> loc_Exact -> m + 1 <= n * 2 ^ (- e)) ->
  match binary_round_aux prec emax s m e l with
  | S754_finite _ m' e' => e' <= 0 /\ Z.pos m' <= n * 2 ^ (- e')
  | S754_nan => False
  | _ => True
  end.
Proof.
  intros Hn Hm He Hle Hinexact. unfold binary_round_aux.
  destruct (shr_fexp_shifted m e l Hm) as (k & Hk & He1 & He1' & Hpos1 & Hm1 & Hexact1).
  destruct (shr_fexp prec emax m e l) as [mrs1 e1]. cbn [fst snd] in *.
  assert (He1neg : e1 <= 0).
  { pose proof (digits_below n m e Hn He ltac:(lia)). unfold fexp, emin, prec, emax in He1'. lia. }
  assert (H2k : 0 < 2 ^ k) by (apply Z.pow_pos_nonneg; lia).
  assert (Hsplit : 2 ^ (- e) = 2 ^ (- e1) * 2 ^ k).
  { rewrite <- Z.pow_add_r by lia. f_equal. lia. }
  set (m1 := round_nearest_even (shr_m mrs1) (loc_of_shr_record mrs1)).
  assert (Hm1le : 0 <= m1 <= n * 2 ^ (- e1)).
  { destruct (round_nearest_even_le (shr_m mrs1) (loc_of_shr_record mrs1)) as [Hup Hsame].
    fold m1 in Hup, Hsame. split.
    { unfold m1, round_nearest_even. destruct (loc_of_shr_record mrs1) as [|[]];
        try destruct (Z.even (shr_m mrs1)); lia. }
    pose proof (Z.div_mod m (2 ^ k) ltac:(lia)) as Hdm.
    pose proof (Z.mod_pos_bound m (2 ^ k) ltac:(lia)) as Hmod.
    rewrite Hsplit in Hle, Hinexact.
    destruct (Z.eq_dec (m mod 2 ^ k) 0) as [Hdiv|Hndiv].
    - destruct l as [|c].
      + destruct (Hexact1 eq_refl Hdiv) as [Hr Hs].
        rewrite (Hsame (loc_of_shr_record_exact _ Hr Hs)), Hm1. nia.
      + specialize (Hinexact ltac:(discriminate)). rewrite Hm1 in Hup. nia.
    - rewrite Hm1 in Hup. nia. }
  destruct (shr_fexp_shifted m1 e1 loc_Exact (proj1 Hm1le))
    as (k2 & Hk2 & He2 & He2' & Hpos2 & Hm2 & _).
  destruct (shr_fexp prec emax m1 e1 loc_Exact) as [mrs2 e2]. cbn [fst snd] in *.
  assert (He2neg : e2 <= 0).
  { pose proof (digits_below n m1 e1 Hn He1neg Hm1le). unfold fexp, emin, prec, emax in He2'. lia. }
  destruct (shr_m mrs2) as [|p|p] eqn:Hp; [exact I| |lia].
  destruct (e2 <=? emax - prec); [|exact I].
  split; [assumption|].
  assert (H2k2 : 0 < 2 ^ k2) by (apply Z.pow_pos_nonneg; lia).
  assert (Hsplit2 : 2 ^ (- e1) = 2 ^ (- e2) * 2 ^ k2).
  { rewrite <- Z.pow_add_r by lia. f_equal. lia. }
  rewrite Hm2. rewrite Hsplit2 in Hm1le.
  replace (n * (2 ^ (- e2) * 2 ^ k2)) with (n * 2 ^ (- e2) * 2 ^ k2) in Hm1le by lia.
  apply Z.div_le_upper_bound; lia.
Qed.

Lemma new_location_inexact b r : new_location b r <> loc_Exact -> r <> 0.
Proof.
  intros Hl ->. apply Hl. unfold new_location, new_location_even, new_location_odd.
  destruct (Z.even b); reflexivity.
Qed.

(** [a / b] does not exceed 1 when [0 < a <= b] *)
Lemma truediv_le_1 a b :
  0 < a <= b ->
  match truediv a b with
  | S754_finite _ m e => e <= 0 /\ Z.pos m <= 1 * 2 ^ (- e)
  | S754_nan => False
  | _ => True
  end.
Proof.
  intros Hab. unfold truediv.
  destruct a as [|pa|pa]; try lia. destruct b as [|pb|pb]; try lia. cbn [of_int SFdiv].
  unfold SFdiv_core_binary.
  pose proof (Zdigits2_mono (Z.pos pa) (Z.pos pb) ltac:(lia)) as Hd.
  set (e' := Z.min (fexp prec emax (Zdigits2 (Z.pos pa) + 0 - (Zdigits2 (Z.pos pb) + 0))) (0 - 0)).
  assert (He : -1074 <= e' <= -53) by (unfold e', fexp, emin, prec, emax; lia).
  destruct (0 - 0 - e') as [|sh|sh] eqn:Hs; try lia.
  rewrite Z.shiftl_mul_pow2 by lia.
  pose proof (Z.div_eucl_eq (Z.pos pa * 2 ^ Z.pos sh) (Z.pos pb) ltac:(lia)) as Heq.
  pose proof (Z.mod_pos_bound (Z.pos pa * 2 ^ Z.pos sh) (Z.pos pb) ltac:(lia)) as Hr.
  unfold Z.modulo in Hr.
  destruct (Z.div_eucl (Z.pos pa * 2 ^ Z.pos sh) (Z.pos pb)) as [q r].
  assert (H2 : 0 < 2 ^ Z.pos sh) by (apply Z.pow_pos_nonneg; lia).
  replace (Z.pos sh) with (- e') in * by lia.
  apply binary_round_aux_le.
  - split; [lia|]. compute. discriminate.
  - nia.
  - lia.
  - nia.
  - intros Hl. apply new_location_inexact in Hl. nia.
Qed.

(** [int((a / b) * n)] does not exceed [n] when [0 <= a <= b] *)
Lemma scaled_le a b n z :
  0 <= a <= b -> 0 < b -> 0 < n < 1024 -> scaled a b n = Some z -> z <= n.
Proof.
  intros Hab Hb Hn. unfold scaled.
  destruct (Z.eq_dec a 0) as [->|Hpos].
  { fold (scaled 0 b n). rewrite scaled_zero by lia. intros [= <-]. lia. }
  pose proof (truediv_le_1 a b ltac:(lia)) as Hdiv.
  pose proof (truediv_finite a b Hab Hb) as Hfin.
  destruct (truediv a b) as [s|s| |s m e]; try contradiction.
  { destruct n as [|pn|pn]; try lia. simpl. intros [= <-]. lia. }
  destruct Hdiv as [He Hm]. destruct Hfin as (-> & _ & _).
  unfold mul_int. destruct n as [|pn|pn]; try lia. cbn [of_int SFmul xorb].
  pose proof (binary_round_aux_le (Z.pos pn) false (Z.pos (m * pn)) (e + 0) loc_Exact) as Hround.
  rewrite Z.add_0_r in *. rewrite Pos2Z.inj_mul in Hround.
  assert (H2e : 0 < 2 ^ (- e)) by (apply Z.pow_pos_nonneg; lia).
  assert (Hbig : 1024 < 2 ^ 52) by reflexivity.
  specialize (Hround ltac:(lia) ltac:(lia) He ltac:(nia) ltac:(congruence)).
  rewrite <- Pos2Z.inj_mul in Hround.
  destruct (binary_round_aux prec emax false (Z.pos (m * pn)) e loc_Exact) as [s'|s'| |s' m' e'];
    try contradiction; try discriminate.
  { simpl. intros [= <-]. lia. }
  destruct Hround as [He' Hm'].
  unfold to_int. destruct s'.
  - intros [= <-].
    assert (0 <= match e' with
                 | Z.neg k => Z.shiftr (Z.pos m') (Z.pos k)
                 | _ => Z.shiftl (Z.pos m') e'
                 end); [|lia].
    destruct e'; [apply Z.shiftl_nonneg|apply Z.shiftl_nonneg|apply Z.shiftr_nonneg]; lia.
  - intros [= <-]. destruct e' as [|k|k]; try lia.
    + rewrite Z.shiftl_0_r. change (2 ^ (- 0)) with 1 in Hm'. lia.
    + rewrite Z.shiftr_div_pow2 by lia. change (- Z.neg k) with (Z.pos k) in Hm'.
      apply Z.div_le_upper_bound; [apply Z.pow_pos_nonneg; lia|lia].
Qed.

End PyFloatBounds.

(** ** Citations of the motivation categories *)

Lemma item_in_false it cs : item_in it cs = false -> ~ In (item_data it) (map item_data cs).
Proof.
  unfold item_in. intros Hin Hmem. apply in_map_iff in Hmem as (x & Hx & Hxin).
  assert (existsb (fun x => bool_decide (item_data x = item_data it)) cs = true); [|congruence].
  apply existsb_exists. exists x. split; [assumption|]. now apply bool_decide_eq_true_2.
Qed.

Lemma distinct_records_snoc cs it :
  distinct_records cs -> item_in it cs = false -> distinct_records (cs ++ [it]).
Proof.
  unfold distinct_records. intros Hcs Hin. rewrite map_app. apply NoDup_app.
  split; [assumption|]. split; [|apply NoDup_singleton].
  intros x Hx Hx'. apply list_elem_of_In in Hx, Hx'. destruct Hx' as [<-|[]].
  now apply item_in_false in Hin.
Qed.

Lemma distinct_records_take n cs : distinct_records cs -> distinct_records (take n cs).
Proof.
  unfold distinct_records. intros Hcs. rewrite <- (take_drop n cs), map_app in Hcs.
  now apply NoDup_app in Hcs as [? _].
Qed.

Lemma bump_sound self items keywords it ev :
  In it items -> motivates self keywords it ->
  sound_evidence self items keywords ev -> sound_evidence self items keywords (bump it ev).
Proof.
  intros Hit Hm (Hc & Hd & Hz & Hn). unfold sound_evidence, bump. cbn [raw cited].
  destruct (item_in it (cited ev)) eqn:Hin.
  - repeat split; try assumption; [discriminate|].
    intros Hnil. rewrite Hnil in Hin. discriminate.
  - repeat split.
    + apply Forall_app. split; [assumption|]. repeat constructor; assumption.
    + now apply distinct_records_snoc.
    + discriminate.
    + intros Hnil. apply app_eq_nil in Hnil as [_ Hnil]. discriminate.
Qed.

Lemma category_step_sound self items keywords it ev :
  In it items ->
  sound_evidence self items keywords ev ->
  sound_evidence self items keywords (category_step self it keywords ev).
Proof.
  intros Hit Hev. unfold category_step.
  destruct (positive_hits self keywords (lower (text (item_data it)))) as [|hit hits] eqn:Hhits;
    [exact Hev|].
  assert (Hm : motivates self keywords it) by (unfold motivates; rewrite Hhits; discriminate).
  revert ev Hev. generalize (hit :: hits). clear hit hits Hhits.
  induction l as [|h l IH]; intros ev Hev; [exact Hev|].
  cbn [fold_left]. apply IH. now apply bump_sound.
Qed.

(** a step on the entry of one key keeps a property that holds row by row
    of a table with distinct keys *)
Lemma update_rows {X V} (P : X -> V -> Prop) (table : list (string * X)) key x (f : V -> V) :
  NoDup (map fst table) -> In (key, x) table ->
  (forall v, P x v -> P x (f v)) ->
  forall d, Forall2 (fun row kv => fst kv = fst row /\ P (snd row) (snd kv)) table d ->
            Forall2 (fun row kv => fst kv = fst row /\ P (snd row) (snd kv)) table (update key f d).
Proof.
  intros Hnd Hin Hf d Hall. induction Hall as [|[k0 x0] [k v] table d [Hk Hv] Hall IH];
    [constructor|].
  cbn [fst snd] in Hk, Hv. subst k0. cbn [update map] in *.
  apply NoDup_cons in Hnd as [Hfresh Hnd].
  destruct (String.eqb_spec k key) as [->|Hne].
  - constructor; [|assumption]. cbn [fst snd]. split; [reflexivity|].
    destruct Hin as [[= <-]|Hin]; [now apply Hf|].
    exfalso. apply Hfresh. apply list_elem_of_In.
    apply in_map_iff. exists (key, x). split; [reflexivity|assumption].
  - constructor; [cbn [fst snd]; auto|]. apply IH; [assumption|].
    destruct Hin as [[= -> _]|Hin]; [contradiction|assumption].
Qed.

Lemma category_keywords_distinct : NoDup (map fst category_keywords).
Proof. apply NoDup_ListNoDup. repeat constructor; simpl; intuition discriminate. Qed.

Lemma motivation_evidence_sound self items :
  Forall2 (fun row kv => fst kv = fst row /\ sound_evidence self items (snd row) (snd kv))
          category_keywords (motivation_evidence self items).
Proof.
  unfold motivation_evidence.
  apply (fold_left_invariant
           (Forall2 (fun row kv => fst kv = fst row /\ sound_evidence self items (snd row) (snd kv))
                    category_keywords)).
  - intros st it Hit.
    apply (fold_left_invariant
             (Forall2 (fun row kv => fst kv = fst row
                                     /\ sound_evidence self items (snd row) (snd kv))
                      category_keywords)).
    intros st' [category keywords] Hrow Hst'.
    apply (update_rows (sound_evidence self items) category_keywords category keywords);
      [apply category_keywords_distinct|assumption| |assumption].
    intros ev. now apply category_step_sound.
  - unfold initial_motivations, category_keywords. cbn [map].
    repeat constructor; cbn [fst snd raw cited]; try reflexivity; auto.
Qed.

(** X14: the citations of a motivation category are evidence for it: at
    most three text records of the corpus, no two of them equal, each with a
    positive sentence that holds a keyword of the category; and a category
    whose score is not 0 cites at least one record. *)
Theorem motivation_citations_are_evidence (self : PersonaAnalyzer) (text_items : list item) :
  exists ms,
    _extract_motivations self text_items = Ok ms
    /\ Forall2 (fun '(category, keywords) m =>
                  fst m = category
                  /\ length (sc_citations (snd m)) <= 3
                  /\ distinct_records (sc_citations (snd m))
                  /\ Forall (fun c => In c text_items /\ motivates self keywords c)
                            (sc_citations (snd m))
                  /\ ((0 < sc_score (snd m))%Z -> sc_citations (snd m) <> []))
               category_keywords ms.
Proof.
  unfold _extract_motivations.
  set (evs := motivation_evidence self text_items).
  assert (Hle : Forall (fun e => raw (snd e) <= max_score evs) evs).
  { apply List.Forall_forall. intros [c ev] Hin. exact (max_score_bound evs c ev Hin). }
  destruct (normalize_spec (max_score evs) evs (max_score_positive evs) Hle) as (ms & Hms & Hall).
  exists ms. split; [exact Hms|].
  pose proof (motivation_evidence_sound self text_items) as Hsound. fold evs in Hsound.
  pose proof (max_score_positive evs) as Hmx.
  clear Hms Hle. revert Hmx Hall. generalize (max_score evs). intros mx Hmx. revert ms.
  induction Hsound as [|[category keywords] [k ev] table evs' [Hk Hev] Hsound IH];
    intros ms Hall; inversion Hall as [|? m ? ms' Hnorm Hall']; subst; constructor.
  - destruct Hnorm as (Hfst & Hcits & n & Hn & Hscore & _).
    cbn [fst snd] in *. destruct Hev as (Hc & Hd & Hz & Hnil). rewrite Hcits.
    split; [congruence|]. split; [rewrite length_take; lia|].
    split; [now apply distinct_records_take|]. split; [now apply Forall_take_of|].
    intros Hpos Htake.
    assert (Hraw : raw ev = 0).
    { apply Hnil. destruct (cited ev); [reflexivity|discriminate]. }
    rewrite Hraw in Hn. rewrite PyFloatFacts.scaled_zero in Hn by lia.
    injection Hn as <-. lia.
  - now apply IH.
Qed.

(** ** Scores and citations of the personality axes *)

Lemma cite_keyword_sound items all_keywords keyword cs :
  In keyword all_keywords ->
  sound_citations items all_keywords cs ->
  sound_citations items all_keywords (cite_keyword keyword items cs).
Proof.
  intros Hk. unfold cite_keyword. revert cs.
  apply (fold_left_invariant (sound_citations items all_keywords)).
  intros cs it Hit [Hcs Hd].
  destruct (Re.search true (Re.word_pattern keyword) (lower (text (item_data it)))) eqn:Hs;
    [|split; assumption].
  destruct (item_in it cs) eqn:Hin; [split; assumption|]. split.
  - apply Forall_app. split; [assumption|]. repeat constructor; [assumption|].
    exists keyword. split; [assumption|]. rewrite Hs. discriminate.
  - now apply distinct_records_snoc.
Qed.

Lemma cite_keywords_sound items all_keywords keywords cs :
  incl keywords all_keywords ->
  sound_citations items all_keywords cs ->
  sound_citations items all_keywords (cite_keywords keywords items cs).
Proof.
  intros Hincl. unfold cite_keywords. revert cs.
  apply (fold_left_invariant (sound_citations items all_keywords)).
  intros cs keyword Hk. apply cite_keyword_sound. now apply Hincl.
Qed.

Lemma dimension_score_bounds left_count right_count current :
  (0 <= current <= 100)%Z ->
  exists n, dimension_score left_count right_count current = Ok n /\ (0 <= n <= 100)%Z.
Proof.
  intros Hcur. unfold dimension_score.
  destruct (Nat.ltb_spec 0 (left_count + right_count)) as [Hpos|]; [|eauto].
  destruct (PyFloatFacts.scaled_nonneg (Z.of_nat right_count)
              (Z.of_nat (left_count + right_count)) 100) as (n & Hn & Hn0); try lia.
  exists n. rewrite Hn. split; [reflexivity|]. split; [assumption|].
  apply (PyFloatBounds.scaled_le (Z.of_nat right_count) (Z.of_nat (left_count + right_count)) 100);
    try assumption; lia.
Qed.

(** one iteration of the loop over the axes, on an entry that is still in
    its initial state *)
Lemma dimension_step_bounds text_items all_text p dimension lt lk rt rk :
  get_dimension dimension p = Some (Scored 50 []) ->
  exists n cits,
    dimension_step text_items all_text (Ok p) (dimension, ((lt, lk), (rt, rk)))
    = Ok (set_dimension dimension (Scored n cits) p)
    /\ (0 <= n <= 100)%Z
    /\ length cits <= 3
    /\ sound_citations text_items (lk ++ rk) cits.
Proof.
  intros Hget. unfold dimension_step. cbn [rbind]. rewrite Hget. cbn [sc_score sc_citations].
  destruct (dimension_score_bounds (keyword_count lk all_text) (keyword_count rk all_text) 50)
    as (n & Hn & Hbounds); [lia|].
  rewrite Hn. cbn [rbind]. eexists _, _. split; [reflexivity|]. split; [assumption|].
  split; [rewrite length_take; lia|].
  assert (Hsound : sound_citations text_items (lk ++ rk)
                     (cite_keywords rk text_items (cite_keywords lk text_items []))).
  { apply cite_keywords_sound; [apply incl_appr, incl_refl|].
    apply cite_keywords_sound; [apply incl_appl, incl_refl|].
    split; constructor. }
  destruct Hsound as [Hc Hd]. split; [now apply Forall_take_of|now apply distinct_records_take].
Qed.

(** X15: every personality axis gets a score between 0 and 100 and at most
    three citations, which are text records of the corpus, no two of them
    equal, each holding a keyword of the axis as a word. *)
Theorem personality_axes_are_bounded_and_cited `{Runtime} (text_items : list item) :
  exists p,
    _analyze_personality new_analyzer text_items = Ok p
    /\ Forall (fun '(dimension, ((_, left_keywords), (_, right_keywords))) =>
                 exists entry,
                   get_dimension dimension p = Some entry
                   /\ (0 <= sc_score entry <= 100)%Z
                   /\ length (sc_citations entry) <= 3
                   /\ sound_citations text_items (left_keywords ++ right_keywords)
                        (sc_citations entry))
              (personality_dimensions new_analyzer).
Proof.
  unfold _analyze_personality.
  set (all_text := corpus_text text_items).
  cbn [personality_dimensions new_analyzer fold_left].
  repeat match goal with
  | |- context [dimension_step ?i ?a (Ok ?p) (?d, ((?lt, ?lk), (?rt, ?rk)))] =>
      let n := fresh "n" in let c := fresh "c" in let E := fresh "E" in
      let B := fresh "B" in let L := fresh "L" in let S := fresh "S" in
      destruct (dimension_step_bounds i a p d lt lk rt rk eq_refl) as (n & c & E & B & L & S);
      rewrite E; clear E
  end.
  eexists. split; [reflexivity|].
  repeat constructor; eexists; (split; [reflexivity|]); cbn [sc_score sc_citations]; auto.
Qed.

(** ** The profile URL *)

Lemma str_app (a b : list ascii) : str (a ++ b) = str a +:+ str b.
Proof.
  induction a as [|x a IH]; [reflexivity|].
  unfold str in *. simpl. rewrite string_app_cons. now rewrite IH.
Qed.

(** a literal consumes exactly its characters *)
Lemma spans_lit_inv cs : forall st st',
  spans false (Re.seq (map Re.Chr cs)) st st' ->
  consumed st st' cs /\ Re.groups st' = Re.groups st.
Proof.
  induction cs as [|c cs IH]; intros st st' Hs.
  - inversion Hs; subst. split; [apply consumed_refl|reflexivity].
  - destruct cs as [|c2 cs].
    + cbn [map Re.seq] in Hs. apply spans_chr_inv in Hs as (x & Hx & Hc & Hg).
      unfold Re.chr_matches in Hx. apply Ascii.eqb_eq in Hx. subst x. auto.
    + change (Re.seq (map Re.Chr (c :: c2 :: cs)))
        with (Re.Seq (Re.Chr c) (Re.seq (map Re.Chr (c2 :: cs)))) in Hs.
      apply spans_seq_inv in Hs as (s1 & Hc & Hrest).
      apply spans_chr_inv in Hc as (x & Hx & Hc & Hg).
      unfold Re.chr_matches in Hx. apply Ascii.eqb_eq in Hx. subst x.
      apply IH in Hrest as [Hrest Hg'].
      split; [exact (consumed_trans _ _ _ _ _ Hc Hrest)|congruence].
Qed.

(** an optional part is skipped or taken once *)
Lemma spans_opt_inv icase r st st' :
  spans icase (Re.opt r) st st' -> st' = st \/ spans icase r st st'.
Proof.
  unfold Re.opt.
  inversion 1 as [| | | | | | | | |? ? ?|? ? ? ? st1 ? _ Hr _ Hrest|]; subst; [now left|].
  right. cbn in Hrest.
  inversion Hrest as [| | | | | | | | |? ? ?|? ? ? ? ? ? Hhi|]; subst; [assumption|].
  now contradiction Hhi.
Qed.

(** a repeated character class consumes characters of the class *)
Lemma spans_rep_set icase negated ranges r st st' :
  spans icase r st st' ->
  forall lo hi, r = Re.Rep (Re.Set_ negated ranges) lo hi ->
  exists w, consumed st st' w
            /\ Forall (fun x => Re.set_matches icase negated ranges x = true) w
            /\ lo <= length w
            /\ Re.groups st' = Re.groups st.
Proof.
  induction 1 as [st|c st st' Hs|n0 r0 st st' Hs|st st' Hs|st st' Hs|st Hb
                  |r1 r2 st st1 st2 _ _ _ _|r1 r2 st st' _ _|r1 r2 st st' _ _
                  |r hi0 st|r lo0 hi0 st st1 st2 Hhi Hr _ Hprog Hrest IH|name r st st' _ _];
    intros lo hi Heq; try discriminate.
  - injection Heq as -> <- <-. exists [].
    split; [apply consumed_refl|]. split; [constructor|]. split; [simpl; lia|reflexivity].
  - injection Heq as -> -> ->.
    apply spans_set_inv in Hr as (x & Hx & Hc & Hg).
    destruct (IH _ _ eq_refl) as (w & Hw & Hall & Hlen & Hg').
    exists (x :: w). split; [exact (consumed_trans _ _ _ _ _ Hc Hw)|].
    split; [now constructor|]. split; [simpl; lia|congruence].
Qed.

Lemma username_class_char x :
  Re.set_matches false false [("a", "z"); ("A", "Z"); ("0", "9"); ("_", "_"); ("-", "-")]%char x
  = username_char x.
Proof. destruct x as [[] [] [] [] [] [] [] []]; reflexivity. Qed.

Lemma any_char_not_line_feed x :
  Re.set_matches false true [(line_feed, line_feed)] x = true -> x <> line_feed.
Proof. intros Hx ->. discriminate. Qed.

Lemma any_char_accepts x :
  x <> line_feed -> Re.set_matches false true [(line_feed, line_feed)] x = true.
Proof.
  destruct x as [[] [] [] [] [] [] [] []]; intros Hx; try reflexivity.
  exfalso. now apply Hx.
Qed.

(** what a successful match of the profile pattern says about the URL *)
Lemma match_line_profile url m :
  match_line profile_url_pattern url = Some m ->
  exists scheme www kind username rest,
    url = profile_url scheme www kind (str username) rest
    /\ In scheme ["http"; "https"] /\ In www [""; "www."] /\ In kind ["user"; "u"]
    /\ username <> [] /\ forallb username_char username = true
    /\ Re.group "1" m = Some (str username).
Proof.
  unfold match_line. intros Hrun. apply run_sound in Hrun as (st' & Hspans & Hk).
  destruct (at_line_end (Re.cur st')); [|discriminate]. injection Hk as <-.
  unfold profile_url_pattern in Hspans. cbn [Re.seq] in Hspans.
  apply spans_seq_inv in Hspans as (s1 & H1 & Hspans).
  apply spans_seq_inv in Hspans as (s2 & H2 & Hspans).
  apply spans_seq_inv in Hspans as (s3 & H3 & Hspans).
  apply spans_seq_inv in Hspans as (s4 & H4 & Hspans).
  apply spans_seq_inv in Hspans as (s5 & H5 & Hspans).
  apply spans_seq_inv in Hspans as (s6 & H6 & Hspans).
  apply spans_seq_inv in Hspans as (s7 & H7 & Hspans).
  apply spans_seq_inv in Hspans as (s8 & H8 & Hspans).
  apply spans_seq_inv in Hspans as (s9 & H9 & H10).
  pose proof (spans_group_free _ _ _ _ H1 eq_refl) as G1.
  pose proof (spans_group_free _ _ _ _ H2 eq_refl) as G2.
  pose proof (spans_group_free _ _ _ _ H3 eq_refl) as G3.
  pose proof (spans_group_free _ _ _ _ H4 eq_refl) as G4.
  pose proof (spans_group_free _ _ _ _ H5 eq_refl) as G5.
  pose proof (spans_group_free _ _ _ _ H6 eq_refl) as G6.
  pose proof (spans_group_free _ _ _ _ H7 eq_refl) as G7.
  pose proof (spans_group_free _ _ _ _ H9 eq_refl) as G9.
  pose proof (spans_group_free _ _ _ _ H10 eq_refl) as G10.
  apply spans_lit_inv in H1 as [C1 _]. apply spans_lit_inv in H3 as [C3 _].
  apply spans_lit_inv in H5 as [C5 _].
  apply spans_chr_inv in H7 as (x7 & Hx7 & C7 & _).
  unfold Re.chr_matches in Hx7. apply Ascii.eqb_eq in Hx7. subst x7.
  apply spans_group_inv in H8 as (s8' & w8 & Hbody & C8 & ->).
  pose proof (spans_group_free _ _ _ _ Hbody eq_refl) as G8.
  destruct (spans_rep_set _ _ _ _ _ _ Hbody _ _ eq_refl) as (w8' & C8' & Hall & Hlen & _).
  pose proof (consumed_unique _ _ _ _ C8 C8') as ->.
  destruct (spans_consumed _ _ _ _ H9) as [w9 C9].
  destruct (spans_consumed _ _ _ _ H10) as [w10 C10].
  assert (Hscheme : exists scheme, In (str scheme) ["http"; "https"] /\ consumed (Re.MState (Re.start_of url) []) s2 scheme).
  { apply spans_opt_inv in H2 as [->|H2].
    - exists (chars "http"). split; [now left|assumption].
    - apply spans_chr_inv in H2 as (x & Hx & C2 & _).
      unfold Re.chr_matches in Hx. apply Ascii.eqb_eq in Hx. subst x.
      exists (chars "https"). split; [right; now left|].
      exact (consumed_trans _ _ _ _ _ C1 C2). }
  destruct Hscheme as (scheme & Hscheme & Cs).
  assert (Hwww : exists www, In (str www) [""; "www."] /\ consumed s3 s4 www).
  { apply spans_opt_inv in H4 as [->|H4].
    - exists []. split; [now left|apply consumed_refl].
    - apply spans_lit_inv in H4 as [C4 _].
      exists (chars "www."). split; [right; now left|assumption]. }
  destruct Hwww as (www & Hwww & Cw).
  assert (Hkind : exists kind, In (str kind) ["user"; "u"] /\ consumed s5 s6 kind).
  { cbn [Re.alt] in H6. inversion H6 as [| | | | | | |? ? ? ? Hl|? ? ? ? Hr| | |]; subst.
    - apply spans_lit_inv in Hl as [C6 _]. exists (chars "user"). split; [now left|assumption].
    - apply spans_lit_inv in Hr as [C6 _]. exists (chars "u"). split; [right; now left|assumption]. }
  destruct Hkind as (kind & Hkind & Ck).
  pose proof (consumed_trans _ _ _ _ _ Cs
               (consumed_trans _ _ _ _ _ C3
                 (consumed_trans _ _ _ _ _ Cw
                   (consumed_trans _ _ _ _ _ C5
                     (consumed_trans _ _ _ _ _ Ck
                       (consumed_trans _ _ _ _ _ C7
                         (consumed_trans _ _ _ _ _ C8'
                           (consumed_trans _ _ _ _ _ C9 C10)))))))) as [Hurl _].
  cbn [Re.cur Re.after Re.start_of] in Hurl.
  exists (str scheme), (str www), (str kind), w8', (str (w9 ++ w10 ++ Re.after (Re.cur st'))).
  split.
  { unfold profile_url. rewrite <- (str_chars url), Hurl.
    rewrite <- !app_assoc, !str_app. reflexivity. }
  split; [assumption|]. split; [assumption|]. split; [assumption|].
  split; [destruct w8'; [simpl in Hlen; lia|discriminate]|].
  split.
  { apply forallb_forall. intros x Hx. rewrite List.Forall_forall in Hall.
    rewrite <- username_class_char. now apply Hall. }
  unfold Re.group. cbn [Re.m_groups]. rewrite G10, G9. reflexivity.
Qed.

(** X16: the two URL functions agree: [validate_reddit_url] accepts a URL
    exactly when [extract_username_from_url] finds a user name in it. The
    name found is never empty and holds only letters, digits, underscores
    and hyphens, and the URL reads: "http" or "https", "://", an optional
    "www.", "reddit.com/", "user" or "u", "/", the name, and a rest. *)
Theorem url_functions_agree (url : string) :
  (validate_reddit_url url = true <-> exists username, extract_username_from_url url = Some username)
  /\ forall username,
       extract_username_from_url url = Some username ->
       username <> ""
       /\ forallb username_char (chars username) = true
       /\ exists scheme www kind rest,
            url = profile_url scheme www kind username rest
            /\ In scheme ["http"; "https"] /\ In www [""; "www."] /\ In kind ["user"; "u"].
Proof.
  unfold validate_reddit_url, extract_username_from_url.
  destruct (match_line profile_url_pattern url) as [m|] eqn:Hm.
  - destruct (match_line_profile url m Hm)
      as (scheme & www & kind & username & rest & Hurl & Hs & Hw & Hk & Hne & Hall & Hg).
    split.
    + split; [intros _; eauto|reflexivity].
    + intros u Hu. rewrite Hg in Hu. injection Hu as <-.
      split; [destruct username; [contradiction|discriminate]|].
      split; [now rewrite chars_str|]. eauto 10.
  - split.
    + split; [discriminate|intros [u Hu]; discriminate].
    + discriminate.
Qed.

(** ** The matcher on a profile URL *)

Lemma chars_app (a b : string) : chars (a +:+ b) = (chars a ++ chars b)%list.
Proof.
  induction a as [|x a IH]; [reflexivity|].
  rewrite string_app_cons. unfold chars in *. simpl. now rewrite IH.
Qed.

Lemma step1_pos p st st1 :
  Re.step1 p st = Some st1 -> (Re.pos (Re.cur st) <? Re.pos (Re.cur st1)) = true.
Proof.
  unfold Re.step1. destruct (Re.after (Re.cur st)) as [|x rest]; [discriminate|].
  destruct (p x); [|discriminate]. intros [= <-]. unfold Re.pos. simpl. apply Nat.ltb_lt. lia.
Qed.

(** a repetition that has run as often as it may stops *)
Lemma rep_loop_full {A} (body : Re.mstate -> (Re.mstate -> option A) -> option A)
    lo h fuel cnt st k :
  h <= cnt -> Re.rep_loop body lo (Some h) fuel cnt st k = if lo <=? cnt then k st else None.
Proof.
  intros Hfull. destruct fuel as [|fuel]; [reflexivity|]. cbn [Re.rep_loop].
  destruct (Nat.ltb_spec cnt h); [lia|reflexivity].
Qed.

(** an optional character: taken if it is there and the rest of the pattern
    goes through, skipped otherwise *)
Lemma run_opt_chr {A} icase c st (k : Re.mstate -> option A) :
  Re.run icase (Re.opt (Re.Chr c)) st k
  = match Re.step1 (Re.chr_matches icase c) st with
    | Some st1 => match k st1 with Some a => Some a | None => k st end
    | None => k st
    end.
Proof.
  unfold Re.opt. cbn [Re.run Re.rep_loop]. change (0 <? 1) with true. cbn iota.
  change (0 <=? 0) with true. cbn iota.
  destruct (Re.step1 (Re.chr_matches icase c) st) as [st1|] eqn:Hstep; [|reflexivity].
  rewrite (step1_pos _ _ _ Hstep). rewrite rep_loop_full by lia. reflexivity.
Qed.

(** a greedy repetition of a one-character pattern runs to the end of the
    longest run of characters it accepts, when the rest of the pattern goes
    through from there *)
Lemma rep_chars_greedy {A} (body : Re.mstate -> (Re.mstate -> option A) -> option A)
    (p : ascii -> bool) lo (k : Re.mstate -> option A) a w :
  (forall st k', body st k' = match Re.step1 p st with Some st1 => k' st1 | None => None end) ->
  forall fuel cnt st rest,
    Re.after (Re.cur st) = (w ++ rest)%list ->
    Forall (fun x => p x = true) w ->
    match rest with
    | [] => True
    | x :: _ => p x = false
    end ->
    length w <= fuel -> lo <= cnt + length w ->
    k (Re.MState (Re.Cursor (rev w ++ Re.before (Re.cur st)) rest) (Re.groups st)) = Some a ->
    Re.rep_loop body lo None fuel cnt st k = Some a.
Proof.
  intros Hbody.
  induction w as [|x w IH]; intros fuel cnt st rest Hafter Hall Hrest Hfuel Hlo Hk.
  - cbn [app rev length] in *. destruct st as [[before after] groups].
    cbn [Re.cur Re.after Re.before Re.groups] in *.
    subst after. rewrite Nat.add_0_r in Hlo.
    assert (Hstop : (if lo <=? cnt then k (Re.MState (Re.Cursor before rest) groups) else None)
                    = Some a).
    { destruct (Nat.leb_spec lo cnt); [assumption|lia]. }
    destruct fuel as [|fuel]; [exact Hstop|]. cbn [Re.rep_loop]. rewrite Hbody.
    unfold Re.step1. cbn [Re.cur Re.after].
    destruct rest as [|y rest]; [exact Hstop|]. rewrite Hrest. exact Hstop.
  - destruct fuel as [|fuel]; [simpl in Hfuel; lia|].
    destruct st as [[before after] groups]. cbn [Re.cur Re.after Re.before Re.groups] in *.
    subst after. cbn [Re.rep_loop]. rewrite Hbody.
    unfold Re.step1. cbn [Re.cur Re.after Re.before Re.groups app].
    rewrite (Forall_inv Hall).
    assert (Hpos : (Re.pos (Re.Cursor before (x :: w ++ rest))
                    <? Re.pos (Re.Cursor (x :: before) (w ++ rest))) = true).
    { unfold Re.pos. simpl. apply Nat.ltb_lt. lia. }
    cbn [Re.cur]. rewrite Hpos.
    rewrite (IH fuel (S cnt) (Re.MState (Re.Cursor (x :: before) (w ++ rest)) groups) rest);
      try reflexivity; try assumption.
    + exact (Forall_inv_tail Hall).
    + simpl in Hfuel. lia.
    + simpl in Hlo. lia.
    + cbn [Re.cur Re.before Re.groups]. cbn [rev] in Hk. now rewrite <- app_assoc in Hk.
Qed.

Lemma rep_set_greedy {A} icase negated ranges lo (k : Re.mstate -> option A) a w
    fuel cnt st rest :
  Re.after (Re.cur st) = (w ++ rest)%list ->
  Forall (fun x => Re.set_matches icase negated ranges x = true) w ->
  match rest with
  | [] => True
  | x :: _ => Re.set_matches icase negated ranges x = false
  end ->
  length w <= fuel -> lo <= cnt + length w ->
  k (Re.MState (Re.Cursor (rev w ++ Re.before (Re.cur st)) rest) (Re.groups st)) = Some a ->
  Re.rep_loop (Re.run icase (Re.Set_ negated ranges)) lo None fuel cnt st k = Some a.
Proof.
  apply (rep_chars_greedy _ (Re.set_matches icase negated ranges)). reflexivity.
Qed.

(** the tail of the profile pattern, from the user name on *)
Lemma run_profile_tail username rest before :
  username <> [] -> forallb username_char username = true ->
  match rest with [] => True | x :: _ => username_char x = false end ->
  Forall (fun x => x <> line_feed) rest ->
  exists m,
    Re.run false
      (Re.seq [Re.Group "1" (Re.plus username_class); Re.opt (Re.Chr "/"); Re.star any_char])
      (Re.MState (Re.Cursor before (username ++ rest)) [])
      (fun st' =>
         if at_line_end (Re.cur st')
         then Some (Re.Match 0 (Re.pos (Re.cur st')) (str (rev (Re.before (Re.cur st'))))
                             (Re.groups st'))
         else None)
    = Some m
    /\ Re.group "1" m = Some (str username).
Proof.
  intros Hne Hall Hrest Hlf.
  set (kend := fun st' : Re.mstate =>
                 if at_line_end (Re.cur st')
                 then Some (Re.Match 0 (Re.pos (Re.cur st')) (str (rev (Re.before (Re.cur st'))))
                                     (Re.groups st'))
                 else None).
  assert (Hstar : forall seen w found,
            Forall (fun x => x <> line_feed) w ->
            Re.run false (Re.star any_char) (Re.MState (Re.Cursor seen w) found) kend
            = Some (Re.Match 0 (length w + length seen) (str (rev (rev w ++ seen))) found)).
  { intros seen w found Hw. unfold Re.star, any_char. cbn [Re.run].
    apply (rep_set_greedy false true [(line_feed, line_feed)] 0 kend _ w _ 0 _ []).
    - cbn [Re.cur Re.after]. now rewrite app_nil_r.
    - eapply List.Forall_impl; [|exact Hw]. intros x Hx. now apply any_char_accepts.
    - exact I.
    - cbn [Re.cur Re.after]. lia.
    - lia.
    - unfold kend, at_line_end. cbn [Re.cur Re.after Re.before Re.groups].
      unfold Re.pos. cbn [Re.before]. rewrite length_app, length_rev. reflexivity. }
  cbn [Re.seq Re.run]. unfold Re.plus, username_class.
  set (kgroup := fun st' : Re.mstate => _).
  assert (Hk : exists m,
             kgroup (Re.MState (Re.Cursor (rev username ++ before) rest) []) = Some m
             /\ Re.group "1" m = Some (str username)).
  { assert (Hname : str (rev (firstn (length (rev username ++ before) - length before)
                                     (rev username ++ before))) = str username).
    { rewrite length_app, Nat.add_sub, firstn_app, firstn_all, Nat.sub_diag.
      cbn [firstn]. now rewrite app_nil_r, rev_involutive. }
    unfold kgroup, Re.pos. cbn [Re.cur Re.after Re.before Re.groups]. rewrite Hname.
    rewrite run_opt_chr. unfold Re.step1. cbn [Re.cur Re.after Re.before Re.groups].
    destruct rest as [|x r].
    - rewrite Hstar by constructor. eexists. split; reflexivity.
    - destruct (Re.chr_matches false "/" x) eqn:Hx.
      + rewrite Hstar by exact (Forall_inv_tail Hlf). eexists. split; reflexivity.
      + rewrite Hstar by exact Hlf. eexists. split; reflexivity. }
  destruct Hk as (m & Hk & Hgroup). exists m. split; [|exact Hgroup].
  apply (rep_set_greedy false false _ 1 kgroup m username _ 0 _ rest);
    cbn [Re.cur Re.after Re.before Re.groups].
  - reflexivity.
  - apply List.Forall_forall. intros x Hx. rewrite username_class_char.
    rewrite forallb_forall in Hall. now apply Hall.
  - destruct rest as [|x r]; [exact I|]. now rewrite username_class_char.
  - rewrite length_app. lia.
  - destruct username; [contradiction|simpl; lia].
  - exact Hk.
Qed.

(** the head of the profile pattern, up to the slash before the user name *)
Lemma run_profile_head {A} tail (k : Re.mstate -> option A) a scheme www kind w :
  In scheme ["http"; "https"] -> In www [""; "www."] -> In kind ["user"; "u"] ->
  Re.run false tail
    (Re.MState (Re.Cursor (rev (chars (scheme +:+ "://" +:+ www +:+ "reddit.com/" +:+ kind +:+ "/")))
                          w) []) k = Some a ->
  Re.run false
    (Re.seq [Re.lit "http"; Re.opt (Re.Chr "s"); Re.lit "://"; Re.opt (Re.lit "www.");
             Re.lit "reddit.com/"; Re.alt [Re.lit "user"; Re.lit "u"]; Re.Chr "/"; tail])
    (Re.MState (Re.Cursor [] (chars (scheme +:+ "://" +:+ www +:+ "reddit.com/" +:+ kind +:+ "/")
                              ++ w)) []) k = Some a.
Proof.
  intros Hscheme Hwww Hkind.
  destruct Hscheme as [<-|[<-|[]]]; destruct Hwww as [<-|[<-|[]]]; destruct Hkind as [<-|[<-|[]]];
    intros Htail.
  all: match type of Htail with
       | context [rev ?l] => let l' := eval vm_compute in l in
                             change l with l' in Htail |- *
       end.
  all: cbn [rev app] in Htail.
  all: cbn; rewrite Htail; reflexivity.
Qed.

(** X17: round trip through a profile URL. A URL put together from "http"
    or "https", an optional "www.", "user" or "u", a non-empty user name of
    letters, digits, underscores and hyphens, and a rest that is empty or
    starts with another character and holds no line feed, is accepted by
    [validate_reddit_url], and [extract_username_from_url] gives back the
    user name it was built from, whole. *)
Theorem profile_url_round_trip (scheme www kind username rest : string) :
  In scheme ["http"; "https"] -> In www [""; "www."] -> In kind ["user"; "u"] ->
  username <> "" -> forallb username_char (chars username) = true -> trailer rest ->
  validate_reddit_url (profile_url scheme www kind username rest) = true
  /\ extract_username_from_url (profile_url scheme www kind username rest) = Some username.
Proof.
  intros Hscheme Hwww Hkind Hne Hall [Hhead Hlf].
  assert (Hm : exists m, match_line profile_url_pattern (profile_url scheme www kind username rest)
                         = Some m /\ Re.group "1" m = Some username).
  { destruct (run_profile_tail (chars username) (chars rest)
                (rev (chars (scheme +:+ "://" +:+ www +:+ "reddit.com/" +:+ kind +:+ "/"))))
      as (m & Hrun & Hgroup); try assumption.
    { intros Hnil. apply Hne. now rewrite <- (str_chars username), Hnil. }
    exists m. rewrite str_chars in Hgroup. split; [|exact Hgroup].
    unfold match_line, Re.start_of, profile_url.
    replace (chars (scheme +:+ "://" +:+ www +:+ "reddit.com/" +:+ kind +:+ "/" +:+ username +:+ rest))
      with (chars (scheme +:+ "://" +:+ www +:+ "reddit.com/" +:+ kind +:+ "/")
            ++ (chars username ++ chars rest))%list
      by now rewrite !chars_app, <- !app_assoc.
    now apply (run_profile_head _ _ m scheme www kind). }
  destruct Hm as (m & Hm & Hgroup).
  unfold validate_reddit_url, extract_username_from_url. rewrite Hm. now split.
Qed.

Lemma profile_url_round_trip_witness :
  validate_reddit_url "https://www.reddit.com/user/kojied/comments/" = true
  /\ extract_username_from_url "https://www.reddit.com/user/kojied/comments/" = Some "kojied".
Proof.
  apply (profile_url_round_trip "https" "www." "user" "kojied" "/comments/").
  - right. left. reflexivity.
  - right. left. reflexivity.
  - left. reflexivity.
  - discriminate.
  - reflexivity.
  - split; [reflexivity|].
    repeat (constructor; [discriminate|]). constructor.
Defined.

(** ** The persona document *)

Lemma length_chars s : length (chars s) = String.length s.
Proof. induction s as [|c s IH]; [reflexivity|]. unfold chars in *. simpl. now rewrite IH. Qed.

(** stripping a text that starts with ink and has ink further on leaves
    more than its start *)
Lemma strip_keeps_ink x h t :
  is_space x = false -> existsb (fun c => negb (is_space c)) t = true ->
  length (x :: h) < String.length (strip (str ((x :: h) ++ t))).
Proof.
  intros Hx Ht. rewrite <- length_chars, strip_chars, chars_str, length_rev.
  cbn [app]. rewrite (lstrip_fixed x _ Hx).
  change (x :: h ++ t)%list with ((x :: h) ++ t)%list. rewrite rev_app_distr.
  destruct (lstrip_decompose (rev t ++ rev (x :: h))) as (ws & Hl & Hws).
  assert (Hlen : length ws < length t).
  { destruct (Nat.lt_ge_cases (length ws) (length t)) as [|Hge]; [assumption|exfalso].
    apply (f_equal (firstn (length (rev t)))) in Hl.
    rewrite firstn_app, firstn_all, Nat.sub_diag in Hl. cbn [firstn] in Hl.
    rewrite app_nil_r, firstn_app in Hl.
    replace (length (rev t) - length ws) with 0 in Hl by (rewrite length_rev; lia).
    cbn [firstn] in Hl. rewrite app_nil_r in Hl.
    apply existsb_exists in Ht as (c & Hc & Hink).
    rewrite forallb_forall in Hws.
    rewrite (Hws c) in Hink; [discriminate|].
    rewrite <- (firstn_skipn (length (rev t)) ws). apply in_or_app. left.
    rewrite <- Hl. now apply in_rev in Hc. }
  apply (f_equal (@length ascii)) in Hl. rewrite !length_app, !length_rev in Hl.
  cbn [length] in *. lia.
Qed.

Lemma strip_keeps_ink_neq heading x h t :
  chars heading = x :: h -> is_space x = false ->
  existsb (fun c => negb (is_space c)) (chars t) = true ->
  String.eqb (strip (heading +:+ t)) heading = false.
Proof.
  intros Hh Hx Ht. apply String.eqb_neq. intros Heq.
  pose proof (strip_keeps_ink x h (chars t) Hx Ht) as Hlen.
  rewrite <- Hh, <- chars_app, str_chars, Heq, <- length_chars in Hlen. lia.
Qed.

Lemma lines_of_app a b : lines_of (a ++ b) = lines_of a +:+ lines_of b.
Proof.
  unfold lines_of. induction a as [|x a IH]; cbn [app fold_right].
  - now rewrite string_app_nil.
  - now rewrite IH, string_app_assoc.
Qed.

Lemma string_app_empty (s : string) : s +:+ "" = s.
Proof. induction s as [|c s IH]; [reflexivity|]. now rewrite string_app_cons, IH. Qed.

Lemma fold_fact_line facts : forall section,
  fold_left fact_line facts section
  = section +:+ lines_of (map fact_bullet
                            (List.filter (fun f => truthy_str (Some (description f))) facts)).
Proof.
  induction facts as [|f facts IH]; intros section; cbn [fold_left List.filter map lines_of fold_right].
  - now rewrite string_app_empty.
  - rewrite IH. unfold fact_line.
    destruct (truthy_str (Some (description f))); [|reflexivity].
    cbn [map lines_of fold_right]. now rewrite string_app_assoc.
Qed.

(** a row of bullets holds ink *)
Lemma bullets_hold_ink f shown :
  existsb (fun c => negb (is_space c))
          (chars (nl +:+ nl +:+ lines_of (map fact_bullet (f :: shown)))) = true.
Proof.
  cbn [map lines_of fold_right]. unfold fact_bullet.
  rewrite !chars_app. rewrite !existsb_app. reflexivity.
Qed.

Lemma fact_section_spec heading x h facts :
  chars heading = x :: h -> is_space x = false ->
  String.eqb (strip (heading +:+ nl +:+ nl)) heading = true ->
  fact_section heading facts
  = heading +:+ nl +:+ nl
    +:+ match facts, shown_facts facts with
        | [], _ => placeholder +:+ nl +:+ nl
        | _, [] => placeholder +:+ nl
        | _, shown => lines_of (map fact_bullet shown)
        end
    +:+ nl.
Proof.
  intros Hh Hx Hbare. unfold fact_section, shown_facts.
  destruct facts as [|f0 facts]; [now rewrite !string_app_assoc|].
  rewrite fold_fact_line.
  destruct (List.filter _ (take 5 (f0 :: facts))) as [|f shown] eqn:Hshown.
  - cbn [map lines_of fold_right]. rewrite string_app_empty, Hbare.
    now rewrite !string_app_assoc.
  - rewrite !string_app_assoc.
    rewrite (strip_keeps_ink_neq heading x h _ Hh Hx (bullets_hold_ink f shown)).
    now rewrite !string_app_assoc.
Qed.

(** X18: the sections of behaviours, frustrations and goals: each prints its
    heading and one bullet for every fact with a description among the first
    five of the collection, in order, each with the link to its source. The
    line "Less info to analyze this" stands in for the bullets exactly when
    there are none, followed by one more empty line when the collection
    itself is empty. *)
Theorem fact_sections_list_the_first_five :
  Forall (fun '(section_of, heading) =>
            forall facts : list fact,
              section_of facts
              = heading +:+ nl +:+ nl
                +:+ match facts, shown_facts facts with
                    | [], _ => placeholder +:+ nl +:+ nl
                    | _, [] => placeholder +:+ nl
                    | _, shown => lines_of (map fact_bullet shown)
                    end
                +:+ nl)
         [(_generate_behaviors_section, "### Behavior & Habits");
          (_generate_frustrations_section, "### Frustrations");
          (_generate_goals_section, "### Goals & Needs")].
Proof.
  repeat constructor; intros facts; eapply fact_section_spec; reflexivity.
Qed.

(** ** The motivations of an analysis, as the generator sees them *)

Lemma analysis_motivations self items :
  exists ms,
    _extract_motivations self items = Ok ms
    /\ map fst ms = map fst category_keywords
    /\ Forall (fun m => (0 <= sc_score (snd m) <= 10)%Z) ms.
Proof.
  unfold _extract_motivations.
  set (evs := motivation_evidence self items).
  destruct (normalize_spec (max_score evs) evs) as (ms & Hms & Hall).
  - apply max_score_positive.
  - apply List.Forall_forall. intros [c ev] Hin. exact (max_score_bound _ c ev Hin).
  - exists ms. split; [exact Hms|].
    rewrite <- (motivation_evidence_keys self items). fold evs.
    clear Hms. induction Hall as [|e m evs' ms' Hn Hall [IHk IHb]]; [split; constructor|].
    destruct Hn as (Hkey & _ & n & _ & _ & Hb).
    split; [cbn [map]; now rewrite Hkey, IHk|now constructor].
Qed.

Lemma fold_motivation_line ms : forall section,
  fold_left motivation_line ms section = section +:+ lines_of (map motivation_row ms).
Proof.
  induction ms as [|m ms IH]; intros section; cbn [fold_left map lines_of fold_right].
  - now rewrite string_app_empty.
  - rewrite IH. unfold motivation_line. now rewrite string_app_assoc.
Qed.

Lemma motivation_rows_hold_ink m ms :
  existsb (fun c => negb (is_space c))
          (chars (nl +:+ nl +:+ lines_of (map motivation_row (m :: ms)))) = true.
Proof.
  cbn [map lines_of fold_right]. destruct m as [category data]. unfold motivation_row.
  rewrite !chars_app. rewrite !existsb_app. reflexivity.
Qed.

Lemma motivations_section_rows ms :
  ms <> [] ->
  _generate_motivations_section ms
  = "### Motivations" +:+ nl +:+ nl +:+ lines_of (map motivation_row ms) +:+ nl.
Proof.
  intros Hne. unfold _generate_motivations_section.
  destruct ms as [|m ms]; [contradiction|].
  rewrite fold_motivation_line, !string_app_assoc.
  rewrite (strip_keeps_ink_neq "### Motivations" "#" (chars "## Motivations") _ eq_refl eq_refl
             (motivation_rows_hold_ink m ms)).
  now rewrite !string_app_assoc.
Qed.

Lemma bar_cells k :
  k <= 10 -> bar (Z.of_nat k) = copies full_block k +:+ copies light_shade (10 - k).
Proof.
  intros Hk. unfold bar, repeated. rewrite Nat2Z.id. do 2 f_equal. lia.
Qed.

(** X19: the motivations section of an analysis. It has one row for each
    of the six categories, in the order of the table, and never the line
    "Less info to analyze this"; the bar of a row is ten cells long: as many
    full cells as the score of the category, then light ones. *)
Theorem motivation_bars_have_ten_cells (self : PersonaAnalyzer) (text_items : list item) :
  exists ms,
    _extract_motivations self text_items = Ok ms
    /\ map fst ms = ["convenience"; "wellness"; "speed"; "preferences"; "comfort"; "dietary_needs"]
    /\ _generate_motivations_section ms
       = "### Motivations" +:+ nl +:+ nl +:+ lines_of (map motivation_row ms) +:+ nl
    /\ Forall (fun m => exists k,
                 k <= 10 /\ sc_score (snd m) = Z.of_nat k
                 /\ bar (sc_score (snd m)) = copies full_block k +:+ copies light_shade (10 - k))
              ms.
Proof.
  destruct (analysis_motivations self text_items) as (ms & Hms & Hkeys & Hbounds).
  exists ms. split; [exact Hms|]. split; [exact Hkeys|]. split.
  - apply motivations_section_rows. intros ->. discriminate.
  - eapply List.Forall_impl; [|exact Hbounds]. intros m Hm. cbn beta in Hm.
    exists (Z.to_nat (sc_score (snd m))). split; [lia|].
    rewrite Z2Nat.id by lia. split; [reflexivity|].
    rewrite <- (Z2Nat.id (sc_score (snd m))) at 1 by lia. apply bar_cells. lia.
Qed.

(** ** The scale of a personality axis *)

Lemma scale_positions :
  forallb (fun n => match PyFloat.scaled (Z.of_nat n) 100 scale_length with
                    | Some position => (position =? Z.of_nat (n / 5))%Z
                    | None => false
                    end) (seq 0 101) = true.
Proof. vm_compute. reflexivity. Qed.

Lemma scaled_fifth score :
  (0 <= score <= 100)%Z -> PyFloat.scaled score 100 scale_length = Some (score / 5)%Z.
Proof.
  intros Hscore. pose proof scale_positions as Hall. rewrite forallb_forall in Hall.
  specialize (Hall (Z.to_nat score)). rewrite Z2Nat.id in Hall by lia.
  destruct (PyFloat.scaled score 100 scale_length) as [position|].
  - f_equal. apply Z.eqb_eq in Hall; [|apply in_seq; lia].
    rewrite Hall, Nat2Z.inj_div, Z2Nat.id by lia. reflexivity.
  - discriminate Hall. apply in_seq. lia.
Qed.

Lemma scale_cells score :
  (0 <= score <= 100)%Z ->
  scale score = Ok (copies light_shade (Z.to_nat (score / 5)) +:+ full_block
                    +:+ copies light_shade (19 - Z.to_nat (score / 5))).
Proof.
  intros Hscore. unfold scale. rewrite (scaled_fifth score Hscore). unfold repeated.
  do 4 f_equal. unfold scale_length.
  assert (0 <= score / 5)%Z by (apply Z.div_pos; lia). lia.
Qed.

(** X20: the scale of a personality axis, for a score between 0 and 100:
    the marker stands after as many light cells as the score holds fives,
    and light cells fill the scale up to twenty cells. At a score of 100
    the marker comes after twenty light cells, and the scale is twenty-one
    cells long. *)
Theorem scale_marks_a_fifth_of_the_score (score : Z) :
  (0 <= score <= 100)%Z ->
  let k := Z.to_nat (score / 5) in
  scale score = Ok (copies light_shade k +:+ full_block +:+ copies light_shade (19 - k))
  /\ k + 1 + (19 - k) = if (score =? 100)%Z then 21 else 20.
Proof.
  intros Hscore k. split; [exact (scale_cells score Hscore)|]. unfold k.
  destruct (Z.eqb_spec score 100) as [->|Hne]; [reflexivity|].
  assert (score / 5 < 20)%Z by (apply Z.div_lt_upper_bound; lia).
  assert (0 <= score / 5)%Z by (apply Z.div_pos; lia). lia.
Qed.

Lemma scale_marks_a_fifth_of_the_score_witness :
  scale 100 = Ok (copies light_shade 20 +:+ full_block +:+ copies light_shade 0)
  /\ 20 + 1 + 0 = 21.
Proof. apply (scale_marks_a_fifth_of_the_score 100). lia. Defined.

(** ** The personality section of an analysis *)

Lemma analysis_personality `{Runtime} (text_items : list item) :
  exists p,
    _analyze_personality new_analyzer text_items = Ok p
    /\ Forall (fun d => (0 <= sc_score (snd d) <= 100)%Z) (personality_items p).
Proof.
  unfold _analyze_personality.
  set (all_text := corpus_text text_items).
  cbn [personality_dimensions new_analyzer fold_left].
  repeat match goal with
  | |- context [dimension_step ?i ?a (Ok ?p) (?d, ((?lt, ?lk), (?rt, ?rk)))] =>
      let n := fresh "n" in let c := fresh "c" in let E := fresh "E" in
      let B := fresh "B" in
      destruct (dimension_step_bounds i a p d lt lk rt rk eq_refl) as (n & c & E & B & _ & _);
      rewrite E; clear E
  end.
  eexists. split; [reflexivity|].
  unfold personality_items. cbn.
  repeat (apply List.Forall_cons; [assumption|]). apply List.Forall_nil.
Qed.

Lemma personality_row_ok dimension left_name right_name data :
  table_get dimension dimension_names = Some (left_name, right_name) ->
  (0 <= sc_score data <= 100)%Z ->
  personality_row (dimension, data)
  = Ok ("**" +:+ left_name +:+ "** "
        +:+ (copies light_shade (Z.to_nat (sc_score data / 5)) +:+ full_block
             +:+ copies light_shade (19 - Z.to_nat (sc_score data / 5)))
        +:+ " **" +:+ right_name +:+ "** " +:+ first_citation (sc_citations data) +:+ nl).
Proof.
  intros Hnames Hscore. unfold personality_row. rewrite Hnames. cbn [default].
  rewrite (scale_cells _ Hscore). reflexivity.
Qed.

Lemma personality_rows_hold_ink rest :
  existsb (fun c => negb (is_space c)) (chars (nl +:+ nl +:+ "**" +:+ rest)) = true.
Proof. rewrite !chars_app. rewrite !existsb_app. reflexivity. Qed.

Lemma personality_section_rows p :
  Forall (fun d => (0 <= sc_score (snd d) <= 100)%Z) (personality_items p) ->
  exists rows,
    Forall2 (fun d row => personality_row d = Ok row) (personality_items p) rows
    /\ _generate_personality_section p
       = Ok ("### Personality" +:+ nl +:+ nl +:+ lines_of rows +:+ nl).
Proof.
  intros Hb. unfold personality_items in *.
  pose proof (Forall_inv Hb) as B1. pose proof (Forall_inv (Forall_inv_tail Hb)) as B2.
  pose proof (Forall_inv (Forall_inv_tail (Forall_inv_tail Hb))) as B3.
  pose proof (Forall_inv (Forall_inv_tail (Forall_inv_tail (Forall_inv_tail Hb)))) as B4.
  cbn [snd] in B1, B2, B3, B4.
  pose proof (personality_row_ok "introvert_extrovert" _ _ _ eq_refl B1) as R1.
  pose proof (personality_row_ok "intuition_sensing" _ _ _ eq_refl B2) as R2.
  pose proof (personality_row_ok "feeling_thinking" _ _ _ eq_refl B3) as R3.
  pose proof (personality_row_ok "perceiving_judging" _ _ _ eq_refl B4) as R4.
  eexists [_; _; _; _]. split.
  - repeat constructor; eassumption.
  - unfold _generate_personality_section, personality_items. cbn [fold_left].
    unfold personality_line. cbn [rbind]. rewrite R1. cbn [rbind]. rewrite R2. cbn [rbind].
    rewrite R3. cbn [rbind]. rewrite R4. cbn [rbind].
    rewrite !string_app_assoc.
    rewrite (strip_keeps_ink_neq "### Personality" "#" (chars "## Personality") _ eq_refl eq_refl
               (personality_rows_hold_ink _)).
    unfold lines_of. cbn [fold_right]. rewrite ?string_app_assoc, ?string_app_nil.
    reflexivity.
Qed.

(** X21: the personality section of an analysis. Building it never fails;
    it has one row for each of the four axes, in the order of the analysis,
    and never the line "Less info to analyze this". A row names the two
    poles of its axis around the scale, on which the marker stands after as
    many light cells as the score holds fives. *)
Theorem personality_section_of_an_analysis `{Runtime} (text_items : list item) :
  exists p rows,
    _analyze_personality new_analyzer text_items = Ok p
    /\ _generate_personality_section p
       = Ok ("### Personality" +:+ nl +:+ nl +:+ lines_of rows +:+ nl)
    /\ Forall2 (fun '(d, (left_name, right_name)) row =>
                  let k := Z.to_nat (sc_score (snd d) / 5) in
                  k <= 20
                  /\ row = "**" +:+ left_name +:+ "** "
                           +:+ (copies light_shade k +:+ full_block +:+ copies light_shade (19 - k))
                           +:+ " **" +:+ right_name +:+ "** "
                           +:+ first_citation (sc_citations (snd d)) +:+ nl)
               (zip (personality_items p)
                    [("INTROVERT", "EXTROVERT"); ("INTUITION", "SENSING");
                     ("FEELING", "THINKING"); ("PERCEIVING", "JUDGING")])
               rows.
Proof.
  destruct (analysis_personality text_items) as (p & Hp & Hb).
  destruct (personality_section_rows p Hb) as (rows & Hrows & Hsection).
  exists p, rows. split; [exact Hp|]. split; [exact Hsection|].
  unfold personality_items in *.
  pose proof (Forall_inv Hb) as B1. pose proof (Forall_inv (Forall_inv_tail Hb)) as B2.
  pose proof (Forall_inv (Forall_inv_tail (Forall_inv_tail Hb))) as B3.
  pose proof (Forall_inv (Forall_inv_tail (Forall_inv_tail (Forall_inv_tail Hb)))) as B4.
  cbn [snd] in B1, B2, B3, B4.
  assert (Hk : forall s, (0 <= s <= 100)%Z -> Z.to_nat (s / 5) <= 20).
  { intros s Hs. assert (s / 5 <= 20)%Z by (apply Z.div_le_upper_bound; lia). lia. }
  inversion Hrows as [|d1 r1 l1 rs1 H1 Hrows1]; subst.
  inversion Hrows1 as [|d2 r2 l2 rs2 H2 Hrows2]; subst.
  inversion Hrows2 as [|d3 r3 l3 rs3 H3 Hrows3]; subst.
  inversion Hrows3 as [|d4 r4 l4 rs4 H4 Hrows4]; subst.
  inversion Hrows4; subst.
  rewrite (personality_row_ok "introvert_extrovert" _ _ _ eq_refl B1) in H1.
  rewrite (personality_row_ok "intuition_sensing" _ _ _ eq_refl B2) in H2.
  rewrite (personality_row_ok "feeling_thinking" _ _ _ eq_refl B3) in H3.
  rewrite (personality_row_ok "perceiving_judging" _ _ _ eq_refl B4) in H4.
  injection H1 as <-. injection H2 as <-. injection H3 as <-. injection H4 as <-.
  cbn [zip zip_with].
  repeat (constructor; [cbn [snd]; split; [now apply Hk|reflexivity]|]).
  constructor.
Qed.

(** ** The highlighted quote *)

Lemma sorted_by_score_snoc l x :
  sorted_by_score (l ++ [x]) = insert_by_score x (sorted_by_score l).
Proof. unfold sorted_by_score. now rewrite fold_left_app. Qed.

(** the stable sort by decreasing score starts with the first maximum *)
Lemma sorted_by_score_head l :
  match l with
  | [] => sorted_by_score l = []
  | _ => exists m rest, sorted_by_score l = m :: rest /\ first_maximum m l
  end.
Proof.
  induction l as [|x l IH] using rev_ind; [reflexivity|].
  assert (Hgoal : exists m rest, sorted_by_score (l ++ [x]) = m :: rest
                                 /\ first_maximum m (l ++ [x])).
  { rewrite sorted_by_score_snoc. destruct l as [|y l].
    - exists x, []. split; [reflexivity|]. exists [], []. repeat split; constructor.
    - destruct IH as (m & rest & Hsorted & l1 & l2 & Heq & H1 & H2).
      rewrite Hsorted. cbn [insert_by_score].
      destruct (Z.ltb_spec (sc_score (snd m)) (sc_score (snd x))) as [Hlt|Hge].
      + exists x, (m :: rest). split; [reflexivity|].
        exists (y :: l), []. split; [reflexivity|]. split; [|constructor].
        rewrite Heq. apply Forall_app. split.
        * eapply List.Forall_impl; [|exact H1]. intros z Hz. cbn beta in Hz. lia.
        * constructor; [assumption|].
          eapply List.Forall_impl; [|exact H2]. intros z Hz. cbn beta in Hz. lia.
      + exists m, (insert_by_score x rest). split; [reflexivity|].
        exists l1, (l2 ++ [x])%list. split; [|split; [assumption|]].
        * rewrite Heq, <- app_assoc. reflexivity.
        * apply Forall_app. split; [assumption|]. constructor; [assumption|constructor]. }
  destruct (l ++ [x])%list eqn:Hl; [|exact Hgoal].
  now destruct l.
Qed.

(** X22: the highlighted quote of an analysis is the description of the
    first goal that has one. Without such a goal it is the sentence "I want
    to spend more time on ..." about one of the six motivation categories,
    the first of highest score in the order of the table, with its
    underscores turned into spaces: the fallback sentence of the function
    is never reached. *)
Theorem highlighted_quote_of_an_analysis (self : PersonaAnalyzer) (text_items : list item)
    (goals : list fact) :
  exists ms,
    _extract_motivations self text_items = Ok ms
    /\ match List.find (fun goal => truthy_str (Some (description goal))) goals with
       | Some goal => _generate_highlighted_quote ms goals = description goal
       | None =>
           exists category data,
             first_maximum (category, data) ms
             /\ In category ["convenience"; "wellness"; "speed"; "preferences"; "comfort";
                             "dietary_needs"]
             /\ _generate_highlighted_quote ms goals
                = "I want to spend more time on " +:+ replace_char "_" " " category +:+ "."
       end.
Proof.
  destruct (analysis_motivations self text_items) as (ms & Hms & Hkeys & _).
  exists ms. split; [exact Hms|]. unfold _generate_highlighted_quote.
  destruct (List.find _ goals) as [goal|]; [reflexivity|].
  pose proof (sorted_by_score_head ms) as Hhead.
  destruct ms as [|m0 ms0]; [discriminate|].
  destruct Hhead as ([category data] & rest & Hsorted & Hfirst).
  exists category, data. split; [exact Hfirst|]. split; [|now rewrite Hsorted].
  destruct Hfirst as (l1 & l2 & Heq & _).
  change ["convenience"; "wellness"; "speed"; "preferences"; "comfort"; "dietary_needs"]
    with (map fst category_keywords).
  rewrite <- Hkeys, Heq, map_app. apply in_or_app. right. now left.
Qed.

(** ** The archetype of an analysis *)

Lemma determine_archetype_named (p : persona) : In (_determine_archetype p) archetype_names.
Proof.
  pose proof (archetype_scores_keys p) as Hkeys. unfold _determine_archetype.
  destruct (archetype_scores p) as [|first rest]; [discriminate|].
  destruct (max_by_score_first rest first) as (l1 & l2 & Heq & _).
  rewrite <- Hkeys, Heq, map_app. apply in_or_app. right. now left.
Qed.

Lemma infer_archetype_named `{Runtime} self basic act items p :
  infer self basic act items = Ok p -> In (archetype p) archetype_names.
Proof.
  unfold infer. destruct (_extract_motivations self items) as [ms|]; [|discriminate].
  destruct (_analyze_personality self items) as [pers|]; [|discriminate].
  cbn [rbind]. intros [= <-]. apply determine_archetype_named.
Qed.

Lemma infer_parts `{Runtime} self basic act items p :
  infer self basic act items = Ok p ->
  p_activity p = act
  /\ _extract_motivations self items = Ok (motivations p)
  /\ _analyze_personality self items = Ok (personality p).
Proof.
  unfold infer. destruct (_extract_motivations self items) as [ms|]; [|discriminate].
  destruct (_analyze_personality self items) as [pers|]; [|discriminate].
  cbn [rbind]. intros [= <-]. auto.
Qed.

Lemma archetype_names_truthy a : In a archetype_names -> truthy_str (Some a) = true.
Proof.
  intros Ha. repeat (destruct Ha as [<-|Ha]; [reflexivity|]). destruct Ha.
Qed.

(** X23: the basic information of an analysis is always written out in
    full, in six lines: the age, the occupation and the status in title
    case, the location, the tier and the archetype, with "Less info to
    analyze this" for what was not detected. The tier line never shows the
    activity level of the analysis: it reads "Less info to analyze this"
    whatever the activity was. *)
Theorem basic_information_never_shows_the_tier `{Runtime} (basic : demographics -> basic_info)
    (act : activity) (text_items : list item) :
  exists p,
    infer new_analyzer basic act text_items = Ok p
    /\ p_activity p = act
    /\ let d := detected_demographics (p_basic_info p) in
       _generate_basic_info_section (p_basic_info p) (p_activity p) (archetype p)
       = "### Basic Information" +:+ nl +:+ nl
         +:+ "**AGE:** "
         +:+ (if truthy_nat (value (age d)) then of_Z (Z.of_nat (default 0 (value (age d))))
              else placeholder) +:+ nl +:+ nl
         +:+ "**OCCUPATION:** "
         +:+ (if truthy_str (value (occupation d)) then title (default "" (value (occupation d)))
              else placeholder) +:+ nl +:+ nl
         +:+ "**STATUS:** "
         +:+ (if truthy_str (value (status d)) then title (default "" (value (status d)))
              else placeholder) +:+ nl +:+ nl
         +:+ "**LOCATION:** "
         +:+ (if truthy_str (value (location d)) then default "" (value (location d))
              else placeholder) +:+ nl +:+ nl
         +:+ "**TIER:** " +:+ placeholder +:+ nl +:+ nl
         +:+ "**USER TYPE:** " +:+ archetype p +:+ nl +:+ nl.
Proof.
  destruct (infer_returns basic act text_items) as (p & Hp).
  exists p. split; [exact Hp|]. split; [apply (infer_parts _ _ _ _ _ Hp)|].
  intros d. unfold _generate_basic_info_section. fold d.
  rewrite (archetype_names_truthy _ (infer_archetype_named _ _ _ _ _ Hp)).
  rewrite !orb_true_r. cbn [negb truthy_str]. now rewrite !string_app_assoc.
Qed.

(** ** The name of the persona *)

Lemma persona_name_rows archetype :
  In (default default_names (table_get archetype persona_names))
     [names_of_the_creator; names_of_the_caregiver; names_of_the_explorer; names_of_the_sage].
Proof.
  unfold table_get, persona_names. cbn [List.find].
  repeat match goal with
         | |- context [String.eqb ?a ?b] => destruct (String.eqb a b)
         end; cbn; auto 6.
Qed.

Lemma residue_of_eight (z : Z) :
  In (Z.to_nat (z mod 8)) [0; 1; 2; 3; 4; 5; 6; 7].
Proof.
  pose proof (Z.mod_pos_bound z 8 eq_refl) as Hb.
  assert (Hn : Z.to_nat (z mod 8) < 8) by lia.
  destruct (Z.to_nat (z mod 8)) as [|[|[|[|[|[|[|[|n]]]]]]]]; cbn; auto 10. lia.
Qed.

(** X24: the first name of the persona follows the interpreter's [hash]:
    for one user and one archetype, two hash functions give the same name
    exactly when their values for the user name agree modulo eight. Each
    archetype has eight names to draw from, all different. *)
Theorem persona_name_follows_the_hash (hash1 hash2 : string -> Z) (username archetype : string) :
  _generate_persona_name hash1 username archetype = _generate_persona_name hash2 username archetype
  <-> (hash1 username mod 8 = hash2 username mod 8)%Z.
Proof.
  unfold _generate_persona_name.
  pose proof (persona_name_rows archetype) as Hrow.
  set (row := default default_names (table_get archetype persona_names)) in *.
  assert (Hlen : length row = 8).
  { repeat (destruct Hrow as [<-|Hrow]; [reflexivity|]). destruct Hrow. }
  rewrite Hlen. change (Z.of_nat 8) with 8%Z.
  pose proof (Z.mod_pos_bound (hash1 username) 8 eq_refl) as B1.
  pose proof (Z.mod_pos_bound (hash2 username) 8 eq_refl) as B2.
  rewrite <- (Z2Nat.inj_iff (hash1 username mod 8) (hash2 username mod 8)) by lia.
  pose proof (residue_of_eight (hash1 username)) as H1.
  pose proof (residue_of_eight (hash2 username)) as H2.
  set (i := Z.to_nat (hash1 username mod 8)) in *.
  set (j := Z.to_nat (hash2 username mod 8)) in *.
  clearbody i j. clear B1 B2 Hlen. clearbody row.
  repeat (destruct Hrow as [<-|Hrow]; [|]); try destruct Hrow.
  all: repeat (destruct H1 as [<-|H1]; [|]); try destruct H1.
  all: repeat (destruct H2 as [<-|H2]; [|]); try destruct H2.
  all: split; intros Heq; try reflexivity; try discriminate Heq.
Qed.

(** ** The document of an analysis *)

Lemma archetype_rows a :
  In a archetype_names ->
  exists names traits,
    a = "The " +:+ last_field a
    /\ table_get a persona_names = Some names /\ length names = 8
    /\ table_get a archetype_traits = Some traits /\ length traits = 4
    /\ _generate_traits_section traits
       = "### Traits" +:+ nl +:+ nl
         +:+ join " " (map (fun trait => "`" +:+ trait +:+ "`") traits) +:+ nl +:+ nl.
Proof.
  intros Ha.
  repeat (destruct Ha as [<-|Ha];
          [eexists _, _; repeat split; try (vm_compute; reflexivity)|]).
  destruct Ha.
Qed.

(** X25: an analysis always makes a document: [generate_persona] does not
    fail on what the analyzer returns. The document opens with the title
    line "# <first name> <kind>", where the archetype is "The <kind>" and
    the first name is one of the eight of the archetype's row; the traits
    it lists are the four of the archetype's row of the traits table. *)
Theorem analysis_always_renders `{Runtime} (hash : string -> Z) (now : string)
    (basic : demographics -> basic_info) (act : activity) (text_items : list item)
    (username : string) :
  exists p document first_name kind names traits,
    infer new_analyzer basic act text_items = Ok p
    /\ generate_persona hash now p username = Ok document
    /\ archetype p = "The " +:+ kind
    /\ table_get (archetype p) persona_names = Some names
    /\ In first_name names
    /\ table_get (archetype p) archetype_traits = Some traits
    /\ length traits = 4
    /\ _generate_traits_section (_default_traits_for_archetype (archetype p))
       = "### Traits" +:+ nl +:+ nl
         +:+ join " " (map (fun trait => "`" +:+ trait +:+ "`") traits) +:+ nl +:+ nl
    /\ exists body,
         document = ("# " +:+ first_name +:+ " " +:+ kind +:+ nl) +:+ body.
Proof.
  destruct (infer_returns basic act text_items) as (p & Hp).
  destruct (infer_parts _ _ _ _ _ Hp) as (_ & _ & Hpers).
  destruct (analysis_personality text_items) as (pers & Hpers' & Hb).
  rewrite Hpers in Hpers'. injection Hpers' as <-.
  destruct (personality_section_rows _ Hb) as (rows & _ & Hsection).
  destruct (archetype_rows _ (infer_archetype_named _ _ _ _ _ Hp))
    as (names & traits & Hkind & Hnames & Hlen & Htraits & Hfour & Hshown).
  eexists p, _, (_generate_persona_name hash username (archetype p)),
    (last_field (archetype p)), names, traits.
  split; [exact Hp|]. split.
  { unfold generate_persona. rewrite Hsection. cbn [rbind]. reflexivity. }
  split; [exact Hkind|]. split; [exact Hnames|]. split.
  { unfold _generate_persona_name. rewrite Hnames.
    change (default default_names (Some names)) with names. apply nth_In.
    rewrite Hlen. change (Z.of_nat 8) with 8%Z.
    pose proof (Z.mod_pos_bound (hash username) 8 eq_refl). lia. }
  split; [exact Htraits|]. split; [exact Hfour|]. split.
  { unfold _default_traits_for_archetype. rewrite Htraits. exact Hshown. }
  eexists. unfold _generate_header. rewrite !string_app_assoc. reflexivity.
Qed.

(** ** The descriptions of an analysis are never empty *)

Lemma lstrip_ink l :
  existsb (fun c => negb (is_space c)) l = true ->
  existsb (fun c => negb (is_space c)) (lstrip_chars l) = true.
Proof.
  induction l as [|c l IH]; [discriminate|]. cbn [lstrip_chars existsb].
  destruct (is_space c) eqn:Hc; [exact IH|].
  intros _. cbn [existsb]. now rewrite Hc.
Qed.

Lemma existsb_rev {A} (f : A -> bool) l : existsb f (rev l) = existsb f l.
Proof.
  induction l as [|x l IH]; [reflexivity|].
  cbn [rev existsb]. rewrite existsb_app, IH. cbn [existsb]. now rewrite orb_false_r, orb_comm.
Qed.

(** a text that holds ink does not strip to nothing *)
Lemma strip_ink s :
  existsb (fun c => negb (is_space c)) (chars s) = true -> strip s <> "".
Proof.
  intros Hink Hnil. apply lstrip_ink in Hink. rewrite <- existsb_rev in Hink.
  apply lstrip_ink in Hink. rewrite <- existsb_rev, <- strip_chars, Hnil in Hink. discriminate.
Qed.

Lemma capitalize_nonempty s : s <> "" -> capitalize s <> "".
Proof. destruct s; [contradiction|discriminate]. Qed.

Lemma description_truthy c :
  existsb (fun x => negb (is_space x)) (chars c) = true ->
  truthy_str (Some (capitalize (strip c))) = true.
Proof.
  intros Hink. cbn [truthy_str]. apply negb_true_iff, String.eqb_neq.
  now apply capitalize_nonempty, strip_ink.
Qed.

Lemma starts_with_head x p l : starts_with (x :: p) l = true -> In x l.
Proof.
  destruct l as [|b l]; [discriminate|]. cbn [starts_with].
  intros Hs. apply andb_true_iff in Hs as [Hx _]. apply Ascii.eqb_eq in Hx. now left.
Qed.

Lemma contains_chars_head x p l : contains_chars (x :: p) l = true -> In x l.
Proof.
  induction l as [|b l IH]; intros Hc.
  - cbn in Hc. discriminate.
  - cbn [contains_chars] in Hc. apply orb_true_iff in Hc as [Hs|Hc].
    + now apply starts_with_head in Hs.
    + right. now apply IH.
Qed.

Lemma contains_ink k s :
  inked k -> contains k s = true ->
  existsb (fun c => negb (is_space c)) (chars s) = true.
Proof.
  intros (x & t & Hk & Hx) Hc. unfold contains in Hc. rewrite Hk in Hc.
  apply contains_chars_head in Hc. apply existsb_exists. exists x. now rewrite Hx.
Qed.

Lemma keyword_sentences_ink keywords min_len txt c :
  Forall inked keywords -> In c (keyword_sentences keywords min_len txt) ->
  existsb (fun x => negb (is_space x)) (chars c) = true.
Proof.
  intros Hall Hin. unfold keyword_sentences in Hin.
  apply in_flat_map in Hin as (k & Hk & Hin).
  destruct (contains k txt); [|destruct Hin].
  apply filter_In in Hin as [_ Hc]. apply andb_true_iff in Hc as [Hc _].
  rewrite List.Forall_forall in Hall. exact (contains_ink k c (Hall k Hk) Hc).
Qed.

Lemma template_matches_ink phrases txt c :
  Forall (fun phrase => exists x tail, phrase = String x tail /\ tail <> ""
                                       /\ is_space (to_lower x) = false) phrases ->
  In c (template_matches phrases txt) ->
  existsb (fun x => negb (is_space x)) (chars c) = true.
Proof.
  intros Hall Hin. unfold template_matches in Hin.
  apply in_flat_map in Hin as (phrase & Hphrase & Hin).
  apply in_map_iff in Hin as (m & <- & Hm).
  apply finditer_sound in Hm as [cur Hm].
  rewrite List.Forall_forall in Hall.
  destruct (Hall phrase Hphrase) as (x & tail & -> & Htail & Hx).
  apply template_group_0 in Hm as (y & w & -> & Hy); [|assumption].
  rewrite chars_str. cbn [existsb].
  rewrite <- is_space_lower, Hy, Hx. reflexivity.
Qed.

Lemma inked_phrases phrases :
  forallb (fun phrase => match phrase with
                         | String x (String _ _) => negb (is_space (to_lower x))
                         | _ => false
                         end) phrases = true ->
  Forall (fun phrase => exists x tail, phrase = String x tail /\ tail <> ""
                                       /\ is_space (to_lower x) = false) phrases.
Proof.
  intros Hall. rewrite forallb_forall in Hall. apply List.Forall_forall. intros phrase Hin.
  specialize (Hall phrase Hin). destruct phrase as [|x [|y tail]]; try discriminate.
  exists x, (String y tail). split; [reflexivity|]. split; [discriminate|].
  now apply negb_true_iff.
Qed.

Lemma inked_keywords keywords :
  forallb (fun k => match k with
                    | String x _ => negb (is_space x)
                    | _ => false
                    end) keywords = true ->
  Forall inked keywords.
Proof.
  intros Hall. rewrite forallb_forall in Hall. apply List.Forall_forall. intros k Hin.
  specialize (Hall k Hin). destruct k as [|x t]; [discriminate|].
  exists x, (chars t). split; [reflexivity|]. now apply negb_true_iff.
Qed.

(** every candidate of the three miners holds ink *)
Lemma candidates_hold_ink `{Runtime} it s c :
  In (s, c) (behavior_candidates new_analyzer it)
  \/ In (s, c) (frustration_candidates new_analyzer it)
  \/ In (s, c) (goal_candidates new_analyzer it) ->
  existsb (fun x => negb (is_space x)) (chars c) = true.
Proof.
  unfold behavior_candidates, frustration_candidates, goal_candidates.
  intros [Hin|[Hin|Hin]]; apply in_app_or in Hin as [Hin|Hin].
  - apply in_map_iff in Hin as (c' & [= _ <-] & Hin).
    eapply keyword_sentences_ink; [|exact Hin]. now apply inked_keywords.
  - apply in_map_iff in Hin as (c' & [= _ <-] & Hin).
    apply filter_In in Hin as [Hin _]. apply in_map_iff in Hin as (g0 & <- & _).
    rewrite chars_app. reflexivity.
  - destruct (Qltb _ _); [|destruct Hin].
    apply in_map_iff in Hin as (c' & [= _ <-] & Hin).
    eapply keyword_sentences_ink; [|exact Hin]. now apply inked_keywords.
  - apply in_map_iff in Hin as (c' & [= _ <-] & Hin).
    apply filter_In in Hin as [Hin _].
    eapply template_matches_ink; [|exact Hin]. now apply inked_phrases.
  - apply in_map_iff in Hin as (c' & [= _ <-] & Hin).
    eapply keyword_sentences_ink; [|exact Hin]. now apply inked_keywords.
  - apply in_map_iff in Hin as (c' & [= _ <-] & Hin).
    apply filter_In in Hin as [Hin _].
    eapply template_matches_ink; [|exact Hin]. now apply inked_phrases.
Qed.

Lemma mined_descriptions_truthy `{Runtime} candidates text_items n :
  (forall it s c, In (s, c) (candidates it) ->
                  existsb (fun x => negb (is_space x)) (chars c) = true) ->
  Forall (fun f => truthy_str (Some (description f)) = true)
         (map snd (take n (traced (mine new_analyzer candidates text_items)))).
Proof.
  intros Hink. apply List.Forall_forall. intros f Hf.
  apply in_map_iff in Hf as ([s f'] & <- & Hf).
  pose proof (Forall_take_of _ n _ (mine_mined_from new_analyzer candidates text_items)) as Hall.
  rewrite List.Forall_forall in Hall. apply Hall in Hf as (_ & _ & c & Hc & ->).
  cbn [fst snd] in *. apply description_truthy. exact (Hink _ _ _ Hc).
Qed.

Lemma shown_facts_all facts :
  Forall (fun f => truthy_str (Some (description f)) = true) facts ->
  shown_facts facts = take 5 facts.
Proof.
  intros Hall. unfold shown_facts.
  pose proof (Forall_take_of _ 5 _ Hall) as Htake.
  induction Htake as [|f l Hf _ IH]; [reflexivity|].
  cbn [List.filter]. now rewrite Hf, IH.
Qed.

Lemma fact_section_full heading x h facts :
  chars heading = x :: h -> is_space x = false ->
  String.eqb (strip (heading +:+ nl +:+ nl)) heading = true ->
  Forall (fun f => truthy_str (Some (description f)) = true) facts ->
  Forall (fun f => description f <> "") facts
  /\ fact_section heading facts
     = heading +:+ nl +:+ nl
       +:+ match facts with
           | [] => placeholder +:+ nl +:+ nl
           | _ => lines_of (map fact_bullet (take 5 facts))
           end
       +:+ nl.
Proof.
  intros Hh Hx Hbare Hall. split.
  - eapply List.Forall_impl; [|exact Hall]. intros f Hf Hnil. cbn beta in Hf.
    rewrite Hnil in Hf. discriminate.
  - rewrite (fact_section_spec heading x h facts Hh Hx Hbare).
    destruct facts as [|f facts]; [reflexivity|].
    rewrite (shown_facts_all (f :: facts) Hall). reflexivity.
Qed.

(** X26: the facts of an analysis all have a description, so each of the
    three sections prints a bullet for every one of the first five facts of
    its collection, and "Less info to analyze this" only for a collection
    that is empty. *)
Theorem analysis_facts_are_all_printed `{Runtime} (text_items : list item) :
  Forall (fun '(facts, section_of, heading) =>
            Forall (fun f => description f <> "") facts
            /\ section_of facts
               = heading +:+ nl +:+ nl
                 +:+ match facts with
                     | [] => placeholder +:+ nl +:+ nl
                     | _ => lines_of (map fact_bullet (take 5 facts))
                     end
                 +:+ nl)
         [(_extract_behaviors_and_habits new_analyzer text_items,
           _generate_behaviors_section, "### Behavior & Habits");
          (_extract_frustrations new_analyzer text_items,
           _generate_frustrations_section, "### Frustrations");
          (_extract_goals_and_needs new_analyzer text_items,
           _generate_goals_section, "### Goals & Needs")].
Proof.
  constructor; [|constructor; [|constructor; [|constructor]]].
  - eapply fact_section_full; try reflexivity. apply mined_descriptions_truthy.
    intros it s c Hc. apply (candidates_hold_ink it s c). auto.
  - eapply fact_section_full; try reflexivity. apply mined_descriptions_truthy.
    intros it s c Hc. apply (candidates_hold_ink it s c). auto.
  - eapply fact_section_full; try reflexivity. apply mined_descriptions_truthy.
    intros it s c Hc. apply (candidates_hold_ink it s c). auto.
Qed.
